(** * AirHockey: the physics core and the sync protocol, embedded in Rocq

    Sources: [src/js/game.js] (object [Game]) and [src/js/network.js]
    (object [Network]).  The two JavaScript singletons become one [World]
    record that is threaded through a small state / output / exception
    monad; every call into the collaborators that the core only talks to
    ([Audio], [UI], the PeerJS connection, timers) is recorded as an
    [Effect] in program order.

    JavaScript numbers are IEEE-754 binary64 values.  The code is embedded
    once, over an interface [Arith] of the arithmetic it uses, and the
    interface is instantiated twice:
    - [Binary64.arith]: Rocq's primitive floats, i.e. the numbers the
      program really computes with;
    - [Real.arith]: the real numbers, the "real-valued" reading of the
      data model.
    [Math.pow], [Math.sin] and [Math.cos] are implementation-approximated
    in ECMAScript; they live in a second interface [MathFns], which is
    instantiated for the reals only. *)

From Stdlib Require Import ZArith QArith Qround List Bool Lia String DecimalString.
From Stdlib Require Import Reals Lra Psatz.
From Stdlib Require Import Floats.
Import ListNotations.

Set Warnings "-inexact-float".

(* ================================================================= *)
(** ** Numbers *)

(** The arithmetic of a JavaScript number, as far as the core uses it. *)
Class Arith (num : Type) := {
  lit     : Q -> num;                 (* a decimal literal of the source *)
  nadd    : num -> num -> num;        (* a + b *)
  nsub    : num -> num -> num;        (* a - b *)
  nmul    : num -> num -> num;        (* a * b *)
  ndiv    : num -> num -> num;        (* a / b *)
  nneg    : num -> num;               (* -a *)
  nsqrt   : num -> num;               (* Math.sqrt(a) *)
  nmin    : num -> num -> num;        (* Math.min(a, b) *)
  nlt     : num -> num -> bool;       (* a < b *)
  ngt     : num -> num -> bool;       (* a > b *)
  ntruthy : num -> bool               (* ToBoolean(a), as in [a || b] *)
}.

(** The implementation-approximated functions of [Math]. *)
Class MathFns (num : Type) := {
  Math_pow : num -> num -> num;
  Math_sin : num -> num;
  Math_cos : num -> num;
  Math_PI  : num
}.

(** What the statements about the goal mouth need from [<] and [>]. *)
Class ArithLaws (num : Type) {A : Arith num} : Prop := {
  nlt_irrefl : forall a : num, nlt a a = false;
  ngt_irrefl : forall a : num, ngt a a = false
}.

Declare Scope num_scope.
Delimit Scope num_scope with num.
Infix "+" := nadd : num_scope.
Infix "-" := nsub : num_scope.
Infix "*" := nmul : num_scope.
Infix "/" := ndiv : num_scope.
Notation "- a" := (nneg a) : num_scope.
Infix "<?" := nlt : num_scope.
Infix ">?" := ngt (at level 70) : num_scope.

Module Real.

(** Exact real arithmetic.  [Rpower b e] is [exp (e * ln b)], the real
    power for a positive base; the core only raises the friction
    coefficient [0.995] to a power. *)
#[global] Instance arith : Arith R := {|
  lit     := Q2R;
  nadd    := Rplus;
  nsub    := Rminus;
  nmul    := Rmult;
  ndiv    := Rdiv;
  nneg    := Ropp;
  nsqrt   := R_sqrt.sqrt;
  nmin    := Rmin;
  nlt     := fun a b => if Rlt_dec a b then true else false;
  ngt     := fun a b => if Rlt_dec b a then true else false;
  ntruthy := fun a => if Req_dec_T a 0%R then false else true
|}.

#[global] Instance math : MathFns R := {|
  Math_pow := Rpower;
  Math_sin := sin;
  Math_cos := cos;
  Math_PI  := PI
|}.

End Real.

Module Binary64.

Definition of_Z (z : Z) : float :=
  match z with
  | Z0 => 0%float
  | Zpos _ => PrimFloat.of_uint63 (Uint63.of_Z z)
  | Zneg p => PrimFloat.opp (PrimFloat.of_uint63 (Uint63.of_Z (Zpos p)))
  end.

(** A decimal literal denotes the binary64 value nearest to it.  For the
    literals of the source, numerator and denominator are exact, and the
    correctly rounded quotient is that nearest value. *)
Definition of_Q (q : Q) : float :=
  PrimFloat.div (of_Z (Qnum q)) (of_Z (Zpos (Qden q))).

(** [Math.min]: NaN if an argument is NaN, and [-0] below [+0]. *)
Definition min (a b : float) : float :=
  if PrimFloat.is_nan a || PrimFloat.is_nan b then PrimFloat.nan
  else if PrimFloat.ltb a b then a
  else if PrimFloat.ltb b a then b
  else if PrimFloat.get_sign a then a else b.

(** [ToBoolean]: false for [+0], [-0] and NaN. *)
Definition truthy (a : float) : bool :=
  negb (PrimFloat.is_zero a || PrimFloat.is_nan a).

#[global] Instance arith : Arith float := {|
  lit     := of_Q;
  nadd    := PrimFloat.add;
  nsub    := PrimFloat.sub;
  nmul    := PrimFloat.mul;
  ndiv    := PrimFloat.div;
  nneg    := PrimFloat.opp;
  nsqrt   := PrimFloat.sqrt;
  nmin    := min;
  nlt     := PrimFloat.ltb;
  ngt     := fun a b => PrimFloat.ltb b a;
  ntruthy := truthy
|}.

(** The exact rational value of a finite binary64 number. *)
Definition to_Q (a : float) : option Q :=
  match Prim2SF a with
  | S754_zero _ => Some 0%Q
  | S754_finite s m e =>
      let v := (inject_Z (Zpos m) * Qpower 2 e)%Q in
      Some (if s then Qopp v else v)
  | _ => None
  end.

End Binary64.

(* ================================================================= *)
(** ** Data model *)

(** A puck or a paddle: [{x, y, vx, vy, radius}].  [lastX] and [lastY] are
    the two properties that [updateOpponentPaddle] adds to the opponent
    paddle; they are [undefined] ([None]) until then. *)
Module Body.
Record t (num : Type) := mk {
  x : num; y : num; vx : num; vy : num; radius : num;
  lastX : option num; lastY : option num
}.
Arguments mk {num}.
Arguments x {num}. Arguments y {num}. Arguments vx {num}. Arguments vy {num}.
Arguments radius {num}. Arguments lastX {num}. Arguments lastY {num}.

Definition set_x {num} (v : num) (b : t num) : t num :=
  mk v (y b) (vx b) (vy b) (radius b) (lastX b) (lastY b).
Definition set_y {num} (v : num) (b : t num) : t num :=
  mk (x b) v (vx b) (vy b) (radius b) (lastX b) (lastY b).
Definition set_vx {num} (v : num) (b : t num) : t num :=
  mk (x b) (y b) v (vy b) (radius b) (lastX b) (lastY b).
Definition set_vy {num} (v : num) (b : t num) : t num :=
  mk (x b) (y b) (vx b) v (radius b) (lastX b) (lastY b).
Definition set_lastX {num} (v : num) (b : t num) : t num :=
  mk (x b) (y b) (vx b) (vy b) (radius b) (Some v) (lastY b).
Definition set_lastY {num} (v : num) (b : t num) : t num :=
  mk (x b) (y b) (vx b) (vy b) (radius b) (lastX b) (Some v).
End Body.

(** The two sides, the strings ['player'] and ['opponent'] of the source. *)
Inductive Side := Player | Opponent.

Module Score.
Record t := mk { player : Z; opponent : Z }.

Definition get (s : Side) (sc : t) : Z :=
  match s with Player => player sc | Opponent => opponent sc end.
(** [score[scorer]++] *)
Definition incr (s : Side) (sc : t) : t :=
  match s with
  | Player => mk (player sc + 1) (opponent sc)
  | Opponent => mk (player sc) (opponent sc + 1)
  end.
End Score.

(** The payload of a [gameState] message:
    [{puck: {x, y, vx, vy}, score: {player, opponent}}]. *)
Module State.
Record t (num : Type) := mk {
  x : num; y : num; vx : num; vy : num; score : Score.t
}.
Arguments mk {num}.
Arguments x {num}. Arguments y {num}. Arguments vx {num}. Arguments vy {num}.
Arguments score {num}.
End State.

(** The mutable properties of the object [Game]. *)
Module Game.
Record t (num : Type) := mk {
  width : num; height : num;
  puck : option (Body.t num);
  playerPaddle : option (Body.t num);
  opponentPaddle : option (Body.t num);
  isRunning : bool; isHost : bool;
  score : Score.t;
  paddleRadius : num; puckRadius : num; goalWidth : num; wallThickness : num;
  puckTrail : list (num * num);
  lastTime : num;
  animationId : option Z
}.
Arguments mk {num}.
Arguments width {num}. Arguments height {num}. Arguments puck {num}.
Arguments playerPaddle {num}. Arguments opponentPaddle {num}.
Arguments isRunning {num}. Arguments isHost {num}. Arguments score {num}.
Arguments paddleRadius {num}. Arguments puckRadius {num}.
Arguments goalWidth {num}. Arguments wallThickness {num}.
Arguments puckTrail {num}. Arguments lastTime {num}.
Arguments animationId {num}.

Definition set_puck {num} (v : option (Body.t num)) (g : t num) : t num :=
  mk (width g) (height g) v (playerPaddle g) (opponentPaddle g)
     (isRunning g) (isHost g) (score g) (paddleRadius g) (puckRadius g)
     (goalWidth g) (wallThickness g) (puckTrail g) (lastTime g) (animationId g).
Definition set_opponentPaddle {num} (v : option (Body.t num)) (g : t num) : t num :=
  mk (width g) (height g) (puck g) (playerPaddle g) v
     (isRunning g) (isHost g) (score g) (paddleRadius g) (puckRadius g)
     (goalWidth g) (wallThickness g) (puckTrail g) (lastTime g) (animationId g).
Definition set_isRunning {num} (v : bool) (g : t num) : t num :=
  mk (width g) (height g) (puck g) (playerPaddle g) (opponentPaddle g)
     v (isHost g) (score g) (paddleRadius g) (puckRadius g)
     (goalWidth g) (wallThickness g) (puckTrail g) (lastTime g) (animationId g).
Definition set_score {num} (v : Score.t) (g : t num) : t num :=
  mk (width g) (height g) (puck g) (playerPaddle g) (opponentPaddle g)
     (isRunning g) (isHost g) v (paddleRadius g) (puckRadius g)
     (goalWidth g) (wallThickness g) (puckTrail g) (lastTime g) (animationId g).
Definition set_puckTrail {num} (v : list (num * num)) (g : t num) : t num :=
  mk (width g) (height g) (puck g) (playerPaddle g) (opponentPaddle g)
     (isRunning g) (isHost g) (score g) (paddleRadius g) (puckRadius g)
     (goalWidth g) (wallThickness g) v (lastTime g) (animationId g).
Definition set_lastTime {num} (v : num) (g : t num) : t num :=
  mk (width g) (height g) (puck g) (playerPaddle g) (opponentPaddle g)
     (isRunning g) (isHost g) (score g) (paddleRadius g) (puckRadius g)
     (goalWidth g) (wallThickness g) (puckTrail g) v (animationId g).
Definition set_animationId {num} (v : option Z) (g : t num) : t num :=
  mk (width g) (height g) (puck g) (playerPaddle g) (opponentPaddle g)
     (isRunning g) (isHost g) (score g) (paddleRadius g) (puckRadius g)
     (goalWidth g) (wallThickness g) (puckTrail g) (lastTime g) v.
End Game.

(** The PeerJS data connection is a collaborator; all the core can observe
    of it is whether [connection.send] throws. *)
Record Connection := { sendThrows : bool }.

(** The mutable properties of the object [Network].  Times are the integer
    milliseconds of [Date.now()]. *)
Module Network.
Record t := mk {
  peer : option string;
  connection : option Connection;
  isConnected : bool;
  isHost : bool;
  roomCode : option string;
  lastStateSend : Z
}.

Definition set_lastStateSend (v : Z) (n : t) : t :=
  mk (peer n) (connection n) (isConnected n) (isHost n) (roomCode n) v.
Definition set_isConnected (v : bool) (n : t) : t :=
  mk (peer n) (connection n) v (isHost n) (roomCode n) (lastStateSend n).
Definition set_connection (v : option Connection) (n : t) : t :=
  mk (peer n) v (isConnected n) (isHost n) (roomCode n) (lastStateSend n).
Definition set_peer (v : option string) (n : t) : t :=
  mk v (connection n) (isConnected n) (isHost n) (roomCode n) (lastStateSend n).
Definition set_isHost (v : bool) (n : t) : t :=
  mk (peer n) (connection n) (isConnected n) v (roomCode n) (lastStateSend n).
Definition set_roomCode (v : option string) (n : t) : t :=
  mk (peer n) (connection n) (isConnected n) (isHost n) v (lastStateSend n).
End Network.

(** Properties that are initialised in the object literals and never
    assigned again. *)
Definition winningScore : Z := 11.
Definition maxTrailLength : nat := 15.
Definition stateSendInterval : Z := 33.
Definition friction {num} `{Arith num} : num := lit 0.995.
Definition maxPuckSpeed {num} `{Arith num} : num := lit 25.

(* ================================================================= *)
(** ** Effects on the collaborators *)

Module Sound.
Inductive t := hit | wall | goal | win | lose.
End Sound.

(** The five wire messages of [handleMessage]. *)
Module Message.
Inductive t (num : Type) :=
| ready
| start
| paddle (x y : num)
| gameState (state : State.t num)
| playAgain.
Arguments ready {num}. Arguments start {num}. Arguments paddle {num}.
Arguments gameState {num}. Arguments playAgain {num}.
End Message.

(** The closure that [goalScored] hands to [setTimeout]:
    [() => { if (this.isRunning) this.resetPuck(towardPlayer) }]. *)
Inductive Timer := ResetPuck (towardPlayer : bool).

Inductive Effect (num : Type) :=
| Audio_play (sound : Sound.t)
| UI_updateScore (player opponent : Z)
| UI_showGoalAnnouncement
| UI_showGameOver (playerWon : bool) (playerScore opponentScore : Z)
| UI_startGame (isHost : bool)
| connection_send (data : Message.t num)     (* a message put on the wire *)
| console_error                              (* 'Send error:' *)
| setTimeout (callback : Timer) (ms : Z)
| cancelAnimationFrame (id : Z)
| requestAnimationFrame
| render.
Arguments Audio_play {num}. Arguments UI_updateScore {num}.
Arguments UI_showGoalAnnouncement {num}. Arguments UI_showGameOver {num}.
Arguments UI_startGame {num}. Arguments connection_send {num}.
Arguments console_error {num}. Arguments setTimeout {num}.
Arguments cancelAnimationFrame {num}. Arguments requestAnimationFrame {num}.
Arguments render {num}.

(* ================================================================= *)
(** ** The monad of a callback *)

Record World (num : Type) := mkWorld { game : Game.t num; net : Network.t }.
Arguments mkWorld {num}. Arguments game {num}. Arguments net {num}.

(** A callback either runs to completion or throws (a [TypeError] on a
    [null] body); in both cases it leaves a world and the effects it had
    until then. *)
Inductive Outcome (num A : Type) :=
| Done (a : A) (w : World num) (out : list (Effect num))
| Threw (w : World num) (out : list (Effect num)).
Arguments Done {num A}. Arguments Threw {num A}.

Definition JS (num A : Type) : Type := World num -> Outcome num A.

Definition world {num A} (o : Outcome num A) : World num :=
  match o with Done _ w _ => w | Threw w _ => w end.
Definition trace {num A} (o : Outcome num A) : list (Effect num) :=
  match o with Done _ _ out => out | Threw _ out => out end.
Definition completed {num A} (o : Outcome num A) : bool :=
  match o with Done _ _ _ => true | Threw _ _ => false end.

Section Monad.
Context {num : Type}.

Definition ret {A} (a : A) : JS num A := fun w => Done a w [].

Definition bind {A B} (m : JS num A) (k : A -> JS num B) : JS num B :=
  fun w =>
    match m w with
    | Done a w1 out1 =>
        match k a w1 with
        | Done b w2 out2 => Done b w2 (out1 ++ out2)
        | Threw w2 out2 => Threw w2 (out1 ++ out2)
        end
    | Threw w1 out1 => Threw w1 out1
    end.

Definition throw {A} : JS num A := fun w => Threw w [].
Definition emit (e : Effect num) : JS num unit := fun w => Done tt w [e].

Definition getGame : JS num (Game.t num) := fun w => Done (game w) w [].
Definition getNet : JS num Network.t := fun w => Done (net w) w [].
Definition modifyGame (f : Game.t num -> Game.t num) : JS num unit :=
  fun w => Done tt (mkWorld (f (game w)) (net w)) [].
Definition modifyNet (f : Network.t -> Network.t) : JS num unit :=
  fun w => Done tt (mkWorld (game w) (f (net w))) [].

(** Reading a property of [o]: a [TypeError] when [o] is [null]. *)
Definition deref {A} (o : option A) : JS num A :=
  match o with Some a => ret a | None => throw end.

Definition thisPuck : JS num (Body.t num) :=
  bind getGame (fun g => deref (Game.puck g)).
(** An assignment to a property of [this.puck]. *)
Definition modifyPuck (f : Body.t num -> Body.t num) : JS num unit :=
  bind thisPuck (fun p => modifyGame (Game.set_puck (Some (f p)))).
End Monad.

Notation "x <- c1 ;; c2" := (bind c1 (fun x => c2))
  (at level 61, c1 at next level, right associativity).
Notation "c1 ;; c2" := (bind c1 (fun _ => c2))
  (at level 61, right associativity).


(* ================================================================= *)
(** ** The methods of [Network] and [Game]

    [Date.now()] and [Math.random()] are read from the environment; the
    values they return are arguments ([now], [rnd]) of the methods that
    call them. *)

Section Methods.
Context {num : Type} {A : Arith num} {M : MathFns num}.
Local Open Scope num_scope.

Definition when (c : bool) (m : JS num unit) : JS num unit :=
  if c then m else ret tt.

(** [Network.send] (network.js 226-234). *)
Definition send (data : Message.t num) : JS num unit :=
  n <- getNet ;;
  match Network.connection n with
  | Some c =>
      if Network.isConnected n then
        if sendThrows c then emit console_error        (* catch (e) *)
        else emit (connection_send data)
      else ret tt
  | None => ret tt
  end.

(** [Network.sendPaddlePosition] (network.js 239-245). *)
Definition sendPaddlePosition (x y : num) : JS num unit :=
  send (Message.paddle x y).

(** [Network.sendGameState] (network.js 250-259). *)
Definition sendGameState (now : Z) (state : State.t num) : JS num unit :=
  n <- getNet ;;
  if (now - Network.lastStateSend n >=? stateSendInterval)%Z then
    send (Message.gameState state) ;;
    modifyNet (Network.set_lastStateSend now)
  else ret tt.

(** [Game.gameOver] (game.js 479-487). *)
Definition gameOver (playerWon : bool) : JS num unit :=
  modifyGame (Game.set_isRunning false) ;;
  g <- getGame ;;
  match Game.animationId g with
  | Some id => when (negb (id =? 0)%Z) (emit (cancelAnimationFrame id))
  | None => ret tt
  end ;;
  emit (Audio_play (if playerWon then Sound.win else Sound.lose)) ;;
  emit (UI_showGameOver playerWon (Score.player (Game.score g))
                        (Score.opponent (Game.score g))).

(** [Game.stop] (game.js 492-497). *)
Definition stop : JS num unit :=
  modifyGame (Game.set_isRunning false) ;;
  g <- getGame ;;
  match Game.animationId g with
  | Some id => when (negb (id =? 0)%Z) (emit (cancelAnimationFrame id))
  | None => ret tt
  end.

(** [Game.goalScored] (game.js 353-372). *)
Definition goalScored (scorer : Side) : JS num unit :=
  modifyGame (fun g => Game.set_score (Score.incr scorer (Game.score g)) g) ;;
  emit (Audio_play Sound.goal) ;;
  emit UI_showGoalAnnouncement ;;
  g <- getGame ;;
  emit (UI_updateScore (Score.player (Game.score g))
                       (Score.opponent (Game.score g))) ;;
  (* Check for win *)
  if (Score.get scorer (Game.score g) >=? winningScore)%Z then
    gameOver (match scorer with Player => true | Opponent => false end)
  else
    (* Reset puck after delay *)
    emit (setTimeout
            (ResetPuck (match scorer with Opponent => true | Player => false end))
            1500).

(** The object literal [{puck: {x, y, vx, vy}, score: this.score}]. *)
Definition snapshot (puck : Body.t num) (g : Game.t num) : State.t num :=
  State.mk (Body.x puck) (Body.y puck) (Body.vx puck) (Body.vy puck)
           (Game.score g).

(** [Game.resetPuck] (game.js 377-395). *)
Definition resetPuck (towardPlayer : bool) (rnd : num) (now : Z) : JS num unit :=
  g <- getGame ;;
  modifyPuck (Body.set_x (Game.width g / lit 2)) ;;
  modifyPuck (Body.set_y (Game.height g / lit 2)) ;;
  modifyGame (Game.set_puckTrail []) ;;
  (* Give initial velocity toward the player who was scored on *)
  let angle := (rnd - lit 0.5) * Math_PI / lit 2 in
  let speed := lit 8 in
  modifyPuck (Body.set_vx (Math_sin angle * speed)) ;;
  modifyPuck (Body.set_vy (Math_cos angle * speed
                           * (if towardPlayer then lit 1 else - lit 1))) ;;
  (* Sync with opponent *)
  n <- getNet ;;
  if Network.isConnected n then
    g <- getGame ;;
    puck <- thisPuck ;;
    sendGameState now (snapshot puck g)
  else ret tt.

(** The callback of a [Timer] when it fires. *)
Definition fire (t : Timer) (rnd : num) (now : Z) : JS num unit :=
  match t with
  | ResetPuck towardPlayer =>
      g <- getGame ;;
      if Game.isRunning g then resetPuck towardPlayer rnd now else ret tt
  end.

(** [Game.checkPaddleCollision] (game.js 309-348). *)
Definition checkPaddleCollision (paddle : option (Body.t num)) : JS num unit :=
  puck <- thisPuck ;;
  paddle <- deref paddle ;;
  let dx := Body.x puck - Body.x paddle in
  let dy := Body.y puck - Body.y paddle in
  let dist := nsqrt (dx * dx + dy * dy) in
  let minDist := Body.radius puck + Body.radius paddle in
  if (dist <? minDist) && (dist >? lit 0) then
    (* Collision! Calculate response *)
    let nx := dx / dist in
    let ny := dy / dist in
    (* Separate objects *)
    let overlap := minDist - dist in
    modifyPuck (fun p => Body.set_x (Body.x p + nx * overlap) p) ;;
    modifyPuck (fun p => Body.set_y (Body.y p + ny * overlap) p) ;;
    (* Calculate relative velocity *)
    puck <- thisPuck ;;
    let relVx := Body.vx puck - Body.vx paddle in
    let relVy := Body.vy puck - Body.vy paddle in
    (* Relative velocity along collision normal *)
    let relVelNormal := relVx * nx + relVy * ny in
    (* Only resolve if objects are moving toward each other *)
    if relVelNormal <? lit 0 then
      (* Coefficient of restitution (bounciness) *)
      let restitution := lit 1.1 in
      (* New velocity *)
      modifyPuck (fun p =>
        Body.set_vx (Body.vx p - (lit 1 + restitution) * relVelNormal * nx) p) ;;
      modifyPuck (fun p =>
        Body.set_vy (Body.vy p - (lit 1 + restitution) * relVelNormal * ny) p) ;;
      (* Add some of paddle velocity *)
      modifyPuck (fun p => Body.set_vx (Body.vx p + Body.vx paddle * lit 0.5) p) ;;
      modifyPuck (fun p => Body.set_vy (Body.vy p + Body.vy paddle * lit 0.5) p) ;;
      emit (Audio_play Sound.hit)
    else ret tt
  else ret tt.

(** *** [Game.updatePhysics] (game.js 222-304), block by block *)

(** "Add to trail" (226-229): [unshift], then [pop] above the cap. *)
Definition addToTrail : JS num unit :=
  puck <- thisPuck ;;
  modifyGame (fun g =>
    Game.set_puckTrail ((Body.x puck, Body.y puck) :: Game.puckTrail g) g) ;;
  g <- getGame ;;
  when (maxTrailLength <? List.length (Game.puckTrail g))%nat
       (modifyGame (fun g => Game.set_puckTrail (removelast (Game.puckTrail g)) g)).

(** "Update puck position" (231-233). *)
Definition updatePuckPosition (dt : num) : JS num unit :=
  modifyPuck (fun p => Body.set_x (Body.x p + Body.vx p * dt) p) ;;
  modifyPuck (fun p => Body.set_y (Body.y p + Body.vy p * dt) p).

(** "Apply friction" (235-237). *)
Definition applyFriction (dt : num) : JS num unit :=
  modifyPuck (fun p => Body.set_vx (Body.vx p * Math_pow friction dt) p) ;;
  modifyPuck (fun p => Body.set_vy (Body.vy p * Math_pow friction dt) p).

(** "Clamp speed" (239-244). *)
Definition clampSpeed : JS num unit :=
  puck <- thisPuck ;;
  let speed := nsqrt (Body.vx puck * Body.vx puck + Body.vy puck * Body.vy puck) in
  when (speed >? maxPuckSpeed)
    (modifyPuck (fun p => Body.set_vx (Body.vx p / speed * maxPuckSpeed) p) ;;
     modifyPuck (fun p => Body.set_vy (Body.vy p / speed * maxPuckSpeed) p)).

(** "Wall collisions" and "Goal zones" (246-254): the six bounds. *)
Definition wallLeft (g : Game.t num) (puck : Body.t num) : num :=
  Game.wallThickness g + Body.radius puck.
Definition wallRight (g : Game.t num) (puck : Body.t num) : num :=
  Game.width g - Game.wallThickness g - Body.radius puck.
Definition wallTop (g : Game.t num) (puck : Body.t num) : num :=
  Game.wallThickness g + Body.radius puck.
Definition wallBottom (g : Game.t num) (puck : Body.t num) : num :=
  Game.height g - Game.wallThickness g - Body.radius puck.
Definition goalLeft (g : Game.t num) : num :=
  (Game.width g - Game.goalWidth g) / lit 2.
Definition goalRight (g : Game.t num) : num :=
  (Game.width g + Game.goalWidth g) / lit 2.

(** "Left/right walls" (256-265). *)
Definition leftRightWalls : JS num unit :=
  g <- getGame ;;
  puck <- thisPuck ;;
  if Body.x puck <? wallLeft g puck then
    modifyPuck (Body.set_x (wallLeft g puck)) ;;
    modifyPuck (fun p => Body.set_vx (- Body.vx p * lit 0.9) p) ;;
    emit (Audio_play Sound.wall)
  else if Body.x puck >? wallRight g puck then
    modifyPuck (Body.set_x (wallRight g puck)) ;;
    modifyPuck (fun p => Body.set_vx (- Body.vx p * lit 0.9) p) ;;
    emit (Audio_play Sound.wall)
  else ret tt.

(** "Top wall (opponent's side) - check for goal" (267-278).  The result
    is [true] when the method returns from inside the block. *)
Definition topWall : JS num bool :=
  g <- getGame ;;
  puck <- thisPuck ;;
  if Body.y puck <? wallTop g puck then
    if (Body.x puck >? goalLeft g) && (Body.x puck <? goalRight g) then
      (* Goal for player! *)
      goalScored Player ;;
      ret true
    else
      modifyPuck (Body.set_y (wallTop g puck)) ;;
      modifyPuck (fun p => Body.set_vy (- Body.vy p * lit 0.9) p) ;;
      emit (Audio_play Sound.wall) ;;
      ret false
  else ret false.

(** "Bottom wall (player's side) - check for goal" (280-291). *)
Definition bottomWall : JS num bool :=
  g <- getGame ;;
  puck <- thisPuck ;;
  if Body.y puck >? wallBottom g puck then
    if (Body.x puck >? goalLeft g) && (Body.x puck <? goalRight g) then
      (* Goal for opponent! *)
      goalScored Opponent ;;
      ret true
    else
      modifyPuck (Body.set_y (wallBottom g puck)) ;;
      modifyPuck (fun p => Body.set_vy (- Body.vy p * lit 0.9) p) ;;
      emit (Audio_play Sound.wall) ;;
      ret false
  else ret false.

(** "Paddle collisions" (293-295). *)
Definition paddleCollisions : JS num unit :=
  g <- getGame ;;
  checkPaddleCollision (Game.playerPaddle g) ;;
  g <- getGame ;;
  checkPaddleCollision (Game.opponentPaddle g).

(** "Send puck state to opponent" (297-303). *)
Definition sendPuckState (now : Z) : JS num unit :=
  n <- getNet ;;
  if Network.isConnected n then
    g <- getGame ;;
    puck <- thisPuck ;;
    sendGameState now (snapshot puck g)
  else ret tt.

(** The puck's flight up to the side walls: everything before the end
    walls are looked at. *)
Definition flight (dt : num) : JS num unit :=
  addToTrail ;;
  updatePuckPosition dt ;;
  applyFriction dt ;;
  clampSpeed ;;
  leftRightWalls.

(** The rest of the tick: end walls, paddles, broadcast.  A goal returns
    from the method. *)
Definition finishTick (now : Z) : JS num unit :=
  returned <- topWall ;;
  if returned then ret tt else
  returned <- bottomWall ;;
  if returned then ret tt else
  paddleCollisions ;;
  sendPuckState now.

Definition updatePhysics (dt : num) (now : Z) : JS num unit :=
  flight dt ;;
  finishTick now.

(** [Game.gameLoop] (game.js 203-217).  [id] is the handle that
    [requestAnimationFrame] returns. *)
Definition gameLoop (currentTime : num) (now : Z) (id : Z) : JS num unit :=
  g <- getGame ;;
  if negb (Game.isRunning g) then ret tt else
  let deltaTime := nmin ((currentTime - Game.lastTime g) / lit 16.67) (lit 2) in
  modifyGame (Game.set_lastTime currentTime) ;;
  (* Only host runs physics *)
  when (Game.isHost g) (updatePhysics deltaTime now) ;;
  emit render ;;
  emit requestAnimationFrame ;;
  modifyGame (Game.set_animationId (Some id)).

(** [a || b] where [a] may be [undefined]. *)
Definition orElse (a : option num) (b : num) : num :=
  match a with
  | Some v => if ntruthy v then v else b
  | None => b
  end.

(** [Game.updateOpponentPaddle] (game.js 418-430). *)
Definition updateOpponentPaddle (x y : num) : JS num unit :=
  g <- getGame ;;
  match Game.opponentPaddle g with
  | None => ret tt                                  (* if (!this.opponentPaddle) return *)
  | Some paddle =>
      (* Mirror the position (opponent sees things flipped) *)
      let paddle := Body.set_x (Game.width g - x) paddle in
      let paddle := Body.set_y (Game.height g - y) paddle in
      (* Calculate velocity for physics *)
      let paddle :=
        Body.set_vx ((Body.x paddle - orElse (Body.lastX paddle) (Body.x paddle))
                     * lit 0.3) paddle in
      let paddle :=
        Body.set_vy ((Body.y paddle - orElse (Body.lastY paddle) (Body.y paddle))
                     * lit 0.3) paddle in
      let paddle := Body.set_lastX (Body.x paddle) paddle in
      let paddle := Body.set_lastY (Body.y paddle) paddle in
      modifyGame (Game.set_opponentPaddle (Some paddle))
  end.

(** [Game.updateFromHost] (game.js 435-474). *)
Definition updateFromHost (state : State.t num) : JS num unit :=
  g <- getGame ;;
  if Game.isHost g then ret tt else
  (* Mirror puck position *)
  modifyPuck (Body.set_x (Game.width g - State.x state)) ;;
  modifyPuck (Body.set_y (Game.height g - State.y state)) ;;
  modifyPuck (Body.set_vx (- State.vx state)) ;;
  modifyPuck (Body.set_vy (- State.vy state)) ;;
  (* Update trail *)
  puck <- thisPuck ;;
  modifyGame (fun g =>
    Game.set_puckTrail ((Body.x puck, Body.y puck) :: Game.puckTrail g) g) ;;
  g <- getGame ;;
  when (maxTrailLength <? List.length (Game.puckTrail g))%nat
       (modifyGame (fun g => Game.set_puckTrail (removelast (Game.puckTrail g)) g)) ;;
  (* Mirror score (opponent's player score is our opponent score) *)
  let prevPlayerScore := Score.player (Game.score g) in
  let prevOpponentScore := Score.opponent (Game.score g) in
  modifyGame (Game.set_score
                (Score.mk (Score.opponent (State.score state))
                          (Score.player (State.score state)))) ;;
  g <- getGame ;;
  (* Check for goal *)
  (if (Score.player (Game.score g) >? prevPlayerScore)%Z then
     emit (Audio_play Sound.goal) ;; emit UI_showGoalAnnouncement
   else if (Score.opponent (Game.score g) >? prevOpponentScore)%Z then
     emit (Audio_play Sound.goal) ;; emit UI_showGoalAnnouncement
   else ret tt) ;;
  emit (UI_updateScore (Score.player (Game.score g))
                       (Score.opponent (Game.score g))) ;;
  (* Check for game over *)
  if (Score.player (Game.score g) >=? winningScore)%Z then gameOver true
  else if (Score.opponent (Game.score g) >=? winningScore)%Z then gameOver false
  else ret tt.

(** [Network.handleMessage] (network.js 170-221). *)
Definition handleMessage (data : Message.t num) : JS num unit :=
  n <- getNet ;;
  match data with
  | Message.ready =>
      when (Network.isHost n) (send Message.start ;; emit (UI_startGame true))
  | Message.start => emit (UI_startGame (Network.isHost n))
  | Message.paddle x y => updateOpponentPaddle x y
  | Message.gameState state =>
      when (negb (Network.isHost n)) (updateFromHost state)
  | Message.playAgain =>
      if Network.isHost n then send Message.start ;; emit (UI_startGame true)
      else emit (UI_startGame (Network.isHost n))
  end.

(** The callbacks that the event loop delivers to a peer during a match:
    an animation frame, a timer of [goalScored] that fires, a message from
    the other peer. *)
Inductive Callback :=
| Frame (currentTime : num) (now : Z) (id : Z)
| Timeout (t : Timer) (rnd : num) (now : Z)
| Data (data : Message.t num).

Definition dispatch (c : Callback) : JS num unit :=
  match c with
  | Frame currentTime now id => gameLoop currentTime now id
  | Timeout t rnd now => fire t rnd now
  | Data data => handleMessage data
  end.

(** One callback after the other; an exception ends its own callback only. *)
Fixpoint run (cs : list Callback) (w : World num) : World num * list (Effect num) :=
  match cs with
  | [] => (w, [])
  | c :: cs =>
      let o := dispatch c w in
      let '(w', out) := run cs (world o) in
      (w', trace o ++ out)
  end.

End Methods.


(* ================================================================= *)
(** ** The host side of the peer session: [Network.createGame]

    [createGame] returns a promise and registers four callbacks that
    settle it: the peer's ['open'], ['connection'] and ['error'] handlers
    and a 60 s timer.  A promise settles once; later calls of its
    [resolve] and [reject] do nothing.  The retry on ['unavailable-id']
    calls [createGame] again and chains the new promise to the functions
    of the old one ([.then(resolve).catch(reject)]). *)

Module Promise.
Inductive reason :=
| Timeout_waiting_for_connection      (* new Error('Timeout waiting for connection') *)
| PeerError (type : string).          (* the [err] of the peer's 'error' event *)

Inductive state :=
| pending
| fulfilled (value : option string)
| rejected (r : reason).

(** A promise made by [createGame], with the promise (by call number)
    whose [resolve] and [reject] it is chained to. *)
Record t := mk { status : state; chained : option nat }.
End Promise.

(** A value of [Math.random()]: a binary64 number in [[0, 1)]. *)
Record Random := mkRandom {
  value : float;
  in_range : (PrimFloat.leb 0 value && PrimFloat.ltb value 1)%bool = true
}.

Inductive SessionEffect :=
| new_Peer (id : string)
| peer_destroy
| setTimeout_60000 (call : nat)
| connection_on_handlers              (* 'data', 'close', 'error' *)
| onConnected
| setTimeout_ready_500.               (* guest only: send {type: 'ready'} *)

(** The callbacks registered by the call [call] of [createGame]. *)
Inductive SessionEvent :=
| peer_open (call : nat)
| peer_connection (call : nat) (conn : Connection)
| conn_open (call : nat)
| peer_error (call : nat) (type : string) (rnd1 rnd2 : Random)
| timeout_60000 (call : nat).

(** [onConnected_is_set] tells whether the property [Network.onConnected] holds
    a function ([UI.init] stores one) or is still [null]. *)
Record Session := mkSession {
  network : Network.t;
  promises : list Promise.t;         (* by call number *)
  onConnected_is_set : bool
}.

(** [Network.generateRoomCode] (network.js 25-27):
    [Math.floor(1000 + Math.random() * 9000).toString()], computed on
    binary64 numbers.  For a value of [Math.random()] the sum is finite,
    its floor is an integer between 1000 and 9999, and [toString] writes
    the decimal digits of that integer. *)
Definition generateRoomCode (rnd : Random) : string :=
  match Binary64.to_Q (1000 + value rnd * 9000)%float with
  | Some q => NilZero.string_of_int (Z.to_int (Qfloor q))
  | None => EmptyString              (* never: the sum is finite *)
  end.

(** The promise table with the entry of call [k] changed by [f]. *)
Fixpoint update (k : nat) (f : Promise.t -> Promise.t) (ps : list Promise.t)
  : list Promise.t :=
  match ps, k with
  | [], _ => []
  | p :: ps, O => f p :: ps
  | p :: ps, S k => p :: update k f ps
  end.

Definition setStatus (k : nat) (st : Promise.state) (ps : list Promise.t)
  : list Promise.t :=
  update k (fun p => Promise.mk st (Promise.chained p)) ps.

(** Calling [resolve] or [reject] of promise [k] with the outcome [st]:
    nothing if [k] is settled; otherwise [k] takes [st] and hands it on to
    the promise it is chained to.  A promise is chained to an earlier one,
    so [List.length ps] steps are enough. *)
Fixpoint settle (fuel k : nat) (st : Promise.state) (ps : list Promise.t)
  : list Promise.t :=
  match fuel with
  | O => ps
  | S fuel =>
      match nth_error ps k with
      | Some p =>
          match Promise.status p with
          | Promise.pending =>
              let ps := setStatus k st ps in
              match Promise.chained p with
              | Some k' => settle fuel k' st ps
              | None => ps
              end
          | _ => ps
          end
      | None => ps
      end
  end.

Definition resolve (k : nat) (value : option string) (s : Session) : Session :=
  mkSession (network s)
            (settle (List.length (promises s)) k (Promise.fulfilled value) (promises s))
            (onConnected_is_set s).
Definition reject (k : nat) (r : Promise.reason) (s : Session) : Session :=
  mkSession (network s)
            (settle (List.length (promises s)) k (Promise.rejected r) (promises s))
            (onConnected_is_set s).

(** [Network.createGame] (network.js 32-79): the body of the promise
    executor.  The result names the new promise. *)
Definition createGame (rnd : Random) (s : Session)
  : nat * Session * list SessionEffect :=
  let call := List.length (promises s) in
  let code := generateRoomCode rnd in
  let n := Network.set_roomCode (Some code) (network s) in
  let n := Network.set_isHost true n in
  (* Create peer with room code as ID *)
  let peerId := ("airhockey-" ++ code)%string in
  let n := Network.set_peer (Some peerId) n in
  (call,
   mkSession n (promises s ++ [Promise.mk Promise.pending None])
             (onConnected_is_set s),
   [new_Peer peerId; setTimeout_60000 call]).

(** [.then(resolve).catch(reject)] with the functions of promise [k]. *)
Definition chain (j k : nat) (s : Session) : Session :=
  mkSession (network s)
            (update j (fun p => Promise.mk (Promise.status p) (Some k)) (promises s))
            (onConnected_is_set s).

(** [Network.setupConnection] (network.js 132-165). *)
Definition setupConnection (s : Session) : Session * list SessionEffect :=
  let n := Network.set_isConnected true (network s) in
  (mkSession n (promises s) (onConnected_is_set s),
   [connection_on_handlers]
     (* Notify connection established *)
     ++ (if onConnected_is_set s then [onConnected] else [])
     (* If guest, tell host we are ready *)
     ++ (if Network.isHost n then [] else [setTimeout_ready_500])).

(** The four callbacks of [createGame]. *)
Definition handle (e : SessionEvent) (s : Session) : Session * list SessionEffect :=
  match e with
  | peer_open k =>
      (* this.peer.on('open', ...) *)
      (resolve k (Network.roomCode (network s)) s, [])
  | peer_connection k conn =>
      (* this.peer.on('connection', ...) *)
      (mkSession (Network.set_connection (Some conn) (network s)) (promises s)
                 (onConnected_is_set s), [])
  | conn_open k =>
      (* conn.on('open', ...): wait for connection to be fully open *)
      setupConnection s
  | peer_error k type rnd1 rnd2 =>
      (* this.peer.on('error', ...) *)
      if String.eqb type "unavailable-id" then
        (* Room code already in use, try another *)
        let s1 := mkSession
                    (Network.set_roomCode (Some (generateRoomCode rnd1)) (network s))
                    (promises s) (onConnected_is_set s) in
        let '(j, s2, out) := createGame rnd2 s1 in
        (chain j k s2, peer_destroy :: out)
      else (reject k (Promise.PeerError type) s, [])
  | timeout_60000 k =>
      (* Timeout after 60 seconds *)
      if negb (Network.isConnected (network s)) then
        (reject k Promise.Timeout_waiting_for_connection s, [])
      else (s, [])
  end.

Fixpoint handleAll (es : list SessionEvent) (s : Session) : Session :=
  match es with
  | [] => s
  | e :: es => handleAll es (fst (handle e s))
  end.

Definition statusIn (ps : list Promise.t) (k : nat) : option Promise.state :=
  option_map Promise.status (nth_error ps k).
Definition statusOf (k : nat) (s : Session) : option Promise.state :=
  statusIn (promises s) k.

(** The module-level object literal [Network] before any call. *)
Definition Network_initial : Network.t :=
  Network.mk None None false false None 0.

(** A host that has just called [createGame], with the random draw that
    gives the room code 4821. *)
Definition hosting : Session :=
  snd (fst (createGame (mkRandom 0.4246%float eq_refl)
                       (mkSession Network_initial [] true))).


(* ================================================================= *)
(** ** Vocabulary of the statements *)

(** A world with another puck, another opponent paddle. *)
Definition setPuck {num} (p : Body.t num) (w : World num) : World num :=
  mkWorld (Game.set_puck (Some p) (game w)) (net w).
Definition setOpponentPaddle {num} (p : Body.t num) (w : World num) : World num :=
  mkWorld (Game.set_opponentPaddle (Some p) (game w)) (net w).

(** The speed of a body, as "Clamp speed" computes it. *)
Definition speed {num} `{Arith num} (p : Body.t num) : num :=
  nsqrt (Body.vx p * Body.vx p + Body.vy p * Body.vy p)%num.

(** The distance between the centres of two bodies, as
    [checkPaddleCollision] computes it. *)
Definition centreDistance {num} `{Arith num} (puck paddle : Body.t num) : num :=
  nsqrt ((Body.x puck - Body.x paddle) * (Body.x puck - Body.x paddle)
         + (Body.y puck - Body.y paddle) * (Body.y puck - Body.y paddle))%num.

(** The strict test of the goal mouth, as both end-wall blocks write it. *)
Definition inGoalMouth {num} `{Arith num} (g : Game.t num) (puck : Body.t num)
  : bool :=
  ((Body.x puck >? goalLeft g) && (Body.x puck <? goalRight g))%num.

(** The puck after a bounce off an end wall at [bound]. *)
Definition bounced {num} `{Arith num} (bound : num) (puck : Body.t num)
  : Body.t num :=
  Body.set_vy (- Body.vy puck * lit 0.9)%num (Body.set_y bound puck).

(** The mirroring transform of [updateFromHost], on a puck and on a score. *)
Definition mirrored {num} `{Arith num} (g : Game.t num) (state : State.t num)
    (puck : Body.t num) : Body.t num :=
  Body.set_vy (- State.vy state)%num
    (Body.set_vx (- State.vx state)%num
       (Body.set_y (Game.height g - State.y state)%num
          (Body.set_x (Game.width g - State.x state)%num puck))).
Definition swapped (sc : Score.t) : Score.t :=
  Score.mk (Score.opponent sc) (Score.player sc).

(** What a guest holds after it applies [state] and then applies what it
    holds, as if that were sent back to it. *)
Definition mirrorTwice {num} `{Arith num} (state : State.t num) (w : World num)
  : option (State.t num) :=
  let w1 := world (updateFromHost state w) in
  match Game.puck (game w1) with
  | Some p1 =>
      let w2 := world (updateFromHost (snapshot p1 (game w1)) w1) in
      option_map (fun p2 => snapshot p2 (game w2)) (Game.puck (game w2))
  | None => None
  end.

(** A match-over: [gameOver] has announced a winner. *)
Definition matchOver {num} (out : list (Effect num)) : Prop :=
  exists won a b, In (UI_showGameOver won a b) out.

(** A [gameState] message on the wire. *)
Definition isBroadcast {num} (e : Effect num) : Prop :=
  match e with connection_send (Message.gameState _) => True | _ => False end.

(** Neither the sound of a paddle hit nor a broadcast. *)
Definition quiet {num} (e : Effect num) : Prop :=
  e <> Audio_play Sound.hit /\ ~ isBroadcast e.

(** The simulation loop has been stopped. *)
Definition halted {num} (w : World num) : Prop :=
  Game.isRunning (game w) = false.

(** Two outcomes with the same effects and the same final world. *)
Definition sameAs {num X Y} (o : Outcome num X) (o' : Outcome num Y) : Prop :=
  trace o = trace o' /\ world o = world o'.

(** Every effect of [m] satisfies [P]; [m] keeps the invariant [I]. *)
Definition emits_only {num X} (P : Effect num -> Prop) (m : JS num X) : Prop :=
  forall w, Forall P (trace (m w)).
Definition preserves {num X} (I : World num -> Prop) (m : JS num X) : Prop :=
  forall w, I w -> I (world (m w)).

(** *** Throttled broadcasts *)

(** One call of [sendGameState]: the clock, the state to send, and what
    the connection is like at that moment. *)
Record Attempt (num : Type) := mkAttempt {
  at_now : Z;
  at_state : State.t num;
  at_connection : option Connection;
  at_isConnected : bool
}.
Arguments mkAttempt {num}. Arguments at_now {num}. Arguments at_state {num}.
Arguments at_connection {num}. Arguments at_isConnected {num}.

Definition onWire {num} (out : list (Effect num)) : bool :=
  existsb (fun e => match e with connection_send _ => true | _ => false end) out.

(** The times at which a run of attempts puts a message on the wire. *)
Fixpoint broadcasts {num} `{Arith num} (attempts : list (Attempt num))
    (w : World num) : list Z :=
  match attempts with
  | [] => []
  | a :: rest =>
      let w := mkWorld (game w)
                 (Network.set_isConnected (at_isConnected a)
                    (Network.set_connection (at_connection a) (net w))) in
      let o := sendGameState (at_now a) (at_state a) w in
      (if onWire (trace o) then [at_now a] else []) ++ broadcasts rest (world o)
  end.

(** Attempts at [t0], [t0 + step], [t0 + 2 step], ... *)
Fixpoint cadence {num} (t0 step : Z)
    (xs : list (State.t num * option Connection * bool)) : list (Attempt num) :=
  match xs with
  | [] => []
  | (st, c, b) :: xs => mkAttempt t0 st c b :: cadence (t0 + step) step xs
  end.

(** Each element is at least [d] after the one before, the first one at
    least [d] after [lo]. *)
Fixpoint gapped (d lo : Z) (l : list Z) : Prop :=
  match l with
  | [] => True
  | e :: l => (lo + d <= e)%Z /\ gapped d e l
  end.

(** *** Worlds to try the code on *)

Module Examples.
Local Open Scope float_scope.

Definition body (x y vx vy radius : float) : Body.t float :=
  Body.mk x y vx vy radius None None.

(** A running match in a 375 x 667 arena: radii 30 and 18.75, walls 7.5,
    goal 150, paddles at their starting places. *)
Definition arena (puck : Body.t float) (isHost : bool) (score : Score.t)
  : Game.t float :=
  Game.mk 375 667 (Some puck)
          (Some (body 187.5 609.5 0 0 30)) (Some (body 187.5 57.5 0 0 30))
          true isHost score 30 18.75 150 7.5 [] 0 None.

Definition online (isHost : bool) (lastStateSend : Z) : Network.t :=
  Network.mk (Some "airhockey-4821"%string) (Some {| sendThrows := false |})
             true isHost (Some "4821"%string) lastStateSend.

Definition centre : Body.t float := body 187.5 333.5 0 0 18.75.

(** A puck that moves at 28.28... per frame, above the cap of 25. *)
Definition fast : Body.t float := body 187.5 333.5 20 20 18.75.

(** A puck that overlaps the player's paddle from above, coming down. *)
Definition incoming : Body.t float := body 187.5 570 0 6 18.75.

(** A broadcast of the host, and the first broadcast of a new match. *)
Definition broadcast : State.t float :=
  State.mk 100.1 200.7 3.3 (-4.1) (Score.mk 2 1).
Definition kickoff : State.t float :=
  State.mk 187.5 333.5 5.5 (-5.8) (Score.mk 0 0).

Definition guest (score : Score.t) : World float :=
  mkWorld (arena centre false score) (online false 0).
Definition host (puck : Body.t float) (score : Score.t) : World float :=
  mkWorld (arena puck true score) (online true 0).

(** The exact value of [vx^2 + vy^2]. *)
Definition exactSquaredSpeed (p : Body.t float) : option Q :=
  match Binary64.to_Q (Body.vx p), Binary64.to_Q (Body.vy p) with
  | Some a, Some b => Some (a * a + b * b)%Q
  | _, _ => None
  end.
End Examples.

Module RealExamples.
Local Open Scope R_scope.

Definition body (x y vx vy radius : R) : Body.t R :=
  Body.mk x y vx vy radius None None.

(** A running host in a 400 x 600 arena, as [resize] and [start] lay it
    out: radii 32 and 20, walls 8, goal 160. *)
Definition host (puck : Body.t R) (score : Score.t) : World R :=
  mkWorld
    (Game.mk 400 600 (Some puck)
             (Some (body 200 540 0 0 32)) (Some (body 200 60 0 0 32))
             true true score 32 20 160 8 [] 0 None)
    (Network.mk (Some "airhockey-4821"%string) (Some {| sendThrows := false |})
                true true (Some "4821"%string) 0).

(** One pixel beyond the left wall, at mid height, moving left. *)
Definition atLeftWall : Body.t R := body 27 300 (-3) 0 20.
(** In front of the opponent's goal, moving up. *)
Definition shot : Body.t R := body 200 30 0 (-8) 20.
(** Above the speed cap: speed 50. *)
Definition fast : Body.t R := body 200 300 30 40 20.
(** Overlapping the player's paddle from above. *)
Definition incoming : Body.t R := body 200 500 0 6 20.

Definition guest (puck : Body.t R) (score : Score.t) : World R :=
  mkWorld
    (Game.mk 400 600 (Some puck)
             (Some (body 200 540 0 0 32)) (Some (body 200 60 0 0 32))
             true false score 32 20 160 8 [] 0 None)
    (Network.mk None (Some {| sendThrows := false |})
                true false (Some "4821"%string) 0).
Definition broadcast : State.t R := State.mk 100.1 200.7 3.3 (-4.1) (Score.mk 2 1).
End RealExamples.

(* ================================================================= *)
(** ** The rest of [Game]: layout, start of a match, pointer input

    [resize], [resetPositions], [start] and the [handleMove] closure of
    [setupInput] assign properties of [Game] that the physics core only
    reads; [handleMove] also needs [Math.max]. *)

(** [Math.max(a, b)]. *)
Class ArithMax (num : Type) := { nmax : num -> num -> num }.

#[global] Instance Real_max : ArithMax R := {| nmax := Rmax |}.

(** [Math.max] on binary64: NaN if an argument is NaN, and [+0] above
    [-0]. *)
Definition Binary64_max (a b : float) : float :=
  if PrimFloat.is_nan a || PrimFloat.is_nan b then PrimFloat.nan
  else if PrimFloat.ltb a b then b
  else if PrimFloat.ltb b a then a
  else if PrimFloat.get_sign a then b else a.

#[global] Instance Binary64_arith_max : ArithMax float := {| nmax := Binary64_max |}.

(** Assignments to the properties of [Game] that only layout, start and
    input write. *)
Module Assign.
Definition width {num} (v : num) (g : Game.t num) : Game.t num :=
  Game.mk v (Game.height g) (Game.puck g) (Game.playerPaddle g)
    (Game.opponentPaddle g) (Game.isRunning g) (Game.isHost g) (Game.score g)
    (Game.paddleRadius g) (Game.puckRadius g) (Game.goalWidth g)
    (Game.wallThickness g) (Game.puckTrail g) (Game.lastTime g)
    (Game.animationId g).
Definition height {num} (v : num) (g : Game.t num) : Game.t num :=
  Game.mk (Game.width g) v (Game.puck g) (Game.playerPaddle g)
    (Game.opponentPaddle g) (Game.isRunning g) (Game.isHost g) (Game.score g)
    (Game.paddleRadius g) (Game.puckRadius g) (Game.goalWidth g)
    (Game.wallThickness g) (Game.puckTrail g) (Game.lastTime g)
    (Game.animationId g).
Definition playerPaddle {num} (v : option (Body.t num)) (g : Game.t num)
  : Game.t num :=
  Game.mk (Game.width g) (Game.height g) (Game.puck g) v
    (Game.opponentPaddle g) (Game.isRunning g) (Game.isHost g) (Game.score g)
    (Game.paddleRadius g) (Game.puckRadius g) (Game.goalWidth g)
    (Game.wallThickness g) (Game.puckTrail g) (Game.lastTime g)
    (Game.animationId g).
Definition isHost {num} (v : bool) (g : Game.t num) : Game.t num :=
  Game.mk (Game.width g) (Game.height g) (Game.puck g) (Game.playerPaddle g)
    (Game.opponentPaddle g) (Game.isRunning g) v (Game.score g)
    (Game.paddleRadius g) (Game.puckRadius g) (Game.goalWidth g)
    (Game.wallThickness g) (Game.puckTrail g) (Game.lastTime g)
    (Game.animationId g).
Definition paddleRadius {num} (v : num) (g : Game.t num) : Game.t num :=
  Game.mk (Game.width g) (Game.height g) (Game.puck g) (Game.playerPaddle g)
    (Game.opponentPaddle g) (Game.isRunning g) (Game.isHost g) (Game.score g)
    v (Game.puckRadius g) (Game.goalWidth g)
    (Game.wallThickness g) (Game.puckTrail g) (Game.lastTime g)
    (Game.animationId g).
Definition puckRadius {num} (v : num) (g : Game.t num) : Game.t num :=
  Game.mk (Game.width g) (Game.height g) (Game.puck g) (Game.playerPaddle g)
    (Game.opponentPaddle g) (Game.isRunning g) (Game.isHost g) (Game.score g)
    (Game.paddleRadius g) v (Game.goalWidth g)
    (Game.wallThickness g) (Game.puckTrail g) (Game.lastTime g)
    (Game.animationId g).
Definition goalWidth {num} (v : num) (g : Game.t num) : Game.t num :=
  Game.mk (Game.width g) (Game.height g) (Game.puck g) (Game.playerPaddle g)
    (Game.opponentPaddle g) (Game.isRunning g) (Game.isHost g) (Game.score g)
    (Game.paddleRadius g) (Game.puckRadius g) v
    (Game.wallThickness g) (Game.puckTrail g) (Game.lastTime g)
    (Game.animationId g).
Definition wallThickness {num} (v : num) (g : Game.t num) : Game.t num :=
  Game.mk (Game.width g) (Game.height g) (Game.puck g) (Game.playerPaddle g)
    (Game.opponentPaddle g) (Game.isRunning g) (Game.isHost g) (Game.score g)
    (Game.paddleRadius g) (Game.puckRadius g) (Game.goalWidth g)
    v (Game.puckTrail g) (Game.lastTime g)
    (Game.animationId g).
End Assign.

(** What [resize] writes to the canvas: the size of the backing store and
    the scale of the drawing context. *)
Record Canvas (num : Type) := mkCanvas {
  canvas_width : num; canvas_height : num; scale_x : num; scale_y : num
}.
Arguments mkCanvas {num}. Arguments canvas_width {num}.
Arguments canvas_height {num}. Arguments scale_x {num}. Arguments scale_y {num}.

Section Layout.
Context {num : Type} {A : Arith num} {X : ArithMax num} {M : MathFns num}.
Local Open Scope num_scope.

(** [Game.resetPositions] (game.js 400-413). *)
Definition resetPositions : JS num unit :=
  g <- getGame ;;
  match Game.puck g with
  | Some puck =>
      modifyGame (Game.set_puck
        (Some (Body.set_y (Game.height g / lit 2)
                 (Body.set_x (Game.width g / lit 2) puck))))
  | None => ret tt
  end ;;
  match Game.playerPaddle g with
  | Some paddle =>
      modifyGame (Assign.playerPaddle
        (Some (Body.set_y (Game.height g - Game.paddleRadius g
                           - Game.wallThickness g - lit 20)
                 (Body.set_x (Game.width g / lit 2) paddle))))
  | None => ret tt
  end ;;
  match Game.opponentPaddle g with
  | Some paddle =>
      modifyGame (Game.set_opponentPaddle
        (Some (Body.set_y (Game.paddleRadius g + Game.wallThickness g + lit 20)
                 (Body.set_x (Game.width g / lit 2) paddle))))
  | None => ret tt
  end.

(** [Game.resize] (game.js 71-94).  [devicePixelRatio] is
    [window.devicePixelRatio]; [rectWidth] and [rectHeight] are the size
    that [canvas.getBoundingClientRect()] reports. *)
Definition resize (devicePixelRatio : option num) (rectWidth rectHeight : num)
  : JS num (Canvas num) :=
  let dpr := orElse devicePixelRatio (lit 1) in
  modifyGame (Assign.width rectWidth) ;;
  modifyGame (Assign.height rectHeight) ;;
  (* Calculate sizes based on screen *)
  g <- getGame ;;
  let minDim := nmin (Game.width g) (Game.height g) in
  modifyGame (Assign.paddleRadius (minDim * lit 0.08)) ;;
  modifyGame (Assign.puckRadius (minDim * lit 0.05)) ;;
  modifyGame (Assign.goalWidth (Game.width g * lit 0.4)) ;;
  modifyGame (Assign.wallThickness (minDim * lit 0.02)) ;;
  (* Reset positions if game objects exist *)
  g <- getGame ;;
  match Game.puck g with
  | Some _ => resetPositions
  | None => ret tt
  end ;;
  ret (mkCanvas (rectWidth * dpr) (rectHeight * dpr) dpr dpr).

(** [Game.start] (game.js 152-190): the state of a new match.  [rnd1],
    [rnd2], [rnd3] are the three values of [Math.random()], in the order
    of the calls; a guest makes none of them. *)
Definition newMatch (isHost : bool) (rnd1 rnd2 rnd3 : num) : JS num unit :=
  modifyGame (Assign.isHost isHost) ;;
  modifyGame (Game.set_score (Score.mk 0 0)) ;;
  modifyGame (Game.set_isRunning true) ;;
  (* Initialize game objects *)
  g <- getGame ;;
  modifyGame (Game.set_puck
    (Some (Body.mk (Game.width g / lit 2) (Game.height g / lit 2)
                   (lit 0) (lit 0) (Game.puckRadius g) None None))) ;;
  modifyGame (Assign.playerPaddle
    (Some (Body.mk (Game.width g / lit 2)
                   (Game.height g - Game.paddleRadius g - Game.wallThickness g
                    - lit 20)
                   (lit 0) (lit 0) (Game.paddleRadius g) None None))) ;;
  modifyGame (Game.set_opponentPaddle
    (Some (Body.mk (Game.width g / lit 2)
                   (Game.paddleRadius g + Game.wallThickness g + lit 20)
                   (lit 0) (lit 0) (Game.paddleRadius g) None None))) ;;
  modifyGame (Game.set_puckTrail []) ;;
  (* Give puck initial velocity toward a random player *)
  g <- getGame ;;
  when (Game.isHost g)
    (let angle := (if rnd1 >? lit 0.5 then lit 1 else - lit 1)
                  * (Math_PI / lit 4 + rnd2 * Math_PI / lit 4) in
     let speed := lit 8 in
     modifyPuck (Body.set_vx (Math_sin angle * speed)) ;;
     modifyPuck (Body.set_vy (Math_cos angle * speed
                              * (if rnd3 >? lit 0.5 then lit 1 else - lit 1)))).

(** [Game.start] (game.js 152-198).  [t1] and [t2] are the two values of
    [performance.now()]: the one stored in [lastTime] and the default
    argument of [gameLoop]. *)
Definition start (isHost : bool) (rnd1 rnd2 rnd3 t1 t2 : num) (now id : Z)
  : JS num unit :=
  newMatch isHost rnd1 rnd2 rnd3 ;;
  (* Update UI *)
  g <- getGame ;;
  emit (UI_updateScore (Score.player (Game.score g))
                       (Score.opponent (Game.score g))) ;;
  (* Start game loop *)
  modifyGame (Game.set_lastTime t1) ;;
  gameLoop t2 now id.

(** The bounds that [handleMove] keeps the player's paddle in. *)
Definition paddleMinX (g : Game.t num) : num :=
  Game.paddleRadius g + Game.wallThickness g.
Definition paddleMaxX (g : Game.t num) : num :=
  Game.width g - Game.paddleRadius g - Game.wallThickness g.
Definition paddleMinY (g : Game.t num) : num :=
  Game.height g / lit 2 + Game.paddleRadius g + lit 10.
Definition paddleMaxY (g : Game.t num) : num :=
  Game.height g - Game.paddleRadius g - Game.wallThickness g.

(** The closure [handleMove] of [Game.setupInput] (game.js 102-128), which
    the [mousemove], [touchmove] and [touchstart] listeners call.
    [rectLeft] and [rectTop] are the corner that
    [canvas.getBoundingClientRect()] reports. *)
Definition handleMove (clientX clientY rectLeft rectTop : num) : JS num unit :=
  g <- getGame ;;
  if negb (Game.isRunning g) then ret tt else
  match Game.playerPaddle g with
  | None => ret tt
  | Some paddle =>
      let x := clientX - rectLeft in
      let y := clientY - rectTop in
      (* Calculate velocity for paddle (used in physics) *)
      let paddle := Body.set_vx ((x - Body.x paddle) * lit 0.3) paddle in
      let paddle := Body.set_vy ((y - Body.y paddle) * lit 0.3) paddle in
      (* Constrain to player's half (bottom half) *)
      let paddle :=
        Body.set_x (nmax (paddleMinX g) (nmin (paddleMaxX g) x)) paddle in
      let paddle :=
        Body.set_y (nmax (paddleMinY g) (nmin (paddleMaxY g) y)) paddle in
      modifyGame (Assign.playerPaddle (Some paddle)) ;;
      (* Send position to opponent *)
      n <- getNet ;;
      when (Network.isConnected n)
           (sendPaddlePosition (Body.x paddle) (Body.y paddle))
  end.

(** Everything the browser delivers to a peer: the callbacks of a match,
    the pointer, a resize of the window, and the animation frame that
    [UI.startGame] requests ([Game.resize(); Game.start(isHost)],
    ui.js 214-221). *)
Inductive Event :=
| during_match (c : @Callback num)
| pointer (clientX clientY rectLeft rectTop : num)
| window_resize (devicePixelRatio : option num) (rectWidth rectHeight : num)
| startGame_frame (isHost : bool) (devicePixelRatio : option num)
    (rectWidth rectHeight : num) (rnd1 rnd2 rnd3 t1 t2 : num) (now id : Z).

Definition deliver (e : Event) : JS num unit :=
  match e with
  | during_match c => dispatch c
  | pointer clientX clientY rectLeft rectTop =>
      handleMove clientX clientY rectLeft rectTop
  | window_resize dpr rectWidth rectHeight =>
      resize dpr rectWidth rectHeight ;; ret tt
  | startGame_frame isHost dpr rectWidth rectHeight rnd1 rnd2 rnd3 t1 t2 now id =>
      resize dpr rectWidth rectHeight ;;
      start isHost rnd1 rnd2 rnd3 t1 t2 now id
  end.

(** One event after the other; an exception ends its own callback only. *)
Fixpoint deliverAll (es : list Event) (w : World num)
  : World num * list (Effect num) :=
  match es with
  | [] => (w, [])
  | e :: es =>
      let o := deliver e w in
      let '(w', out) := deliverAll es (world o) in
      (w', trace o ++ out)
  end.

End Layout.


(* ================================================================= *)
(** ** The rest of [Network]: leaving, joining *)

(** What [disconnect] does to the PeerJS objects. *)
Inductive Teardown := connection_close | peer_destroyed.

(** [Network.disconnect] (network.js 271-285). *)
Definition disconnect (n : Network.t) : Network.t * list Teardown :=
  let n := Network.set_isConnected false n in
  let '(n, out1) :=
    match Network.connection n with
    | Some _ => (Network.set_connection None n, [connection_close])
    | None => (n, [])
    end in
  let '(n, out2) :=
    match Network.peer n with
    | Some _ => (Network.set_peer None n, [peer_destroyed])
    | None => (n, [])
    end in
  (Network.set_roomCode None n, out1 ++ out2).

(** [Network.setupConnection] (network.js 132-165), on the [Network] of
    a peer that is in no call of [createGame]. *)
Definition setupConnectionOf (onConnected_is_set : bool) (n : Network.t)
  : Network.t * list SessionEffect :=
  let '(s, out) := setupConnection (mkSession n [] onConnected_is_set) in
  (network s, out).

(** [Network.joinGame] (network.js 84-127).  The promise is settled by
    five callbacks: the peer's ['open'] and ['error'], the connection's
    ['open'] and ['error'] (registered by the peer's ['open'] handler, on
    the connection that [peer.connect] returns), and a 10 s timer. *)
Module Join.
Inductive reason :=
| Could_not_connect_to_room            (* new Error('Could not connect to room') *)
| PeerError (type : string)            (* the [err] of the peer's 'error' event *)
| ConnectionError (type : string).     (* the [err] of the connection's 'error' event *)

Inductive state :=
| pending
| fulfilled                            (* resolve() *)
| rejected (r : reason).

Inductive effect :=
| new_Peer_without_id                  (* new Peer(undefined, {debug: 1}) *)
| peer_connect (hostId : string)       (* this.peer.connect(hostId, {reliable: true}) *)
| setTimeout_10000
| setup (e : SessionEffect).           (* what [setupConnection] does *)

Inductive event :=
| peer_open (conn : Connection)        (* [conn]: what [peer.connect] returns *)
| connection_open
| connection_error (type : string)
| peer_error (type : string)
| timeout_10000.

(** The guest's [Network], the promise of the call, the [roomCode]
    argument that the closures hold, and whether the handlers of the
    connection are registered yet. *)
Record session := mk {
  network : Network.t;
  promise : state;
  roomCode : string;
  dialled : bool;
  onConnected_is_set : bool            (* [Network.onConnected] holds a function *)
}.

(** [resolve] and [reject]: nothing on a settled promise. *)
Definition settle (st : state) (s : session) : session :=
  match promise s with
  | pending => mk (network s) st (roomCode s) (dialled s) (onConnected_is_set s)
  | _ => s
  end.

(** The body of the promise executor.  The peer has no id of its own (the
    broker assigns one); [Network.peer] holds the empty id for it. *)
Definition joinGame (code : string) (onConnected_is_set : bool) (n : Network.t)
  : session * list effect :=
  let n := Network.set_roomCode (Some code) n in
  let n := Network.set_isHost false n in
  (* Create peer with random ID *)
  let n := Network.set_peer (Some EmptyString) n in
  (mk n pending code false onConnected_is_set,
   [new_Peer_without_id; setTimeout_10000]).

Definition handle (e : event) (s : session) : session * list effect :=
  match e with
  | peer_open conn =>
      (* Connect to host *)
      let hostId := ("airhockey-" ++ roomCode s)%string in
      (mk (Network.set_connection (Some conn) (network s)) (promise s)
          (roomCode s) true (onConnected_is_set s),
       [peer_connect hostId])
  | connection_open =>
      if dialled s then
        let '(n, out) := setupConnectionOf (onConnected_is_set s) (network s) in
        (settle fulfilled
           (mk n (promise s) (roomCode s) (dialled s) (onConnected_is_set s)),
         map setup out)
      else (s, [])
  | connection_error type =>
      if dialled s then (settle (rejected (ConnectionError type)) s, [])
      else (s, [])
  | peer_error type => (settle (rejected (PeerError type)) s, [])
  | timeout_10000 =>
      (* Timeout after 10 seconds *)
      if negb (Network.isConnected (network s)) then
        (settle (rejected Could_not_connect_to_room) s, [])
      else (s, [])
  end.

Fixpoint handleAll (es : list event) (s : session) : session * list effect :=
  match es with
  | [] => (s, [])
  | e :: es =>
      let '(s1, out1) := handle e s in
      let '(s2, out2) := handleAll es s1 in
      (s2, out1 ++ out2)
  end.
End Join.


(* ================================================================= *)
(** ** The join form of [UI] (ui.js)

    A room code travels from [Network.generateRoomCode] through the
    screen of the host and the code input of the guest to
    [Network.joinGame].  Strings are sequences of 8-bit characters here. *)

Definition isDigit (c : Ascii.ascii) : bool :=
  (48 <=? Ascii.nat_of_ascii c)%nat && (Ascii.nat_of_ascii c <=? 57)%nat.

(** [value.replace(/[^0-9]/g, '')]. *)
Fixpoint digitsOnly (s : string) : string :=
  match s with
  | EmptyString => EmptyString
  | String c s => if isDigit c then String c (digitsOnly s) else digitsOnly s
  end.

(** The ['input'] listener of the code input (ui.js 89-94): the new value
    of the input, and whether [joinGame] is called ("auto-submit on 4
    digits"). *)
Definition codeInput_onInput (value : string) : string * bool :=
  let value := String.substring 0 4 (digitsOnly value) in
  (value, (String.length value =? 4)%nat).

(** The head of [UI.joinGame] (ui.js 181-194): what is done with the value
    of the code input. *)
Inductive JoinAttempt :=
| showJoinError (message : string)
| Network_joinGame (roomCode : string).

Definition UI_joinGame (code : string) : JoinAttempt :=
  if negb (String.length code =? 4)%nat then showJoinError "Enter a 4-digit code"
  else Network_joinGame code.

(** The peer id that a host of [code] listens on ([createGame]) and the
    one that a guest who joins [code] dials ([joinGame]). *)
Definition peerIdOf (s : Session) : option string := Network.peer (network s).
Definition dialledIn (out : list Join.effect) : list string :=
  flat_map (fun e => match e with Join.peer_connect h => [h] | _ => [] end) out.


(* ================================================================= *)
(** ** More vocabulary *)

(** What holds of a guest from the call of [joinGame code] on: it is no
    host, it keeps the code, and its promise is fulfilled only with the
    session connected and the host dialled. *)
Definition joining (code : string) (s : Join.session) : Prop :=
  Network.isHost (Join.network s) = false
  /\ Network.roomCode (Join.network s) = Some code
  /\ Join.roomCode s = code
  /\ (Join.promise s = Join.fulfilled ->
      Network.isConnected (Join.network s) = true /\ Join.dialled s = true).

(** A world with another player's paddle. *)
Definition setPlayerPaddle {num} (p : Body.t num) (w : World num) : World num :=
  mkWorld (Assign.playerPaddle (Some p) (game w)) (net w).

(** The trail is within its cap. *)
Definition trailBounded {num} (w : World num) : Prop :=
  (List.length (Game.puckTrail (game w)) <= maxTrailLength)%nat.

(** The messages that a run puts on the wire, in order. *)
Definition sent {num} (out : list (Effect num)) : list (Message.t num) :=
  flat_map (fun e => match e with connection_send m => [m] | _ => [] end) out.

(** [n] animation frames at the times [ts], with any clock and handle. *)
Definition frames {num} (ts : list (num * Z * Z)) : list (@Callback num) :=
  map (fun '(t, now, id) => Frame t now id) ts.

(** What a guest is delivered in a match: frames, messages, the pointer,
    a resize; no timer of [goalScored] (a guest arms none) and no new
    start. *)
Definition guestEvent {num} (e : @Event num) : bool :=
  match e with
  | during_match (Frame _ _ _) => true
  | during_match (Data _) => true
  | during_match (Timeout _ _ _) => false
  | pointer _ _ _ _ => true
  | window_resize _ _ _ => true
  | startGame_frame _ _ _ _ _ _ _ _ _ _ _ => false
  end.

(** The velocity of [p] along the unit vector [(nx, ny)], and across it. *)
Definition along (nx ny : R) (p : Body.t R) : R :=
  (Body.vx p * nx + Body.vy p * ny)%R.
Definition across (nx ny : R) (p : Body.t R) : R :=
  (Body.vy p * nx - Body.vx p * ny)%R.

(** The puck is beyond the top wall, inside the goal mouth and between
    the side walls, and moves straight on: where a goal of the player
    with a straight shot leaves it. *)
Definition inTopGoal (g : Game.t R) (p : Body.t R) : Prop :=
  (Body.y p < wallTop g p
   /\ goalLeft g < Body.x p < goalRight g
   /\ wallLeft g p <= Body.x p <= wallRight g p
   /\ Body.vx p = 0 /\ Body.vy p <= 0)%R.

(** Frame times that do not go back: each at least the one before, the
    first at least [last]. *)
Fixpoint ascending (last : R) (ts : list (R * Z * Z)) : Prop :=
  match ts with
  | [] => True
  | (t, _, _) :: ts => (last <= t)%R /\ ascending t ts
  end.

(** The number of goals that a run announces with the goal sound. *)
Definition goals {num} (out : list (Effect num)) : nat :=
  List.length
    (filter (fun e => match e with Audio_play Sound.goal => true | _ => false end)
            out).

(** *** More worlds to try the code on *)

Module MoreExamples.
Local Open Scope R_scope.

(** Beyond the top wall of the 400 x 600 arena, in the goal, moving up. *)
Definition inTheGoal : Body.t R := RealExamples.body 200 20 0 (-8) 20.

(** Eleven frames, one time unit apart. *)
Definition elevenFrames : list (R * Z * Z) :=
  [(1, 0%Z, 1%Z); (2, 0%Z, 2%Z); (3, 0%Z, 3%Z); (4, 0%Z, 4%Z); (5, 0%Z, 5%Z);
   (6, 0%Z, 6%Z); (7, 0%Z, 7%Z); (8, 0%Z, 8%Z); (9, 0%Z, 9%Z); (10, 0%Z, 10%Z);
   (11, 0%Z, 11%Z)].
End MoreExamples.

(** Neither a state broadcast nor a timer: what only the simulation of a
    host produces. *)
Definition noSimulation {num} (e : Effect num) : Prop :=
  ~ isBroadcast e /\ forall t ms, e <> setTimeout t ms.

(** The events of a guest other than a state message and a resize. *)
Definition besidesState {num} (e : @Event num) : bool :=
  match e with
  | during_match (Data (Message.gameState _)) => false
  | window_resize _ _ _ => false
  | _ => guestEvent e
  end.

(** The session is not connected ([Network.isConnected] is false). *)
Definition offline {num} (w : World num) : Prop :=
  Network.isConnected (net w) = false.

(** Not a use of the connection: neither a message put on the wire nor
    the error of a [connection.send] that threw. *)
Definition offWire {num} (e : Effect num) : Prop :=
  match e with connection_send _ | console_error => False | _ => True end.

(** Run offline, [m] stays offline and does not use the connection. *)
Definition staysOffline {num X} (m : JS num X) : Prop :=
  forall w, offline w -> offline (world (m w)) /\ Forall offWire (trace (m w)).

(** The role that the game plays in: host ([true]) or guest. *)
Definition inRole {num} (isHost : bool) (w : World num) : Prop :=
  Game.isHost (game w) = isHost.

(** The events that a stopped game looks at [isRunning] for: animation
    frames, the timers of [goalScored], pointer events. *)
Definition guardedByIsRunning {num} (e : @Event num) : bool :=
  match e with
  | during_match (Frame _ _ _) => true
  | during_match (Timeout _ _ _) => true
  | pointer _ _ _ _ => true
  | _ => false
  end.

(** The peer plays as a guest; the peer holds this puck and this score. *)
Definition asGuest {num} (w : World num) : Prop := Game.isHost (game w) = false.
Definition holds {num} (puck : option (Body.t num)) (score : Score.t)
    (w : World num) : Prop :=
  Game.puck (game w) = puck /\ Game.score (game w) = score.


(* ================================================================= *)
(** ** Proof tools *)

(** Symbolic execution: unfold the monad, the methods and the record
    accessors, and nothing of the arithmetic. *)
Ltac exec :=
  cbv beta iota zeta delta
    [bind ret throw emit getGame getNet modifyGame modifyNet deref thisPuck
     modifyPuck when world trace completed game net
     send sendPaddlePosition sendGameState gameOver stop goalScored snapshot
     resetPuck fire checkPaddleCollision addToTrail updatePuckPosition
     applyFriction clampSpeed leftRightWalls topWall bottomWall
     paddleCollisions sendPuckState flight finishTick updatePhysics gameLoop
     orElse updateOpponentPaddle updateFromHost handleMessage dispatch
     setPuck setOpponentPaddle
     Game.width Game.height Game.puck Game.playerPaddle Game.opponentPaddle
     Game.isRunning Game.isHost Game.score Game.paddleRadius Game.puckRadius
     Game.goalWidth Game.wallThickness Game.puckTrail Game.lastTime
     Game.animationId
     Game.set_puck Game.set_opponentPaddle Game.set_isRunning Game.set_score
     Game.set_puckTrail Game.set_lastTime Game.set_animationId
     Network.peer Network.connection Network.isConnected Network.isHost
     Network.roomCode Network.lastStateSend
     Network.set_lastStateSend Network.set_isConnected Network.set_connection
     Network.set_peer Network.set_isHost Network.set_roomCode
     app];
  cbn [Body.x Body.y Body.vx Body.vy Body.radius Body.lastX Body.lastY
       Body.set_x Body.set_y Body.set_vx Body.set_vy Body.set_lastX
       Body.set_lastY State.x State.y State.vx State.vy State.score
       Score.player Score.opponent].

Ltac branch :=
  match goal with
  | |- context [if ?c then _ else _] => destruct c eqn:?; exec
  | |- context [match ?c with Some _ => _ | None => _ end] => destruct c eqn:?; exec
  end.

(** Name the fields of a world and use what is known of them. *)
Ltac open_world w :=
  let g := fresh "g" in
  let n := fresh "n" in
  destruct w as [g n]; destruct g;
  cbn [game net Game.width Game.height Game.puck Game.playerPaddle
       Game.opponentPaddle Game.isRunning Game.isHost Game.score
       Game.paddleRadius Game.puckRadius Game.goalWidth Game.wallThickness
       Game.puckTrail Game.lastTime Game.animationId] in *;
  subst.

Section Framework.
Context {num : Type}.
Implicit Types (P : Effect num -> Prop) (I : World num -> Prop).

Lemma bind_Done {X Y} (m : JS num X) (k : X -> JS num Y) w a w1 o1 :
  m w = Done a w1 o1 ->
  bind m k w = match k a w1 with
               | Done b w2 o2 => Done b w2 (o1 ++ o2)
               | Threw w2 o2 => Threw w2 (o1 ++ o2)
               end.
Proof. intros H. unfold bind. now rewrite H. Qed.

Lemma run_seq {X Y} (m : JS num X) (k : X -> JS num Y) w a w1 o1 b w2 o2 :
  m w = Done a w1 o1 -> k a w1 = Done b w2 o2 ->
  bind m k w = Done b w2 (o1 ++ o2).
Proof. intros H1 H2. unfold bind. now rewrite H1, H2. Qed.

Lemma trace_bind {X Y} (m : JS num X) (k : X -> JS num Y) w :
  trace (bind m k w) =
  trace (m w) ++ match m w with Done a w1 _ => trace (k a w1) | Threw _ _ => [] end.
Proof.
  unfold bind. destruct (m w) as [a w1 o1|w1 o1]; cbn.
  - destruct (k a w1); reflexivity.
  - now rewrite app_nil_r.
Qed.

Lemma world_bind {X Y} (m : JS num X) (k : X -> JS num Y) w :
  world (bind m k w) =
  match m w with Done a w1 _ => world (k a w1) | Threw w1 _ => w1 end.
Proof.
  unfold bind. destruct (m w) as [a w1 o1|w1 o1]; cbn; [|reflexivity].
  destruct (k a w1); reflexivity.
Qed.

Lemma setPuck_setPuck (p p' : Body.t num) (w : World num) :
  setPuck p' (setPuck p w) = setPuck p' w.
Proof. destruct w as [[] ?]. reflexivity. Qed.

(** *** The effects of a composed callback *)

Lemma emits_only_bind {X Y} P (m : JS num X) (k : X -> JS num Y) :
  emits_only P m -> (forall a, emits_only P (k a)) -> emits_only P (bind m k).
Proof.
  intros Hm Hk w. rewrite trace_bind. apply Forall_app. split; [apply Hm|].
  destruct (m w); [apply Hk|constructor].
Qed.
Lemma emits_only_ret {X} P (a : X) : emits_only P (ret a).
Proof. intros w. constructor. Qed.
Lemma emits_only_throw {X} P : emits_only P (@throw num X).
Proof. intros w. constructor. Qed.
Lemma emits_only_emit P e : P e -> emits_only P (emit e).
Proof. intros H w. cbn. auto. Qed.
Lemma emits_only_getGame P : emits_only P (@getGame num).
Proof. intros w. constructor. Qed.
Lemma emits_only_getNet P : emits_only P (@getNet num).
Proof. intros w. constructor. Qed.
Lemma emits_only_modifyGame P f : emits_only P (@modifyGame num f).
Proof. intros w. constructor. Qed.
Lemma emits_only_modifyNet P f : emits_only P (@modifyNet num f).
Proof. intros w. constructor. Qed.
Lemma emits_only_deref {X} P (o : option X) : emits_only P (@deref num X o).
Proof. intros w. destruct o; constructor. Qed.
Lemma emits_only_thisPuck P : emits_only P (@thisPuck num).
Proof.
  apply emits_only_bind; [apply emits_only_getGame|intros; apply emits_only_deref].
Qed.
Lemma emits_only_modifyPuck P f : emits_only P (@modifyPuck num f).
Proof.
  apply emits_only_bind; [apply emits_only_thisPuck|intros; apply emits_only_modifyGame].
Qed.
Lemma emits_only_when P c m : emits_only P m -> emits_only P (@when num c m).
Proof. intros H. destruct c; [exact H|apply emits_only_ret]. Qed.

Lemma emits_only_In {X} P (m : JS num X) w e :
  emits_only P m -> In e (trace (m w)) -> P e.
Proof. intros H Hin. specialize (H w). rewrite Forall_forall in H. now apply H. Qed.

(** *** The invariants of a composed callback *)

Lemma preserves_bind {X Y} I (m : JS num X) (k : X -> JS num Y) :
  preserves I m -> (forall a, preserves I (k a)) -> preserves I (bind m k).
Proof.
  intros Hm Hk w Hw. rewrite world_bind. specialize (Hm w Hw).
  destruct (m w); cbn in Hm; [now apply Hk|exact Hm].
Qed.
Lemma preserves_ret {X} I (a : X) : preserves I (ret a).
Proof. intros w H. exact H. Qed.
Lemma preserves_throw {X} I : preserves I (@throw num X).
Proof. intros w H. exact H. Qed.
Lemma preserves_emit I e : preserves I (emit e).
Proof. intros w H. exact H. Qed.
Lemma preserves_getGame I : preserves I (@getGame num).
Proof. intros w H. exact H. Qed.
Lemma preserves_getNet I : preserves I (@getNet num).
Proof. intros w H. exact H. Qed.
Lemma preserves_deref {X} I (o : option X) : preserves I (@deref num X o).
Proof. intros w H. destruct o; exact H. Qed.
Lemma preserves_thisPuck I : preserves I (@thisPuck num).
Proof.
  apply preserves_bind; [apply preserves_getGame|intros; apply preserves_deref].
Qed.
Lemma preserves_modifyGame I f :
  (forall w, I w -> I (mkWorld (f (game w)) (net w))) ->
  preserves I (@modifyGame num f).
Proof. intros H w Hw. apply H, Hw. Qed.
Lemma preserves_modifyNet I f :
  (forall w, I w -> I (mkWorld (game w) (f (net w)))) ->
  preserves I (@modifyNet num f).
Proof. intros H w Hw. apply H, Hw. Qed.
Lemma preserves_modifyPuck I f :
  (forall w p, I w -> I (mkWorld (Game.set_puck (Some p) (game w)) (net w))) ->
  preserves I (@modifyPuck num f).
Proof.
  intros H. apply preserves_bind; [apply preserves_thisPuck|].
  intros p. apply preserves_modifyGame. intros w Hw. now apply H.
Qed.
Lemma preserves_when I c m : preserves I m -> preserves I (@when num c m).
Proof. intros H. destruct c; [exact H|apply preserves_ret]. Qed.
End Framework.

Ltac emits_step :=
  first
    [ apply emits_only_bind; [|intros ?]
    | apply emits_only_ret | apply emits_only_throw
    | apply emits_only_getGame | apply emits_only_getNet
    | apply emits_only_modifyGame | apply emits_only_modifyNet
    | apply emits_only_deref | apply emits_only_thisPuck
    | apply emits_only_modifyPuck
    | apply emits_only_when
    | apply emits_only_emit
    | match goal with
      | |- emits_only _ (if ?c then _ else _) => destruct c
      | |- emits_only _ (match ?x with _ => _ end) => destruct x
      end ].
Ltac emits := repeat emits_step.

Ltac preserves_step :=
  first
    [ apply preserves_bind; [|intros ?]
    | apply preserves_ret | apply preserves_throw
    | apply preserves_getGame | apply preserves_getNet
    | apply preserves_deref | apply preserves_thisPuck
    | apply preserves_emit
    | apply preserves_when
    | apply preserves_modifyPuck; intros [[] ?] ?; cbn
    | apply preserves_modifyGame; intros [[] ?]; cbn
    | apply preserves_modifyNet; intros [[] ?]; cbn
    | match goal with
      | |- preserves _ (if ?c then _ else _) => destruct c
      | |- preserves _ (match ?x with _ => _ end) => destruct x
      end ].
Ltac preserving := repeat preserves_step.

(* ================================================================= *)
(** ** Facts about the two number systems *)

Section RealNumbers.
Local Open Scope R_scope.

Lemma nlt_true (a b : R) : nlt a b = true <-> a < b.
Proof. cbn. destruct (Rlt_dec a b); split; intros; try lra; congruence. Qed.
Lemma nlt_false (a b : R) : nlt a b = false <-> b <= a.
Proof. cbn. destruct (Rlt_dec a b); split; intros; try lra; congruence. Qed.
Lemma ngt_true (a b : R) : ngt a b = true <-> b < a.
Proof. cbn. destruct (Rlt_dec b a); split; intros; try lra; congruence. Qed.
Lemma ngt_false (a b : R) : ngt a b = false <-> a <= b.
Proof. cbn. destruct (Rlt_dec b a); split; intros; try lra; congruence. Qed.

(** The literals of the source, as real numbers. *)
Lemma Q2R_lits :
  Q2R 0 = 0 /\ Q2R 1 = 1 /\ Q2R 2 = 2 /\ Q2R 0.9 = 9/10 /\ Q2R 25 = 25
  /\ Q2R 0.5 = 1/2 /\ Q2R 1.1 = 11/10 /\ Q2R 0.3 = 3/10
  /\ Q2R 0.995 = 995/1000.
Proof. unfold Q2R; cbn; repeat split; lra. Qed.

(** [0.995 ^ dt] lies in (0, 1] for [dt >= 0]. *)
Lemma friction_factor (dt : R) : 0 <= dt -> 0 < Math_pow friction dt <= 1.
Proof.
  intros Hdt. cbn. destruct Q2R_lits as (_ & _ & _ & _ & _ & _ & _ & _ & ->).
  unfold Rpower. split; [apply exp_pos|].
  rewrite <- exp_0.
  assert (Hln : ln (995 / 1000) < 0).
  { rewrite <- ln_1. apply ln_increasing; lra. }
  destruct (Req_dec dt 0) as [->|Hne].
  - rewrite Rmult_0_l. lra.
  - left. apply exp_increasing. nra.
Qed.

Lemma friction_factor_0 : Math_pow friction 0 = 1.
Proof.
  cbn. destruct Q2R_lits as (_ & _ & _ & _ & _ & _ & _ & _ & ->).
  apply Rpower_O. lra.
Qed.

Lemma friction_factor_1 : Math_pow friction 1 = 995 / 1000.
Proof.
  cbn. destruct Q2R_lits as (_ & _ & _ & _ & _ & _ & _ & _ & ->).
  apply Rpower_1. lra.
Qed.

Lemma sqrt_sum_sq (a b : R) :
  R_sqrt.sqrt (a * a + b * b) * R_sqrt.sqrt (a * a + b * b) = a * a + b * b.
Proof. apply sqrt_sqrt. nra. Qed.

Lemma le_sqrt (a b : R) : 0 <= a -> a * a <= b -> a <= R_sqrt.sqrt b.
Proof.
  intros Ha Hab. rewrite <- (sqrt_square a Ha). now apply sqrt_le_1_alt.
Qed.

Lemma lt_sqrt (a b : R) : 0 <= a -> a * a < b -> a < R_sqrt.sqrt b.
Proof.
  intros Ha Hab. rewrite <- (sqrt_square a Ha). apply sqrt_lt_1_alt. nra.
Qed.

Lemma sqrt_le (a b : R) : 0 <= b -> a <= b * b -> R_sqrt.sqrt a <= b.
Proof.
  intros Hb Hab. rewrite <- (sqrt_square b Hb). now apply sqrt_le_1_alt.
Qed.

#[global] Instance Real_laws : ArithLaws R.
Proof.
  split; intros a; cbn; destruct (Rlt_dec a a); try reflexivity; lra.
Qed.
End RealNumbers.

Section Binary64Numbers.

Lemma SFltb_irrefl (s : spec_float) : SFltb s s = false.
Proof.
  unfold SFltb, SFcompare. destruct s as [[]|[]| |[] m e]; try reflexivity.
  - rewrite Z.compare_refl, Pos.compare_cont_refl. reflexivity.
  - rewrite Z.compare_refl, Pos.compare_cont_refl. reflexivity.
Qed.

Lemma ltb_irrefl (a : float) : PrimFloat.ltb a a = false.
Proof. rewrite ltb_spec. apply SFltb_irrefl. Qed.

#[global] Instance Binary64_laws : ArithLaws float.
Proof. split; intros a; cbn; apply ltb_irrefl. Qed.

(** Negation is an involution on every binary64 value. *)
Lemma opp_involutive (a : float) : PrimFloat.opp (PrimFloat.opp a) = a.
Proof.
  apply Prim2SF_inj. rewrite !opp_spec.
  destruct (Prim2SF a); cbn; rewrite ?negb_involutive; reflexivity.
Qed.

(** The literals of the source are the binary64 values that JavaScript
    reads them as. *)
Lemma binary64_lits :
  (lit 0.995 = 0.995 /\ lit 0.9 = 0.9 /\ lit 1.1 = 1.1 /\ lit 0.5 = 0.5
   /\ lit 0.3 = 0.3 /\ lit 25 = 25 /\ lit 16.67 = 16.67 /\ lit 2 = 2
   /\ lit 0 = 0 /\ lit 1 = 1)%float.
Proof. vm_compute. repeat split; reflexivity. Qed.
End Binary64Numbers.

(* ================================================================= *)
(** ** The blocks of a tick, one by one *)

Section Blocks.
Context {num : Type} {A : Arith num} {M : MathFns num}.
Local Open Scope num_scope.

(** *** What each block can emit *)

Lemma sendGameState_emits (now : Z) (st : State.t num) :
  emits_only (fun e => e = connection_send (Message.gameState st) \/ e = console_error)
             (sendGameState now st).
Proof. unfold sendGameState. emits; auto. Qed.

Lemma flight_emits (dt : num) : emits_only (eq (Audio_play Sound.wall)) (flight dt).
Proof.
  unfold flight, addToTrail, updatePuckPosition, applyFriction, clampSpeed,
    leftRightWalls.
  emits; reflexivity.
Qed.

Lemma checkPaddleCollision_emits (paddle : option (Body.t num)) :
  emits_only (eq (Audio_play Sound.hit)) (checkPaddleCollision paddle).
Proof. unfold checkPaddleCollision. emits; reflexivity. Qed.

Lemma goalScored_emits (s : Side) :
  emits_only quiet (goalScored s : JS num unit).
Proof.
  unfold goalScored. emits; split; cbn; try discriminate; auto;
    match goal with |- context [if ?b then _ else _] => destruct b end;
    discriminate.
Qed.

Lemma no_goal_after_walls (now : Z) (w : World num) :
  ~ In (Audio_play Sound.goal) (trace ((paddleCollisions ;; sendPuckState now) w)).
Proof.
  assert (H : emits_only (fun e : Effect num => e <> Audio_play Sound.goal)
                         (paddleCollisions ;; sendPuckState now)).
  { unfold paddleCollisions, sendPuckState. emits; try discriminate;
      intros; discriminate. }
  intros Hin. now apply (emits_only_In _ _ _ _ H Hin).
Qed.

(** *** What each block computes *)

Lemma addToTrail_run (w : World num) (p : Body.t num) :
  Game.puck (game w) = Some p ->
  exists tr,
    addToTrail w = Done tt (mkWorld (Game.set_puckTrail tr (game w)) (net w)) [].
Proof. intros Hp. open_world w. exec. branch; eexists; reflexivity. Qed.

Lemma updatePuckPosition_run (dt : num) (w : World num) (p : Body.t num) :
  Game.puck (game w) = Some p ->
  updatePuckPosition dt w =
  Done tt (setPuck (Body.set_y (Body.y p + Body.vy p * dt)
                      (Body.set_x (Body.x p + Body.vx p * dt) p)) w) [].
Proof. intros Hp. open_world w. reflexivity. Qed.

Lemma applyFriction_run (dt : num) (w : World num) (p : Body.t num) :
  Game.puck (game w) = Some p ->
  applyFriction dt w =
  Done tt (setPuck (Body.set_vy (Body.vy p * Math_pow friction dt)
                      (Body.set_vx (Body.vx p * Math_pow friction dt) p)) w) [].
Proof. intros Hp. open_world w. reflexivity. Qed.

Lemma clampSpeed_run (w : World num) (p : Body.t num) :
  Game.puck (game w) = Some p ->
  clampSpeed w =
  if speed p >? maxPuckSpeed then
    Done tt (setPuck (Body.set_vy (Body.vy p / speed p * maxPuckSpeed)
                        (Body.set_vx (Body.vx p / speed p * maxPuckSpeed) p)) w) []
  else Done tt w [].
Proof.
  intros Hp. open_world w. unfold speed. exec. destruct (_ >? _); reflexivity.
Qed.

Lemma leftRightWalls_run (w : World num) (p : Body.t num) :
  Game.puck (game w) = Some p ->
  leftRightWalls w =
  if Body.x p <? wallLeft (game w) p then
    Done tt (setPuck (Body.set_vx (- Body.vx p * lit 0.9)
                        (Body.set_x (wallLeft (game w) p) p)) w)
         [Audio_play Sound.wall]
  else if Body.x p >? wallRight (game w) p then
    Done tt (setPuck (Body.set_vx (- Body.vx p * lit 0.9)
                        (Body.set_x (wallRight (game w) p) p)) w)
         [Audio_play Sound.wall]
  else Done tt w [].
Proof.
  intros Hp. open_world w. exec.
  destruct (_ <? _); [reflexivity|]. destruct (_ >? _); reflexivity.
Qed.

Lemma topWall_cases (w : World num) (q : Body.t num) :
  Game.puck (game w) = Some q ->
  topWall w =
  if Body.y q <? wallTop (game w) q then
    if inGoalMouth (game w) q then (goalScored Player ;; ret true) w
    else Done false (setPuck (bounced (wallTop (game w) q) q) w)
              [Audio_play Sound.wall]
  else Done false w [].
Proof.
  intros Hq. open_world w. unfold topWall, inGoalMouth. cbn.
  destruct (_ <? _); [|reflexivity].
  destruct (_ && _); [|reflexivity].
  match goal with |- context [bind ?m ?k ?w] => destruct (bind m k w) end;
    reflexivity.
Qed.

Lemma bottomWall_cases (w : World num) (q : Body.t num) :
  Game.puck (game w) = Some q ->
  bottomWall w =
  if Body.y q >? wallBottom (game w) q then
    if inGoalMouth (game w) q then (goalScored Opponent ;; ret true) w
    else Done false (setPuck (bounced (wallBottom (game w) q) q) w)
              [Audio_play Sound.wall]
  else Done false w [].
Proof.
  intros Hq. open_world w. unfold bottomWall, inGoalMouth. cbn.
  destruct (_ >? _); [|reflexivity].
  destruct (_ && _); [|reflexivity].
  match goal with |- context [bind ?m ?k ?w] => destruct (bind m k w) end;
    reflexivity.
Qed.

Lemma checkPaddleCollision_miss (w : World num) (p paddle : Body.t num) :
  Game.puck (game w) = Some p ->
  (centreDistance p paddle <? Body.radius p + Body.radius paddle)
    && (centreDistance p paddle >? lit 0) = false ->
  checkPaddleCollision (Some paddle) w = Done tt w [].
Proof.
  intros Hp Hm. open_world w. unfold centreDistance in Hm. exec.
  rewrite Hm. reflexivity.
Qed.

Lemma checkPaddleCollision_hit (w : World num) (puck paddle : Body.t num) :
  Game.puck (game w) = Some puck ->
  let dx := Body.x puck - Body.x paddle in
  let dy := Body.y puck - Body.y paddle in
  let dist := nsqrt (dx * dx + dy * dy) in
  let minDist := Body.radius puck + Body.radius paddle in
  let nx := dx / dist in
  let ny := dy / dist in
  let overlap := minDist - dist in
  let relVelNormal :=
    (Body.vx puck - Body.vx paddle) * nx + (Body.vy puck - Body.vy paddle) * ny in
  (dist <? minDist) = true -> (dist >? lit 0) = true ->
  exists puck' out,
    checkPaddleCollision (Some paddle) w = Done tt (setPuck puck' w) out
    /\ Body.x puck' = Body.x puck + nx * overlap
    /\ Body.y puck' = Body.y puck + ny * overlap
    /\ ((relVelNormal <? lit 0) = true ->
        Body.vx puck' = Body.vx puck - (lit 1 + lit 1.1) * relVelNormal * nx
                        + Body.vx paddle * lit 0.5
        /\ Body.vy puck' = Body.vy puck - (lit 1 + lit 1.1) * relVelNormal * ny
                           + Body.vy paddle * lit 0.5
        /\ out = [Audio_play Sound.hit])
    /\ ((relVelNormal <? lit 0) = false ->
        Body.vx puck' = Body.vx puck /\ Body.vy puck' = Body.vy puck /\ out = []).
Proof.
  intros Hp dx dy dist minDist nx ny overlap rel H1 H2.
  open_world w. unfold checkPaddleCollision. cbn.
  fold dx dy dist minDist. rewrite H1, H2. cbn.
  fold nx ny overlap rel.
  destruct (rel <? lit 0) eqn:Hrel; cbn;
    (eexists _, _; split; [reflexivity|]; cbn; repeat split; intros; congruence).
Qed.

Lemma sendPuckState_run (now : Z) (w : World num) (p : Body.t num) :
  Game.puck (game w) = Some p ->
  exists n' out, sendPuckState now w = Done tt (mkWorld (game w) n') out.
Proof.
  intros Hp. destruct w as [[] n]. cbn in Hp. subst.
  destruct n as [? [[?]|] ? ? ? ?]; exec; repeat branch; eexists _, _; reflexivity.
Qed.

Lemma goalScored_done (s : Side) (w : World num) :
  exists w' out,
    goalScored s w = Done tt w' out
    /\ In (Audio_play Sound.goal) out
    /\ Game.puck (game w') = Game.puck (game w)
    /\ Game.score (game w') = Score.incr s (Game.score (game w)).
Proof.
  destruct w as [[] n]. exec. repeat branch;
    eexists _, _; (split; [reflexivity|]); cbn; auto.
Qed.

Lemma flight_done (dt : num) (w : World num) (p : Body.t num) :
  Game.puck (game w) = Some p ->
  exists q tr out,
    flight dt w =
    Done tt (mkWorld (Game.set_puckTrail tr (Game.set_puck (Some q) (game w)))
                     (net w)) out.
Proof.
  intros Hp. open_world w. exec. repeat branch; eexists _, _, _; reflexivity.
Qed.

Lemma flight_None (dt : num) (w : World num) :
  Game.puck (game w) = None -> flight dt w = Threw w [].
Proof. intros Hp. open_world w. reflexivity. Qed.

End Blocks.

(* ================================================================= *)
(** ** A whole tick *)

Section Tick.
Context {num : Type} {A : Arith num} {M : MathFns num}.
Local Open Scope num_scope.

(** After the flight, the tick either hands over to [goalScored] or has no
    goal at all. *)
Lemma finishTick_spec (now : Z) (w : World num) (q : Body.t num) :
  Game.puck (game w) = Some q ->
  let top := Body.y q <? wallTop (game w) q in
  let bottom := Body.y q >? wallBottom (game w) q in
  let inside := inGoalMouth (game w) q in
  if top && inside then sameAs (finishTick now w) (goalScored Player w)
  else if bottom && inside then sameAs (finishTick now w) (goalScored Opponent w)
  else ~ In (Audio_play Sound.goal) (trace (finishTick now w)).
Proof.
  intros Hq top bottom inside. unfold finishTick.
  pose proof (topWall_cases w q Hq) as Ht. fold top inside in Ht.
  destruct top eqn:Etop; cbn [andb].
  - destruct inside eqn:Ein.
    + destruct (goalScored_done Player w) as (w' & out & Hg & _).
      rewrite (bind_Done _ _ _ _ _ _ Hg) in Ht. cbn [ret] in Ht.
      unfold sameAs. rewrite Hg, (bind_Done _ _ _ _ _ _ Ht). cbn [ret trace world].
      split; [now rewrite !app_nil_r|reflexivity].
    + rewrite (bind_Done _ _ _ _ _ _ Ht).
      set (w2 := setPuck _ w) in *.
      assert (Hq2 : Game.puck (game w2) = Some (bounced (wallTop (game w) q) q))
        by reflexivity.
      pose proof (bottomWall_cases w2 _ Hq2) as Hb.
      assert (Hin2 : inGoalMouth (game w2) (bounced (wallTop (game w) q) q) = false).
      { rewrite <- Ein. unfold inside. destruct w as [[] ?]. reflexivity. }
      rewrite Hin2 in Hb. rewrite andb_false_r.
      destruct (_ >? _) in Hb; rewrite (bind_Done _ _ _ _ _ _ Hb);
        match goal with |- context [(paddleCollisions;; sendPuckState now) ?w3] =>
          pose proof (no_goal_after_walls now w3) as Hn;
          destruct ((paddleCollisions;; sendPuckState now) w3) end;
        cbn in *; intuition discriminate.
  - pose proof (bottomWall_cases w q Hq) as Hb. fold bottom inside in Hb.
    rewrite (bind_Done _ _ _ _ _ _ Ht).
    destruct bottom eqn:Ebot; cbn [andb].
    + destruct inside eqn:Ein.
      * destruct (goalScored_done Opponent w) as (w' & out & Hg & _).
        rewrite (bind_Done _ _ _ _ _ _ Hg) in Hb. cbn [ret] in Hb.
        unfold sameAs. rewrite Hg, (bind_Done _ _ _ _ _ _ Hb).
        cbn [ret trace world app].
        split; [now rewrite !app_nil_r|reflexivity].
      * rewrite (bind_Done _ _ _ _ _ _ Hb).
        match goal with |- context [(paddleCollisions;; sendPuckState now) ?w3] =>
            pose proof (no_goal_after_walls now w3) as Hn;
            destruct ((paddleCollisions;; sendPuckState now) w3) end;
          cbn in *; intuition discriminate.
    + rewrite (bind_Done _ _ _ _ _ _ Hb).
      pose proof (no_goal_after_walls now w) as Hn;
        destruct ((paddleCollisions;; sendPuckState now) w);
        cbn in *; intuition discriminate.
Qed.

Lemma updatePhysics_after_flight (dt : num) (now : Z) (w w1 : World num) out1 :
  flight dt w = Done tt w1 out1 ->
  trace (updatePhysics dt now w) = out1 ++ trace (finishTick now w1)
  /\ world (updatePhysics dt now w) = world (finishTick now w1).
Proof.
  intros Hf. unfold updatePhysics. rewrite (bind_Done _ _ _ _ _ _ Hf).
  destruct (finishTick now w1); split; reflexivity.
Qed.

Lemma flight_trace_walls (dt : num) (w : World num) (e : Effect num) :
  In e (trace (flight dt w)) -> e = Audio_play Sound.wall.
Proof.
  intros Hin. symmetry. exact (emits_only_In _ _ _ _ (flight_emits dt) Hin).
Qed.

Lemma goalScored_quiet (s : Side) (w : World num) (e : Effect num) :
  In e (trace (goalScored s w)) -> quiet e.
Proof. intros Hin. exact (emits_only_In _ _ _ _ (goalScored_emits s) Hin). Qed.

(** A tick with a goal skips the paddles and the broadcast. *)
Lemma goal_tick_is_quiet (dt : num) (now : Z) (w : World num) :
  In (Audio_play Sound.goal) (trace (updatePhysics dt now w)) ->
  ~ In (Audio_play Sound.hit) (trace (updatePhysics dt now w))
  /\ (forall e, In e (trace (updatePhysics dt now w)) -> ~ isBroadcast e)
  /\ Game.puck (game (world (updatePhysics dt now w)))
     = Game.puck (game (world (flight dt w))).
Proof.
  intros Hgoal.
  destruct (Game.puck (game w)) as [p|] eqn:Hp.
  2:{ unfold updatePhysics, bind in Hgoal. rewrite (flight_None dt w Hp) in Hgoal.
      destruct Hgoal. }
  destruct (flight_done dt w p Hp) as (q & tr & out1 & Hf).
  set (w1 := mkWorld _ _) in Hf.
  destruct (updatePhysics_after_flight dt now w w1 out1 Hf) as [Ht Hw].
  assert (Hout1 : forall e, In e out1 -> e = Audio_play Sound.wall).
  { intros e He. apply (flight_trace_walls dt w). now rewrite Hf. }
  assert (Hq : Game.puck (game w1) = Some q) by (destruct w as [[] ?]; reflexivity).
  pose proof (finishTick_spec now w1 q Hq) as Hspec. cbv zeta in Hspec.
  rewrite Ht in *. rewrite Hw, Hf. cbn [world].
  assert (Hcase : forall s, sameAs (finishTick now w1) (goalScored s w1) ->
    ~ In (Audio_play Sound.hit) (out1 ++ trace (finishTick now w1)) /\
    (forall e, In e (out1 ++ trace (finishTick now w1)) -> ~ isBroadcast e) /\
    Game.puck (game (world (finishTick now w1))) = Game.puck (game w1)).
  { intros s [Etr Ewd]. rewrite Etr, Ewd.
    destruct (goalScored_done s w1) as (w' & out & Hg & _ & Hpuck & _).
    repeat split.
    - intros Hin. apply in_app_or in Hin. destruct Hin as [Hin|Hin].
      + apply Hout1 in Hin. discriminate.
      + apply goalScored_quiet in Hin. destruct Hin as [Hne _]. now apply Hne.
    - intros e Hin. apply in_app_or in Hin. destruct Hin as [Hin|Hin].
      + apply Hout1 in Hin. subst e. exact (fun H => H).
      + apply goalScored_quiet in Hin. apply Hin.
    - rewrite Hg. exact Hpuck. }
  destruct (_ && _) in Hspec; [now apply (Hcase Player)|].
  destruct (_ && _) in Hspec; [now apply (Hcase Opponent)|].
  exfalso. apply in_app_or in Hgoal. destruct Hgoal as [Hin|Hin].
  - apply Hout1 in Hin. discriminate.
  - now apply Hspec.
Qed.

(** A tick has a goal exactly when the puck, after its flight, is beyond
    an end wall and strictly inside the goal mouth. *)
Lemma goal_iff_inside (dt : num) (now : Z) (w : World num) (p : Body.t num) :
  Game.puck (game w) = Some p ->
  exists w1 out1 q,
    flight dt w = Done tt w1 out1 /\ Game.puck (game w1) = Some q /\
    let g := game w1 in
    let top := Body.y q <? wallTop g q in
    let bottom := Body.y q >? wallBottom g q in
    let inside := (Body.x q >? goalLeft g) && (Body.x q <? goalRight g) in
    (In (Audio_play Sound.goal) (trace (updatePhysics dt now w))
     <-> (top || bottom) && inside = true)
    /\ (top && inside = true ->
        Game.score (game (world (updatePhysics dt now w)))
        = Score.incr Player (Game.score (game w)))
    /\ (top = false -> bottom && inside = true ->
        Game.score (game (world (updatePhysics dt now w)))
        = Score.incr Opponent (Game.score (game w))).
Proof.
  intros Hp.
  destruct (flight_done dt w p Hp) as (q & tr & out1 & Hf).
  set (w1 := mkWorld _ _) in Hf.
  exists w1, out1, q. split; [exact Hf|].
  assert (Hq : Game.puck (game w1) = Some q) by (destruct w as [[] ?]; reflexivity).
  split; [exact Hq|]. cbv zeta.
  destruct (updatePhysics_after_flight dt now w w1 out1 Hf) as [Ht Hw].
  assert (Hout1 : forall e, In e out1 -> e = Audio_play Sound.wall).
  { intros e He. apply (flight_trace_walls dt w). now rewrite Hf. }
  assert (Hsc : Game.score (game w1) = Game.score (game w))
    by (destruct w as [[] ?]; reflexivity).
  pose proof (finishTick_spec now w1 q Hq) as Hspec. cbv zeta in Hspec.
  unfold inGoalMouth in Hspec. rewrite Ht, Hw.
  set (top := Body.y q <? wallTop (game w1) q) in *.
  set (bottom := Body.y q >? wallBottom (game w1) q) in *.
  set (inside := (Body.x q >? goalLeft (game w1)) && (Body.x q <? goalRight (game w1))) in *.
  assert (Hgs : forall s, sameAs (finishTick now w1) (goalScored s w1) ->
     In (Audio_play Sound.goal) (out1 ++ trace (finishTick now w1)) /\
     Game.score (game (world (finishTick now w1)))
     = Score.incr s (Game.score (game w))).
  { intros s [Etr Ewd]. rewrite Etr, Ewd.
    destruct (goalScored_done s w1) as (w' & out & Hg & Hin & _ & Hscore).
    rewrite Hg. cbn [trace world]. split; [apply in_or_app; now right|].
    now rewrite Hscore, Hsc. }
  destruct top, bottom, inside; cbn [andb orb] in *;
    try (destruct (Hgs _ Hspec) as [Hin Hscore]);
    (split; [split; [intros Hin'|intros; try discriminate]
            |split; intros; try discriminate]);
    auto;
    try (exfalso; apply in_app_or in Hin'; destruct Hin' as [Hin'|Hin'];
         [apply Hout1 in Hin'; discriminate|now apply Hspec]).
Qed.

(** *** Once the match is over *)

Lemma handleMessage_halted (data : Message.t num) :
  preserves halted (handleMessage data).
Proof.
  unfold halted, handleMessage. destruct data; preserving; cbn in *; auto.
Qed.

Lemma handleMessage_no_broadcast (data : Message.t num) :
  emits_only (fun e => ~ isBroadcast e) (handleMessage data).
Proof. unfold handleMessage. destruct data; emits; cbn; auto. Qed.

Lemma dispatch_halted (c : Callback) (w : World num) :
  halted w ->
  halted (world (dispatch c w))
  /\ forall e, In e (trace (dispatch c w)) -> ~ isBroadcast e.
Proof.
  intros Hw. destruct c as [t now id|[tp] rnd now|data]; cbn [dispatch].
  - unfold gameLoop, bind, getGame. cbn. rewrite Hw. cbn.
    split; [exact Hw|intros e []].
  - unfold fire, bind, getGame. cbn. rewrite Hw. cbn.
    split; [exact Hw|intros e []].
  - split; [now apply handleMessage_halted|].
    intros e Hin.
    exact (emits_only_In _ _ _ _ (handleMessage_no_broadcast data) Hin).
Qed.

Lemma run_halted (cs : list Callback) (w : World num) :
  halted w ->
  halted (fst (run cs w)) /\ forall e, In e (snd (run cs w)) -> ~ isBroadcast e.
Proof.
  revert w. induction cs as [|c cs IH]; intros w Hw; cbn [run].
  - split; [exact Hw|intros e []].
  - destruct (dispatch_halted c w Hw) as [Hh Hq].
    specialize (IH _ Hh). destruct (run cs (world (dispatch c w))) as [w' out].
    cbn [fst snd] in *. destruct IH as [IH1 IH2]. split; [exact IH1|].
    intros e Hin. apply in_app_or in Hin. destruct Hin; auto.
Qed.

Lemma goalScored_match_over (s : Side) (w : World num) :
  (Score.get s (Game.score (game w)) + 1 >= winningScore)%Z ->
  exists w' out,
    goalScored s w = Done tt w' out
    /\ halted w'
    /\ Game.score (game w') = Score.incr s (Game.score (game w))
    /\ In (UI_showGameOver (match s with Player => true | Opponent => false end)
             (Score.player (Game.score (game w')))
             (Score.opponent (Game.score (game w')))) out
    /\ (forall t ms, ~ In (setTimeout t ms) out).
Proof.
  intros Hs. destruct w as [[] n]. cbn in Hs. unfold halted. exec.
  assert (Hge : (Score.get s (Score.incr s score) >=? winningScore)%Z = true).
  { destruct s, score; cbn in *; apply Z.geb_le; lia. }
  rewrite Hge.
  destruct animationId as [id|]; [destruct (negb (id =? 0)%Z)|];
    eexists _, _; (split; [reflexivity|]); cbn;
    repeat split; auto 10; intros t ms Hin; intuition discriminate.
Qed.

End Tick.

(* ================================================================= *)
(** ** The physics in real arithmetic *)

Section RealPhysics.
Local Open Scope R_scope.

Lemma friction_slows (w : World R) (p : Body.t R) (dt : R) :
  Game.puck (game w) = Some p -> 0 <= dt ->
  exists p',
    applyFriction dt w = Done tt (setPuck p' w) []
    /\ Body.vx p' = Body.vx p * Math_pow friction dt
    /\ Body.vy p' = Body.vy p * Math_pow friction dt
    /\ speed p' <= speed p.
Proof.
  intros Hp Hdt. eexists. split; [apply (applyFriction_run dt w p Hp)|].
  destruct (friction_factor dt Hdt) as [Hk0 Hk1].
  cbn [Body.vx Body.vy Body.set_vx Body.set_vy nmul Real.arith].
  repeat split. unfold speed. cbn in *.
  set (k := Rpower (Q2R 0.995) dt) in *. apply sqrt_le_1_alt.
  assert (k * k <= 1) by nra.
  assert (0 <= Body.vx p * Body.vx p + Body.vy p * Body.vy p) by nra.
  nra.
Qed.

Lemma clamp_exact (w : World R) (p : Body.t R) :
  Game.puck (game w) = Some p -> 25 < speed p ->
  exists p',
    clampSpeed w = Done tt (setPuck p' w) []
    /\ speed p' = 25
    /\ Body.vx p' = 25 / speed p * Body.vx p
    /\ Body.vy p' = 25 / speed p * Body.vy p.
Proof.
  intros Hp Hs. pose proof (clampSpeed_run w p Hp) as Hrun.
  destruct Q2R_lits as (_ & _ & _ & _ & L25 & _).
  assert (Hgt : (speed p >? maxPuckSpeed)%num = true).
  { apply ngt_true. unfold maxPuckSpeed. cbn [lit Real.arith]. now rewrite L25. }
  rewrite Hgt in Hrun. eexists. split; [exact Hrun|].
  unfold maxPuckSpeed. cbn [lit Real.arith Body.vx Body.vy Body.set_vx Body.set_vy
                            nmul ndiv]. rewrite L25.
  pose proof (sqrt_sum_sq (Body.vx p) (Body.vy p)) as Hsq.
  unfold speed in *. cbn [nsqrt nadd nmul Real.arith Body.vx Body.vy Body.set_vx
                          Body.set_vy] in *.
  set (s := R_sqrt.sqrt (Body.vx p * Body.vx p + Body.vy p * Body.vy p)) in *.
  repeat split; try (field; lra).
  replace (Body.vx p / s * 25 * (Body.vx p / s * 25)
           + Body.vy p / s * 25 * (Body.vy p / s * 25))
    with (25 * 25 * ((Body.vx p * Body.vx p + Body.vy p * Body.vy p) / (s * s)))
    by (field; lra).
  rewrite <- Hsq. replace (s * s / (s * s)) with 1 by (field; lra).
  rewrite Rmult_1_r. apply sqrt_square. lra.
Qed.

(** The push-out of [checkPaddleCollision]: the normal has length one and
    the centres end up exactly [minDist] apart. *)
Lemma push_out_geometry (puck paddle : Body.t R) :
  let dx := Body.x puck - Body.x paddle in
  let dy := Body.y puck - Body.y paddle in
  let dist := R_sqrt.sqrt (dx * dx + dy * dy) in
  let minDist := Body.radius puck + Body.radius paddle in
  let nx := dx / dist in
  let ny := dy / dist in
  let overlap := minDist - dist in
  0 < dist < minDist ->
  nx * nx + ny * ny = 1
  /\ centreDistance
       (Body.set_y (Body.y puck + ny * overlap)
          (Body.set_x (Body.x puck + nx * overlap) puck)) paddle = minDist.
Proof.
  intros dx dy dist minDist nx ny overlap Hd.
  pose proof (sqrt_sum_sq dx dy) as Hsq. fold dist in Hsq.
  assert (Hunit : nx * nx + ny * ny = 1).
  { subst nx ny. replace (dx / dist * (dx / dist) + dy / dist * (dy / dist))
      with ((dx * dx + dy * dy) / (dist * dist)) by (field; lra).
    rewrite <- Hsq. field. lra. }
  split; [exact Hunit|].
  unfold centreDistance. cbn.
  replace ((Body.x puck + nx * overlap - Body.x paddle)
           * (Body.x puck + nx * overlap - Body.x paddle)
           + (Body.y puck + ny * overlap - Body.y paddle)
             * (Body.y puck + ny * overlap - Body.y paddle))
    with (minDist * minDist).
  - apply sqrt_square. lra.
  - replace (Body.x puck + nx * overlap - Body.x paddle) with (dx + nx * overlap)
      by (subst dx; ring).
    replace (Body.y puck + ny * overlap - Body.y paddle) with (dy + ny * overlap)
      by (subst dy; ring).
    subst nx ny overlap.
    replace ((dx + dx / dist * (minDist - dist)) * (dx + dx / dist * (minDist - dist))
             + (dy + dy / dist * (minDist - dist)) * (dy + dy / dist * (minDist - dist)))
      with ((dx * dx + dy * dy) * (minDist * minDist) / (dist * dist))
      by (field; lra).
    rewrite <- Hsq. field. lra.
Qed.

Lemma slow_speed (k : R) : 0 < k <= 1 ->
  R_sqrt.sqrt (-3 * k * (-3 * k) + 0 * k * (0 * k)) <= 25.
Proof. intros Hk. apply sqrt_le; nra. Qed.

(** The scenario of the left wall, for every [dt]. *)
Lemma wall_bounce_general (w : World R) (p pp op : Body.t R) (dt : R) (now : Z) :
  Game.puck (game w) = Some p ->
  Game.playerPaddle (game w) = Some pp ->
  Game.opponentPaddle (game w) = Some op ->
  let g := game w in
  let mid := Game.height g / 2 in
  Body.x p = wallLeft g p - 1 -> Body.y p = mid ->
  Body.vx p = -3 -> Body.vy p = 0 ->
  0 <= dt <= 2 ->
  wallTop g p <= mid <= wallBottom g p ->
  let atWall := Body.set_y mid (Body.set_x (wallLeft g p) p) in
  Body.radius p + Body.radius pp <= centreDistance atWall pp ->
  Body.radius p + Body.radius op <= centreDistance atWall op ->
  exists w' out p',
    updatePhysics dt now w = Done tt w' out
    /\ Game.puck (game w') = Some p'
    /\ Body.x p' = wallLeft g p /\ Body.y p' = mid
    /\ Body.vx p' = 27/10 * Math_pow friction dt /\ Body.vy p' = 0
    /\ In (Audio_play Sound.wall) out.
Proof.
  intros Hp Hpp Hop g mid Hx Hy Hvx Hvy Hdt Hmid atWall Hcp Hco.
  destruct (friction_factor dt (proj1 Hdt)) as [Hk0 Hk1].
  destruct Q2R_lits as (L0 & L1 & L2 & L09 & L25 & L05 & L11 & L03 & L995).
  cbn in Hk0, Hk1. set (k := Rpower (Q2R 0.995) dt) in *.
  (* the flight *)
  destruct (addToTrail_run w p Hp) as [tr H1].
  set (w0 := mkWorld (Game.set_puckTrail tr (game w)) (net w)) in *.
  assert (Hp0 : Game.puck (game w0) = Some p) by (destruct w as [[] ?]; exact Hp).
  pose proof (updatePuckPosition_run dt w0 p Hp0) as H2.
  set (p1 := Body.set_y _ _) in H2.
  pose proof (applyFriction_run dt (setPuck p1 w0) p1 eq_refl) as H3.
  rewrite setPuck_setPuck in H3. change (Math_pow friction dt) with k in H3.
  set (p2 := Body.set_vy _ _) in H3.
  pose proof (clampSpeed_run (setPuck p2 w0) p2 eq_refl) as H4.
  assert (Hslow : (speed p2 >? maxPuckSpeed)%num = false).
  { apply ngt_false. unfold maxPuckSpeed, speed. cbn. rewrite L25, Hvx, Hvy.
    fold k. apply slow_speed. lra. }
  rewrite Hslow in H4.
  pose proof (leftRightWalls_run (setPuck p2 w0) p2 eq_refl) as H5.
  assert (Hleft : (Body.x p2 <? wallLeft (game (setPuck p2 w0)) p2)%num = true).
  { apply nlt_true. subst g. destruct w as [[] ?]. unfold wallLeft in *. cbn in *.
    rewrite Hx, Hvx. nra. }
  rewrite Hleft, setPuck_setPuck in H5.
  set (p3 := Body.set_vx _ _) in H5.
  set (w5 := setPuck p3 w0) in *.
  assert (Hflight : flight dt w = Done tt w5 [Audio_play Sound.wall]).
  { unfold flight.
    eapply (run_seq _ _ _ _ _ _ _ _ _ H1).
    eapply (run_seq _ _ _ _ _ _ _ _ _ H2).
    eapply (run_seq _ _ _ _ _ _ _ _ _ H3).
    eapply (run_seq _ _ _ _ _ _ _ _ _ H4).
    exact H5. }
  (* the puck at the wall *)
  assert (Hp5 : Game.puck (game w5) = Some p3) by reflexivity.
  assert (Hx3 : Body.x p3 = wallLeft g p).
  { subst g. destruct w as [[] ?]. reflexivity. }
  assert (Hy3 : Body.y p3 = mid).
  { cbn. rewrite Hy, Hvy. lra. }
  assert (Hvx3 : Body.vx p3 = 27 / 10 * k).
  { cbn. fold k. rewrite L09, Hvx. lra. }
  assert (Hvy3 : Body.vy p3 = 0).
  { cbn. fold k. rewrite Hvy. lra. }
  assert (Hr3 : Body.radius p3 = Body.radius p) by reflexivity.
  assert (Hwalls : wallTop (game w5) p3 = wallTop g p
                   /\ wallBottom (game w5) p3 = wallBottom g p).
  { subst g. destruct w as [[] ?]. split; reflexivity. }
  destruct Hwalls as [Hwt Hwb].
  (* the end walls are not reached *)
  pose proof (topWall_cases w5 p3 Hp5) as H6.
  assert (Htop : (Body.y p3 <? wallTop (game w5) p3)%num = false).
  { apply nlt_false. rewrite Hy3, Hwt. lra. }
  rewrite Htop in H6.
  pose proof (bottomWall_cases w5 p3 Hp5) as H7.
  assert (Hbot : (Body.y p3 >? wallBottom (game w5) p3)%num = false).
  { apply ngt_false. rewrite Hy3, Hwb. lra. }
  rewrite Hbot in H7.
  (* the paddles are out of reach *)
  assert (Hdist : forall pd, centreDistance p3 pd = centreDistance atWall pd).
  { intros pd. unfold centreDistance. rewrite Hx3, Hy3. reflexivity. }
  assert (Hmiss : forall pd,
     Body.radius p + Body.radius pd <= centreDistance atWall pd ->
     checkPaddleCollision (Some pd) w5 = Done tt w5 []).
  { intros pd Hpd. apply (checkPaddleCollision_miss w5 p3 pd Hp5).
    apply andb_false_iff. left. apply nlt_false. rewrite Hdist, Hr3. exact Hpd. }
  assert (Hpaddles : paddleCollisions w5 = Done tt w5 []).
  { assert (Hpp5 : Game.playerPaddle (game w5) = Some pp)
      by (destruct w as [[] ?]; exact Hpp).
    assert (Hop5 : Game.opponentPaddle (game w5) = Some op)
      by (destruct w as [[] ?]; exact Hop).
    unfold paddleCollisions, bind, getGame.
    rewrite Hpp5, (Hmiss pp Hcp). cbn [game]. rewrite Hop5, (Hmiss op Hco).
    reflexivity. }
  destruct (sendPuckState_run now w5 p3 Hp5) as (n' & out & H8).
  exists (mkWorld (game w5) n'), ([Audio_play Sound.wall] ++ [] ++ [] ++ [] ++ out), p3.
  split.
  { unfold updatePhysics. eapply (run_seq _ _ _ _ _ _ _ _ _ Hflight).
    unfold finishTick.
    eapply (run_seq _ _ _ _ _ _ _ _ _ H6). cbn iota.
    eapply (run_seq _ _ _ _ _ _ _ _ _ H7). cbn iota.
    eapply (run_seq _ _ _ _ _ _ _ _ _ Hpaddles). exact H8. }
  repeat split; auto. now left.
Qed.

End RealPhysics.

(* ================================================================= *)
(** ** What the guest does with a message *)

Section Guest.
Context {num : Type} {A : Arith num}.
Local Open Scope num_scope.

Lemma updateOpponentPaddle_run (w : World num) (paddle : Body.t num) (x y : num) :
  Game.opponentPaddle (game w) = Some paddle ->
  exists paddle',
    handleMessage (Message.paddle x y) w = Done tt (setOpponentPaddle paddle' w) []
    /\ updateOpponentPaddle x y w = Done tt (setOpponentPaddle paddle' w) []
    /\ Body.x paddle' = Game.width (game w) - x
    /\ Body.y paddle' = Game.height (game w) - y.
Proof. intros Hp. open_world w. eexists. cbn. repeat split. Qed.

Lemma no_matchOver (l : list (Effect num)) :
  (forall e, In e l -> forall won a b, e <> UI_showGameOver won a b) ->
  ~ matchOver l.
Proof. intros Hl (won & a & b & Hin). exact (Hl _ Hin won a b eq_refl). Qed.

Lemma updateFromHost_run (state : State.t num) (w : World num) (p : Body.t num) :
  Game.isHost (game w) = false ->
  Game.puck (game w) = Some p ->
  exists w' out,
    updateFromHost state w = Done tt w' out
    /\ Game.puck (game w') = Some (mirrored (game w) state p)
    /\ Game.score (game w') = swapped (State.score state)
    /\ Game.width (game w') = Game.width (game w)
    /\ Game.height (game w') = Game.height (game w)
    /\ Game.isHost (game w') = false
    /\ (matchOver out <->
        (Score.player (swapped (State.score state)) >= winningScore
         \/ Score.opponent (swapped (State.score state)) >= winningScore)%Z)
    /\ (matchOver out -> halted w')
    /\ (~ matchOver out -> Game.isRunning (game w') = Game.isRunning (game w)).
Proof.
  intros Hh Hp. open_world w. destruct state as [sx sy svx svy [sp so]].
  unfold swapped, halted. exec.
  repeat branch; eexists _, _; (split; [reflexivity|]); cbn;
  rewrite ?Z.geb_leb in *; rewrite ?Z.leb_le, ?Z.leb_gt in *;
  (repeat split; try reflexivity; try (intros; lia);
   try (intros; exfalso; eauto 10; fail);
   try (intros _; eexists _, _, _; cbn; eauto 10; fail);
   try (intros H; exfalso; apply H; eexists _, _, _; cbn; eauto 10; fail);
   try (intros H; exfalso; revert H; apply no_matchOver; cbn; intros e He won a b;
        intuition (subst; discriminate))).
Qed.

Lemma goalScored_run (s : Side) (w : World num) :
  exists w' out,
    goalScored s w = Done tt w' out
    /\ Game.score (game w') = Score.incr s (Game.score (game w))
    /\ (matchOver out <-> (Score.get s (Game.score (game w')) >= winningScore)%Z)
    /\ (matchOver out -> halted w')
    /\ (~ matchOver out -> Game.isRunning (game w') = Game.isRunning (game w)).
Proof.
  destruct w as [[] n]. unfold halted. exec.
  repeat branch; eexists _, _; (split; [reflexivity|]); cbn;
  rewrite ?Z.geb_leb in *; rewrite ?Z.leb_le, ?Z.leb_gt in *;
  (repeat split; try reflexivity; try (intros; lia);
   try (intros; exfalso; eauto 10; fail);
   try (intros _; eexists _, _, _; cbn; eauto 10; fail);
   try (intros H; exfalso; apply H; eexists _, _, _; cbn; eauto 10; fail);
   try (intros H; exfalso; revert H; apply no_matchOver; cbn; intros e He won a b;
        intuition (subst; discriminate))).
Qed.

End Guest.

(* ================================================================= *)
(** ** The throttle of [sendGameState] *)

Section Throttle.
Context {num : Type} {A : Arith num}.
Local Open Scope Z_scope.

Lemma sendGameState_dropped (now : Z) (st : State.t num) (w : World num) :
  now - Network.lastStateSend (net w) < stateSendInterval ->
  sendGameState now st w = Done tt w [].
Proof.
  intros H. destruct w as [g [? ? ? ? ? last]]. cbn [net Network.lastStateSend] in H.
  exec. destruct (Z.geb_spec (now - last) stateSendInterval); [lia|reflexivity].
Qed.

Lemma sendGameState_passed (now : Z) (st : State.t num) (w : World num) :
  stateSendInterval <= now - Network.lastStateSend (net w) ->
  exists out,
    sendGameState now st w
    = Done tt (mkWorld (game w) (Network.set_lastStateSend now (net w))) out.
Proof.
  intros H. destruct w as [g [? [[?]|] ? ? ? last]];
    cbn [net Network.lastStateSend] in H; exec;
    (destruct (Z.geb_spec (now - last) stateSendInterval); [|lia]);
    repeat branch; eexists; reflexivity.
Qed.

Lemma gapped_weaken (d lo lo' : Z) (l : list Z) :
  lo' <= lo -> gapped d lo l -> gapped d lo' l.
Proof. destruct l; cbn; intuition lia. Qed.

Lemma broadcasts_gapped (attempts : list (Attempt num)) (w : World num) :
  gapped stateSendInterval (Network.lastStateSend (net w)) (broadcasts attempts w).
Proof.
  revert w. induction attempts as [|a rest IH]; intros w; cbn [broadcasts].
  - exact I.
  - set (w1 := mkWorld _ _).
    assert (Hlast : Network.lastStateSend (net w1) = Network.lastStateSend (net w))
      by (destruct w as [? []]; reflexivity).
    rewrite <- Hlast.
    destruct (Z.lt_ge_cases (at_now a - Network.lastStateSend (net w1))
                            stateSendInterval) as [Hlt|Hge].
    + rewrite (sendGameState_dropped _ _ _ Hlt). cbn [trace world onWire existsb app].
      exact (IH w1).
    + destruct (sendGameState_passed _ (at_state a) _ Hge) as [out Hs].
      rewrite Hs. cbn [trace world].
      specialize (IH (mkWorld (game w1) (Network.set_lastStateSend (at_now a) (net w1)))).
      assert (Hnow : Network.lastStateSend
                (net (mkWorld (game w1)
                        (Network.set_lastStateSend (at_now a) (net w1)))) = at_now a)
        by reflexivity.
      rewrite Hnow in IH.
      destruct (onWire out); cbn [app].
      * cbn [gapped]. split; [lia|exact IH].
      * eapply gapped_weaken; [|exact IH]. unfold stateSendInterval in *. lia.
Qed.

Lemma broadcasts_are_attempts (attempts : list (Attempt num)) (w : World num) (e : Z) :
  In e (broadcasts attempts w) -> In e (map at_now attempts).
Proof.
  revert w. induction attempts as [|a rest IH]; intros w; cbn [broadcasts map].
  - intros [].
  - intros Hin. apply in_app_or in Hin. destruct Hin as [Hin|Hin].
    + destruct (onWire _); [|destruct Hin]. destruct Hin as [<-|[]]. now left.
    + right. eapply IH, Hin.
Qed.

Lemma gapped_count (d lo hi : Z) (l : list Z) :
  0 <= d -> gapped d lo l -> (forall e, In e l -> e <= hi) ->
  l = [] \/ d * Z.of_nat (List.length l) <= hi - lo.
Proof.
  intros Hd. revert lo. induction l as [|e l IH]; intros lo Hg Hhi; [now left|].
  right. destruct Hg as [Hlo Hg].
  destruct (IH e Hg (fun x Hx => Hhi x (or_intror Hx))) as [->|Hl].
  - cbn. specialize (Hhi e (or_introl eq_refl)). lia.
  - cbn [List.length]. rewrite Nat2Z.inj_succ. lia.
Qed.

Lemma cadence_times (t0 step : Z) (xs : list (State.t num * option Connection * bool))
    (e : Z) :
  0 <= step -> In e (map at_now (cadence t0 step xs)) ->
  t0 <= e <= t0 + step * (Z.of_nat (List.length xs) - 1).
Proof.
  intros Hstep. revert t0.
  induction xs as [|[[st c] b] xs IH]; intros t0;
    cbn [cadence map at_now In List.length].
  - intros [].
  - rewrite Nat2Z.inj_succ. intros [<-|Hin]; [nia|]. specialize (IH _ Hin). nia.
Qed.

(** In a window of [window] ms, whatever was sent before it. *)
Lemma broadcasts_in_window (attempts : list (Attempt num)) (w : World num)
    (t0 window : Z) :
  0 <= window ->
  (forall e, In e (map at_now attempts) -> t0 <= e <= t0 + window) ->
  stateSendInterval * (Z.of_nat (List.length (broadcasts attempts w)) - 1) <= window.
Proof.
  intros Hw Hwin. pose proof (broadcasts_gapped attempts w) as Hg.
  assert (Hin : forall e, In e (broadcasts attempts w) -> t0 <= e <= t0 + window).
  { intros e He. apply Hwin. eapply broadcasts_are_attempts, He. }
  destruct (broadcasts attempts w) as [|e l].
  - cbn. unfold stateSendInterval. lia.
  - destruct Hg as [_ Hg].
    pose proof (Hin e (or_introl eq_refl)) as He.
    destruct (gapped_count stateSendInterval e (t0 + window) l) as [->|Hl].
    + unfold stateSendInterval; lia.
    + exact Hg.
    + intros x Hx. apply Hin. now right.
    + cbn. unfold stateSendInterval. lia.
    + cbn [List.length]. rewrite Nat2Z.inj_succ. lia.
Qed.

End Throttle.

(* ================================================================= *)
(** ** The promise of [createGame] *)

Section SessionFacts.

Lemma nth_error_update (k j : nat) (f : Promise.t -> Promise.t) (ps : list Promise.t) :
  nth_error (update k f ps) j =
  if Nat.eqb j k then option_map f (nth_error ps j) else nth_error ps j.
Proof.
  revert k j. induction ps as [|p ps IH]; intros k j.
  - destruct k, j; cbn; try reflexivity. now destruct (Nat.eqb j k).
  - destruct k, j; cbn; try reflexivity. apply IH.
Qed.

Lemma statusIn_setStatus (k j : nat) (st : Promise.state) (ps : list Promise.t) :
  statusIn (setStatus k st ps) j =
  if Nat.eqb j k then option_map (fun _ => st) (statusIn ps j) else statusIn ps j.
Proof.
  unfold statusIn, setStatus. rewrite nth_error_update.
  destruct (Nat.eqb j k); [|reflexivity]. now destruct (nth_error ps j).
Qed.

Lemma statusIn_chain (j k i : nat) (ps : list Promise.t) :
  statusIn (update j (fun p => Promise.mk (Promise.status p) (Some k)) ps) i
  = statusIn ps i.
Proof.
  unfold statusIn. rewrite nth_error_update.
  destruct (Nat.eqb i j); [|reflexivity]. now destruct (nth_error ps i).
Qed.

(** A settled promise stays as it is. *)
Lemma settle_keeps_settled (fuel k' k : nat) (st st0 : Promise.state)
    (ps : list Promise.t) :
  statusIn ps k = Some st0 -> st0 <> Promise.pending ->
  statusIn (settle fuel k' st ps) k = Some st0.
Proof.
  revert k' ps. induction fuel as [|fuel IH]; intros k' ps Hk Hst0; cbn [settle];
    [exact Hk|].
  destruct (nth_error ps k') as [p|] eqn:Hp; [|exact Hk].
  destruct (Promise.status p) eqn:Hs; try exact Hk.
  assert (Hne : Nat.eqb k k' = false).
  { apply Nat.eqb_neq. intros ->. unfold statusIn in Hk. rewrite Hp in Hk.
    cbn in Hk. congruence. }
  assert (Hk' : statusIn (setStatus k' st ps) k = Some st0).
  { now rewrite statusIn_setStatus, Hne. }
  destruct (Promise.chained p); [now apply IH|exact Hk'].
Qed.

(** A pending promise takes the outcome it is settled with. *)
Lemma settle_pending (fuel k : nat) (st : Promise.state) (ps : list Promise.t) :
  statusIn ps k = Some Promise.pending -> st <> Promise.pending ->
  statusIn (settle (S fuel) k st ps) k = Some st.
Proof.
  intros Hk Hst. cbn [settle]. unfold statusIn in Hk.
  destruct (nth_error ps k) as [p|] eqn:Hp; [|discriminate].
  cbn in Hk. injection Hk as Hk. rewrite Hk.
  assert (Hk' : statusIn (setStatus k st ps) k = Some st).
  { rewrite statusIn_setStatus, Nat.eqb_refl. unfold statusIn. now rewrite Hp. }
  destruct (Promise.chained p); [now apply settle_keeps_settled|exact Hk'].
Qed.

Lemma statusIn_length (ps : list Promise.t) (k : nat) (st : Promise.state) :
  statusIn ps k = Some st -> exists n, List.length ps = S n.
Proof.
  unfold statusIn. destruct ps; [destruct k; discriminate|]. now eexists.
Qed.

Lemma statusIn_app (ps qs : list Promise.t) (k : nat) (st : Promise.state) :
  statusIn ps k = Some st -> statusIn (ps ++ qs) k = Some st.
Proof.
  unfold statusIn. intros H. destruct (nth_error ps k) eqn:Hn; [|discriminate].
  rewrite nth_error_app1; [now rewrite Hn|].
  apply nth_error_Some. congruence.
Qed.

Lemma handle_keeps_settled (e : SessionEvent) (s : Session) (k : nat)
    (st0 : Promise.state) :
  statusOf k s = Some st0 -> st0 <> Promise.pending ->
  statusOf k (fst (handle e s)) = Some st0.
Proof.
  unfold statusOf. intros Hk Hst0.
  destruct e as [j|j conn|j|j type r1 r2|j]; cbn [handle].
  - cbn. now apply settle_keeps_settled.
  - exact Hk.
  - exact Hk.
  - destruct (String.eqb type "unavailable-id").
    + cbn. rewrite statusIn_chain. now apply statusIn_app.
    + cbn. now apply settle_keeps_settled.
  - destruct (negb _); [|exact Hk]. cbn. now apply settle_keeps_settled.
Qed.

Lemma handle_peer_open (s : Session) (k : nat) :
  statusOf k s = Some Promise.pending ->
  statusOf k (fst (handle (peer_open k) s))
  = Some (Promise.fulfilled (Network.roomCode (network s))).
Proof.
  unfold statusOf. intros Hk.
  destruct (statusIn_length _ _ _ Hk) as [n Hn]. cbn. rewrite Hn.
  apply settle_pending; [exact Hk|discriminate].
Qed.

Lemma handle_timeout (s : Session) (k : nat) :
  statusOf k s = Some Promise.pending ->
  statusOf k (fst (handle (timeout_60000 k) s))
  = Some (if Network.isConnected (network s) then Promise.pending
          else Promise.rejected Promise.Timeout_waiting_for_connection).
Proof.
  unfold statusOf. intros Hk.
  destruct (statusIn_length _ _ _ Hk) as [n Hn]. cbn [handle].
  destruct (Network.isConnected (network s)); cbn; [exact Hk|].
  rewrite Hn. apply settle_pending; [exact Hk|discriminate].
Qed.

End SessionFacts.

(* ================================================================= *)
(** ** The properties of the specification *)

(** *** Paddle messages (C10) *)

(** C10.  A [paddle] message [(x, y)] sets the opponent paddle of the
    receiver to exactly [(width - x, height - y)]: the handler goes
    straight to [updateOpponentPaddle], which neither clamps to the
    playable bounds nor to the opponent's half.  Consequently (second
    part, in real arithmetic) a coordinate outside the arena puts the
    paddle outside the arena, on the other side. *)
Theorem paddle_message_is_mirrored_without_clamping :
  (forall (num : Type) (A : Arith num) (w : World num) (paddle : Body.t num)
          (x y : num),
      Game.opponentPaddle (game w) = Some paddle ->
      exists paddle',
        handleMessage (Message.paddle x y) w
        = Done tt (setOpponentPaddle paddle' w) []
        /\ Body.x paddle' = (Game.width (game w) - x)%num
        /\ Body.y paddle' = (Game.height (game w) - y)%num
        /\ Body.radius paddle' = Body.radius paddle)
  /\ (forall (w : World R) (paddle : Body.t R) (x y : R),
      Game.opponentPaddle (game w) = Some paddle ->
      exists paddle',
        Game.opponentPaddle (game (world (handleMessage (Message.paddle x y) w)))
        = Some paddle'
        /\ (x < 0 -> Game.width (game w) < Body.x paddle')%R
        /\ (Game.width (game w) < x -> Body.x paddle' < 0)%R
        /\ (y < 0 -> Game.height (game w) < Body.y paddle')%R
        /\ (Game.height (game w) < y -> Body.y paddle' < 0)%R).
Proof.
  split.
  - intros num A w paddle x y Hp. open_world w. eexists. cbn. repeat split.
  - intros w paddle x y Hp. open_world w. eexists. cbn.
    split; [reflexivity|]. cbn. repeat split; intros; lra.
Qed.

(** On the 375 x 667 arena, the message [(-50, 700)] puts the opponent
    paddle at [(425, -33)]. *)
Lemma paddle_message_is_mirrored_without_clamping_witness :
  Game.opponentPaddle (game (Examples.guest (Score.mk 0 0)))
  = Some (Examples.body 187.5 57.5 0 0 30)%float
  /\ exists paddle',
      handleMessage (Message.paddle (-50)%float 700%float)
        (Examples.guest (Score.mk 0 0))
      = Done tt (setOpponentPaddle paddle' (Examples.guest (Score.mk 0 0))) []
      /\ Body.x paddle' = 425%float
      /\ Body.y paddle' = (-33)%float
      /\ Body.radius paddle' = 30%float.
Proof.
  split; [reflexivity|].
  exact (proj1 paddle_message_is_mirrored_without_clamping float _
           (Examples.guest (Score.mk 0 0)) _ (-50)%float 700%float eq_refl).
Defined.

(** *** Paddle collisions (C9) *)

(** C9.  When the centres of puck and paddle are closer than the sum of
    the radii and not at the same place, [checkPaddleCollision] always
    moves the puck by [overlap] times the collision normal
    [(dx, dy) / dist]; it changes the velocity (impulse with restitution
    1.1, plus half the paddle's velocity, and the sound of a hit) only if
    the relative velocity along the normal is negative, and leaves it as
    it is otherwise.  In real arithmetic (second part) the normal has
    length one and the centres end up exactly the sum of the radii
    apart. *)
Theorem paddle_pushes_always_and_kicks_only_when_approaching :
  (forall (num : Type) (A : Arith num) (w : World num) (puck paddle : Body.t num),
      Game.puck (game w) = Some puck ->
      let dx := (Body.x puck - Body.x paddle)%num in
      let dy := (Body.y puck - Body.y paddle)%num in
      let dist := nsqrt (dx * dx + dy * dy)%num in
      let minDist := (Body.radius puck + Body.radius paddle)%num in
      let nx := (dx / dist)%num in
      let ny := (dy / dist)%num in
      let overlap := (minDist - dist)%num in
      let relVelNormal :=
        ((Body.vx puck - Body.vx paddle) * nx
         + (Body.vy puck - Body.vy paddle) * ny)%num in
      (dist <? minDist)%num = true -> (dist >? lit 0)%num = true ->
      exists puck' out,
        checkPaddleCollision (Some paddle) w = Done tt (setPuck puck' w) out
        /\ Body.x puck' = (Body.x puck + nx * overlap)%num
        /\ Body.y puck' = (Body.y puck + ny * overlap)%num
        /\ ((relVelNormal <? lit 0)%num = true ->
            Body.vx puck'
            = (Body.vx puck - (lit 1 + lit 1.1) * relVelNormal * nx
               + Body.vx paddle * lit 0.5)%num
            /\ Body.vy puck'
               = (Body.vy puck - (lit 1 + lit 1.1) * relVelNormal * ny
                  + Body.vy paddle * lit 0.5)%num
            /\ out = [Audio_play Sound.hit])
        /\ ((relVelNormal <? lit 0)%num = false ->
            Body.vx puck' = Body.vx puck /\ Body.vy puck' = Body.vy puck
            /\ out = []))
  /\ (forall puck paddle : Body.t R,
      let dx := (Body.x puck - Body.x paddle)%R in
      let dy := (Body.y puck - Body.y paddle)%R in
      let dist := R_sqrt.sqrt (dx * dx + dy * dy) in
      let minDist := (Body.radius puck + Body.radius paddle)%R in
      let nx := (dx / dist)%R in
      let ny := (dy / dist)%R in
      let overlap := (minDist - dist)%R in
      (0 < dist < minDist)%R ->
      (nx * nx + ny * ny = 1)%R
      /\ centreDistance
           (Body.set_y (Body.y puck + ny * overlap)%R
              (Body.set_x (Body.x puck + nx * overlap)%R puck)) paddle
         = minDist).
Proof.
  split.
  - intros num A w puck paddle. apply checkPaddleCollision_hit.
  - exact push_out_geometry.
Qed.

(** A puck that comes down on the player's paddle: pushed up to touch,
    and kicked. *)
Lemma paddle_pushes_always_and_kicks_only_when_approaching_witness :
  (exists puck' out,
     checkPaddleCollision (Some (Examples.body 187.5 609.5 0 0 30)%float)
       (Examples.host Examples.incoming (Score.mk 0 0))
     = Done tt (setPuck puck' (Examples.host Examples.incoming (Score.mk 0 0))) out
     /\ Body.y puck' = 560.75%float
     /\ Body.vy puck' = (-6.6000000000000014)%float
     /\ out = [Audio_play Sound.hit])
  /\ centreDistance
       (Body.set_y (500 + (500 - 540) / R_sqrt.sqrt (0 * 0 + (500 - 540) * (500 - 540))
                          * (20 + 32 - R_sqrt.sqrt (0 * 0 + (500 - 540) * (500 - 540))))%R
          (Body.set_x (200 + 0 / R_sqrt.sqrt (0 * 0 + (500 - 540) * (500 - 540))
                             * (20 + 32 - R_sqrt.sqrt (0 * 0 + (500 - 540) * (500 - 540))))%R
             RealExamples.incoming))
       (RealExamples.body 200 540 0 0 32)%R
     = (20 + 32)%R.
Proof.
  split.
  - pose proof (proj1 paddle_pushes_always_and_kicks_only_when_approaching float _
                (Examples.host Examples.incoming (Score.mk 0 0))
                Examples.incoming (Examples.body 187.5 609.5 0 0 30)%float
                eq_refl) as H.
    cbv zeta in H.
    destruct (H ltac:(vm_compute; reflexivity) ltac:(vm_compute; reflexivity))
      as (puck' & out & Hrun & Hx & Hy & Hkick & _).
    exists puck', out. split; [exact Hrun|].
    destruct (Hkick ltac:(vm_compute; reflexivity)) as (Hvx & Hvy & Hout).
    repeat split; [rewrite Hy|rewrite Hvy|exact Hout]; vm_compute; reflexivity.
  - pose proof (proj2 paddle_pushes_always_and_kicks_only_when_approaching
                  RealExamples.incoming (RealExamples.body 200 540 0 0 32)%R) as H.
    cbn in H.
    replace (200 - 200)%R with 0%R in H by lra.
    apply H.
    replace (0 * 0 + (500 - 540) * (500 - 540))%R with (40 * 40)%R by lra.
    rewrite sqrt_square; lra.
Defined.

(** *** Goals (C3, C2) *)

(** C3.  Let [q] be the puck after the flight of a tick (position,
    friction, clamp, side walls).  The tick has a goal if and only if [q]
    is beyond the top or the bottom wall and its [x] lies strictly between
    [goalLeft] and [goalRight] (top: the player scores, bottom: the
    opponent).  With [x] exactly at [goalLeft] or [goalRight] the test
    fails; and a puck beyond an end wall that fails the test is put back
    on the wall with [vy] reversed and scaled by 0.9, with the sound of a
    wall. *)
Theorem goal_iff_end_wall_crossed_strictly_inside_the_mouth
    {num : Type} {A : Arith num} {L : ArithLaws num} {M : MathFns num}
    (dt : num) (now : Z) (w : World num) (p : Body.t num) :
  Game.puck (game w) = Some p ->
  exists w1 out1 q,
    flight dt w = Done tt w1 out1 /\ Game.puck (game w1) = Some q /\
    let g := game w1 in
    let top := (Body.y q <? wallTop g q)%num in
    let bottom := (Body.y q >? wallBottom g q)%num in
    let inside := ((Body.x q >? goalLeft g) && (Body.x q <? goalRight g))%num in
    (In (Audio_play Sound.goal) (trace (updatePhysics dt now w))
     <-> (top || bottom) && inside = true)
    /\ (top && inside = true ->
        Game.score (game (world (updatePhysics dt now w)))
        = Score.incr Player (Game.score (game w)))
    /\ (top = false -> bottom && inside = true ->
        Game.score (game (world (updatePhysics dt now w)))
        = Score.incr Opponent (Game.score (game w)))
    /\ (Body.x q = goalLeft g \/ Body.x q = goalRight g -> inside = false)
    /\ (top = true -> inside = false ->
        topWall w1
        = Done false (setPuck (bounced (wallTop g q) q) w1) [Audio_play Sound.wall])
    /\ (forall w2 q2,
        Game.puck (game w2) = Some q2 ->
        (Body.y q2 >? wallBottom (game w2) q2)%num = true ->
        ((Body.x q2 >? goalLeft (game w2)) && (Body.x q2 <? goalRight (game w2)))%num
        = false ->
        bottomWall w2
        = Done false (setPuck (bounced (wallBottom (game w2) q2) q2) w2)
               [Audio_play Sound.wall]).
Proof.
  intros Hp.
  destruct (goal_iff_inside dt now w p Hp) as (w1 & out1 & q & Hf & Hq & H).
  exists w1, out1, q. split; [exact Hf|]. split; [exact Hq|].
  cbv zeta in *. destruct H as (Hiff & Htop & Hbot).
  split; [exact Hiff|]. split; [exact Htop|]. split; [exact Hbot|].
  split; [|split].
  - intros [-> | ->].
    + now rewrite ngt_irrefl.
    + now rewrite nlt_irrefl, andb_false_r.
  - intros Ht Hin. rewrite (topWall_cases w1 q Hq), Ht.
    unfold inGoalMouth. now rewrite Hin.
  - intros w2 q2 Hq2 Hb Hin. rewrite (bottomWall_cases w2 q2 Hq2), Hb.
    unfold inGoalMouth. now rewrite Hin.
Qed.

Lemma goal_iff_end_wall_crossed_strictly_inside_the_mouth_witness :
  Game.puck (game (RealExamples.host RealExamples.shot (Score.mk 0 0)))
  = Some RealExamples.shot
  /\ exists w1 out1 q,
      flight 1%R (RealExamples.host RealExamples.shot (Score.mk 0 0))
      = Done tt w1 out1
      /\ Game.puck (game w1) = Some q
      /\ (In (Audio_play Sound.goal)
            (trace (updatePhysics 1%R 0
                      (RealExamples.host RealExamples.shot (Score.mk 0 0))))
          <-> ((Body.y q <? wallTop (game w1) q)
               || (Body.y q >? wallBottom (game w1) q))%num
              && ((Body.x q >? goalLeft (game w1))
                  && (Body.x q <? goalRight (game w1)))%num = true).
Proof.
  split; [reflexivity|].
  destruct (goal_iff_end_wall_crossed_strictly_inside_the_mouth
              1%R 0 (RealExamples.host RealExamples.shot (Score.mk 0 0))
              RealExamples.shot eq_refl)
    as (w1 & out1 & q & Hf & Hq & Hiff & _).
  exists w1, out1, q. repeat split; try assumption; apply Hiff.
Defined.

Section GoalTickExample.
Local Open Scope R_scope.

(** A flight that needs no clamp and meets no side wall. *)
Lemma flight_free (w : World R) (p : Body.t R) (dt : R) :
  Game.puck (game w) = Some p -> 0 <= dt ->
  Body.vx p * Body.vx p + Body.vy p * Body.vy p <= 625 ->
  wallLeft (game w) p <= Body.x p + Body.vx p * dt <= wallRight (game w) p ->
  exists tr,
    flight dt w
    = Done tt (mkWorld
                 (Game.set_puckTrail tr
                    (Game.set_puck
                       (Some (Body.set_vy (Body.vy p * Math_pow friction dt)
                                (Body.set_vx (Body.vx p * Math_pow friction dt)
                                   (Body.set_y (Body.y p + Body.vy p * dt)
                                      (Body.set_x (Body.x p + Body.vx p * dt) p)))))
                       (game w)))
                 (net w)) [].
Proof.
  intros Hp Hdt Hv Hx.
  destruct (friction_factor dt Hdt) as [Hk0 Hk1].
  destruct Q2R_lits as (L0 & L1 & L2 & L09 & L25 & _).
  destruct (addToTrail_run w p Hp) as [tr H1]. exists tr.
  set (w0 := mkWorld (Game.set_puckTrail tr (game w)) (net w)) in *.
  assert (Hp0 : Game.puck (game w0) = Some p) by (destruct w as [[] ?]; exact Hp).
  pose proof (updatePuckPosition_run dt w0 p Hp0) as H2.
  set (p1 := Body.set_y _ _) in *.
  pose proof (applyFriction_run dt (setPuck p1 w0) p1 eq_refl) as H3.
  rewrite setPuck_setPuck in H3.
  set (p2 := Body.set_vy _ (Body.set_vx _ p1)) in *.
  pose proof (clampSpeed_run (setPuck p2 w0) p2 eq_refl) as H4.
  assert (Hslow : (speed p2 >? maxPuckSpeed)%num = false).
  { apply ngt_false. unfold maxPuckSpeed, speed. cbn in *. rewrite L25.
    set (k := Rpower (Q2R 0.995) dt) in *. apply sqrt_le; [lra|].
    assert (k * k <= 1) by nra.
    assert (0 <= Body.vx p * Body.vx p + Body.vy p * Body.vy p) by nra.
    nra. }
  rewrite Hslow in H4.
  pose proof (leftRightWalls_run (setPuck p2 w0) p2 eq_refl) as H5.
  assert (Hwl : wallLeft (game (setPuck p2 w0)) p2 = wallLeft (game w) p)
    by (destruct w as [[] ?]; reflexivity).
  assert (Hwr : wallRight (game (setPuck p2 w0)) p2 = wallRight (game w) p)
    by (destruct w as [[] ?]; reflexivity).
  assert (Hleft : (Body.x p2 <? wallLeft (game (setPuck p2 w0)) p2)%num = false).
  { apply nlt_false. rewrite Hwl. unfold wallLeft in *. cbn in *. lra. }
  assert (Hright : (Body.x p2 >? wallRight (game (setPuck p2 w0)) p2)%num = false).
  { apply ngt_false. rewrite Hwr. unfold wallRight in *. cbn in *. lra. }
  rewrite Hleft, Hright in H5.
  replace (mkWorld (Game.set_puckTrail tr (Game.set_puck (Some p2) (game w))) (net w))
    with (setPuck p2 w0) by (destruct w as [[] ?]; reflexivity).
  unfold flight.
  eapply (run_seq _ _ _ _ _ _ _ _ _ H1).
  eapply (run_seq _ _ _ _ _ _ _ _ _ H2).
  eapply (run_seq _ _ _ _ _ _ _ _ _ H3).
  eapply (run_seq _ _ _ _ _ _ _ _ _ H4).
  exact H5.
Qed.

(** A shot from in front of the opponent's goal scores in one tick. *)
Lemma shot_scores (score : Score.t) :
  In (Audio_play Sound.goal)
     (trace (updatePhysics 1 0 (RealExamples.host RealExamples.shot score))).
Proof.
  set (w := RealExamples.host RealExamples.shot score).
  destruct (flight_free w RealExamples.shot 1 eq_refl) as [tr Hf];
    [lra|cbn; lra|unfold wallLeft, wallRight; cbn; lra|].
  set (w1 := mkWorld _ _) in Hf.
  destruct (updatePhysics_after_flight 1 0 w w1 [] Hf) as [Ht _].
  rewrite Ht. cbn [app].
  pose proof (finishTick_spec 0 w1 _ eq_refl) as Hspec. cbv zeta in Hspec.
  destruct Q2R_lits as (L0 & L1 & L2 & _).
  match type of Hspec with (if ?c then _ else _) =>
    assert (Hc : c = true) end.
  { apply andb_true_iff. split.
    - apply nlt_true. unfold wallTop. cbn. lra.
    - unfold inGoalMouth. apply andb_true_iff. split.
      + apply ngt_true. unfold goalLeft. cbn. rewrite L2. lra.
      + apply nlt_true. unfold goalRight. cbn. rewrite L2. lra. }
  rewrite Hc in Hspec. destruct Hspec as [Etr _]. rewrite Etr.
  destruct (goalScored_done Player w1) as (w' & out & Hg & Hin & _).
  rewrite Hg. exact Hin.
Qed.
End GoalTickExample.

(** C2.  A tick of the host in which a goal is scored plays no paddle hit,
    sends no [gameState], and leaves the puck as the side walls left it:
    the paddles are not looked at.  A goal that brings the scorer to 11
    stops the loop and schedules no reset; and as long as the loop is
    stopped, no callback of the event loop (animation frame, reset timer,
    incoming message) starts it again or sends a [gameState]; an
    animation frame does nothing at all. *)
Theorem goal_tick_and_finished_match_send_no_gameState
    {num : Type} {A : Arith num} {M : MathFns num} :
  (forall (dt : num) (now : Z) (w : World num),
      In (Audio_play Sound.goal) (trace (updatePhysics dt now w)) ->
      ~ In (Audio_play Sound.hit) (trace (updatePhysics dt now w))
      /\ (forall e, In e (trace (updatePhysics dt now w)) -> ~ isBroadcast e)
      /\ Game.puck (game (world (updatePhysics dt now w)))
         = Game.puck (game (world (flight dt w))))
  /\ (forall (scorer : Side) (w : World num),
      (Score.get scorer (Game.score (game w)) + 1 >= winningScore)%Z ->
      exists w' out,
        goalScored scorer w = Done tt w' out
        /\ halted w'
        /\ Game.score (game w') = Score.incr scorer (Game.score (game w))
        /\ In (UI_showGameOver
                 (match scorer with Player => true | Opponent => false end)
                 (Score.player (Game.score (game w')))
                 (Score.opponent (Game.score (game w')))) out
        /\ (forall t ms, ~ In (setTimeout t ms) out))
  /\ (forall (cs : list Callback) (w : World num),
      halted w ->
      halted (fst (run cs w))
      /\ forall e, In e (snd (run cs w)) -> ~ isBroadcast e)
  /\ (forall (currentTime : num) (now id : Z) (w : World num),
      halted w -> gameLoop currentTime now id w = Done tt w []).
Proof.
  split; [|split; [|split]].
  - intros dt now w. apply goal_tick_is_quiet.
  - intros scorer w. apply goalScored_match_over.
  - intros cs w. apply run_halted.
  - intros t now id w Hw. unfold gameLoop, bind, getGame. cbn. rewrite Hw.
    reflexivity.
Qed.

(** The shot from in front of the goal; then, at 10 : 10, a goal of the
    opponent: 10 : 11, the opponent wins, the loop is stopped, and the
    next frame and the pending reset timer do nothing. *)
Lemma goal_tick_and_finished_match_send_no_gameState_witness :
  (~ In (Audio_play Sound.hit)
       (trace (updatePhysics 1%R 0
                 (RealExamples.host RealExamples.shot (Score.mk 0 0))))
   /\ forall e,
       In e (trace (updatePhysics 1%R 0
                      (RealExamples.host RealExamples.shot (Score.mk 0 0)))) ->
       ~ isBroadcast e)
  /\ exists w' out,
      goalScored Opponent (RealExamples.host RealExamples.shot (Score.mk 10 10))
      = Done tt w' out
      /\ halted w'
      /\ Game.score (game w') = Score.mk 10 11
      /\ In (UI_showGameOver false 10 11) out
      /\ forall t now id rnd now',
          snd (run [Frame t now id; Timeout (ResetPuck true) rnd now'] w') = [].
Proof.
  destruct (@goal_tick_and_finished_match_send_no_gameState R _ _)
    as (Hgoal & Hover & Hrun & Hloop).
  split.
  - destruct (Hgoal 1%R 0%Z (RealExamples.host RealExamples.shot (Score.mk 0 0))
                (shot_scores _)) as (Hhit & Hsend & _).
    split; assumption.
  - destruct (Hover Opponent (RealExamples.host RealExamples.shot (Score.mk 10 10)))
      as (w' & out & Hg & Hh & Hs & Hin & _); [cbn; unfold winningScore; lia|].
    exists w', out.
    split; [exact Hg|]. split; [exact Hh|]. split; [rewrite Hs; reflexivity|].
    split; [rewrite Hs in Hin; exact Hin|].
    intros t now id rnd now'. cbn [run dispatch].
    rewrite (Hloop t now id w' Hh). cbn [world trace].
    unfold fire, bind, getGame. unfold halted in Hh. rewrite Hh. reflexivity.
Defined.

(** *** Wall bounce, friction, clamp (C5, C6) *)

Section LeftWall.
Local Open Scope R_scope.

Lemma atLeftWall_clear_of_paddles :
  let w := RealExamples.host RealExamples.atLeftWall (Score.mk 0 0) in
  let atWall := Body.set_y (Game.height (game w) / 2)
                  (Body.set_x (wallLeft (game w) RealExamples.atLeftWall)
                     RealExamples.atLeftWall) in
  20 + 32 <= centreDistance atWall (RealExamples.body 200 540 0 0 32)
  /\ 20 + 32 <= centreDistance atWall (RealExamples.body 200 60 0 0 32).
Proof.
  unfold centreDistance, wallLeft. cbn. split; apply le_sqrt; lra.
Qed.

(** C5, as the spec states it, fails for a tick of one reference frame
    ([dt = 1]): the puck leaves the left wall with [vx = 2.6865], not 2.7,
    because friction is applied before the bounce. *)
Lemma left_wall_bounce_after_one_frame_is_not_2_7 :
  exists w' out p',
    updatePhysics 1 0 (RealExamples.host RealExamples.atLeftWall (Score.mk 0 0))
    = Done tt w' out
    /\ Game.puck (game w') = Some p'
    /\ Body.x p' = 28
    /\ Body.vx p' = 26865 / 10000
    /\ Body.vx p' <> 27 / 10.
Proof.
  destruct atLeftWall_clear_of_paddles as [Hpp Hop].
  destruct (wall_bounce_general
              (RealExamples.host RealExamples.atLeftWall (Score.mk 0 0))
              RealExamples.atLeftWall _ _ 1 0 eq_refl eq_refl eq_refl)
    as (w' & out & p' & Hrun & Hp' & Hx & _ & Hvx & _);
    try (unfold wallLeft, wallTop, wallBottom; cbn; lra);
    try assumption.
  exists w', out, p'. rewrite friction_factor_1 in Hvx.
  unfold wallLeft in Hx. cbn in Hx.
  repeat split; try assumption; lra.
Qed.
End LeftWall.

Section LeftWallAsComputed.
Context {num : Type} {A : Arith num} {M : MathFns num}.
Local Open Scope num_scope.

(** A tick that takes the branches of the scenario - no clamp, the left
    wall reached, no end wall reached, no paddle in reach - on any
    numbers, with the tests as the code computes them. *)
Lemma left_wall_bounce_as_computed (w : World num) (p pp op : Body.t num)
    (dt : num) (now : Z) :
  Game.puck (game w) = Some p ->
  Game.playerPaddle (game w) = Some pp ->
  Game.opponentPaddle (game w) = Some op ->
  let g := game w in
  let k := Math_pow friction dt in
  let flown :=
    Body.set_vy (Body.vy p * k)
      (Body.set_vx (Body.vx p * k)
         (Body.set_y (Body.y p + Body.vy p * dt)
            (Body.set_x (Body.x p + Body.vx p * dt) p))) in
  let atWall :=
    Body.set_vx (- Body.vx flown * lit 0.9) (Body.set_x (wallLeft g p) flown) in
  (speed flown >? maxPuckSpeed) = false ->
  (Body.x flown <? wallLeft g p) = true ->
  (Body.y atWall <? wallTop g p) = false ->
  (Body.y atWall >? wallBottom g p) = false ->
  (centreDistance atWall pp <? Body.radius p + Body.radius pp)
    && (centreDistance atWall pp >? lit 0) = false ->
  (centreDistance atWall op <? Body.radius p + Body.radius op)
    && (centreDistance atWall op >? lit 0) = false ->
  exists w' out,
    updatePhysics dt now w = Done tt w' out
    /\ Game.puck (game w') = Some atWall
    /\ In (Audio_play Sound.wall) out.
Proof.
  intros Hp Hpp Hop g k flown atWall Hslow Hleft Htop Hbot Hmp Hmo.
  destruct (addToTrail_run w p Hp) as [tr H1].
  set (w0 := mkWorld (Game.set_puckTrail tr (game w)) (net w)) in *.
  assert (Hp0 : Game.puck (game w0) = Some p) by (destruct w as [[] ?]; exact Hp).
  pose proof (updatePuckPosition_run dt w0 p Hp0) as H2.
  set (p1 := Body.set_y _ _) in H2.
  pose proof (applyFriction_run dt (setPuck p1 w0) p1 eq_refl) as H3.
  rewrite setPuck_setPuck in H3. fold k in H3.
  change (Body.set_vy (Body.vy p1 * k) (Body.set_vx (Body.vx p1 * k) p1))
    with flown in H3.
  pose proof (clampSpeed_run (setPuck flown w0) flown eq_refl) as H4.
  rewrite Hslow in H4.
  pose proof (leftRightWalls_run (setPuck flown w0) flown eq_refl) as H5.
  assert (Hwl : wallLeft (game (setPuck flown w0)) flown = wallLeft g p)
    by (subst g; destruct w as [[] ?]; reflexivity).
  rewrite Hwl, Hleft, setPuck_setPuck in H5. fold atWall in H5.
  set (w5 := setPuck atWall w0) in *.
  assert (Hflight : flight dt w = Done tt w5 [Audio_play Sound.wall]).
  { unfold flight.
    eapply (run_seq _ _ _ _ _ _ _ _ _ H1).
    eapply (run_seq _ _ _ _ _ _ _ _ _ H2).
    eapply (run_seq _ _ _ _ _ _ _ _ _ H3).
    eapply (run_seq _ _ _ _ _ _ _ _ _ H4).
    exact H5. }
  assert (Hp5 : Game.puck (game w5) = Some atWall) by reflexivity.
  assert (Hwalls : wallTop (game w5) atWall = wallTop g p
                   /\ wallBottom (game w5) atWall = wallBottom g p).
  { subst g. destruct w as [[] ?]. split; reflexivity. }
  destruct Hwalls as [Hwt Hwb].
  pose proof (topWall_cases w5 atWall Hp5) as H6. rewrite Hwt, Htop in H6.
  pose proof (bottomWall_cases w5 atWall Hp5) as H7. rewrite Hwb, Hbot in H7.
  assert (Hmiss : forall pd,
     (centreDistance atWall pd <? Body.radius p + Body.radius pd)
       && (centreDistance atWall pd >? lit 0) = false ->
     checkPaddleCollision (Some pd) w5 = Done tt w5 []).
  { intros pd Hpd. apply (checkPaddleCollision_miss w5 atWall pd Hp5). exact Hpd. }
  assert (Hpaddles : paddleCollisions w5 = Done tt w5 []).
  { assert (Hpp5 : Game.playerPaddle (game w5) = Some pp)
      by (destruct w as [[] ?]; exact Hpp).
    assert (Hop5 : Game.opponentPaddle (game w5) = Some op)
      by (destruct w as [[] ?]; exact Hop).
    unfold paddleCollisions, bind, getGame.
    rewrite Hpp5, (Hmiss pp Hmp). cbn [game]. rewrite Hop5, (Hmiss op Hmo).
    reflexivity. }
  destruct (sendPuckState_run now w5 atWall Hp5) as (n' & out & H8).
  exists (mkWorld (game w5) n'), ([Audio_play Sound.wall] ++ [] ++ [] ++ [] ++ out).
  split.
  { unfold updatePhysics. eapply (run_seq _ _ _ _ _ _ _ _ _ Hflight).
    unfold finishTick.
    eapply (run_seq _ _ _ _ _ _ _ _ _ H6). cbn iota.
    eapply (run_seq _ _ _ _ _ _ _ _ _ H7). cbn iota.
    eapply (run_seq _ _ _ _ _ _ _ _ _ Hpaddles). exact H8. }
  split; [reflexivity|now left].
Qed.

End LeftWallAsComputed.

(** C5, amended.  On the numbers the code computes with (first part, for
    every arithmetic and every [Math.pow]): a tick that takes the
    branches of the scenario - no clamp, the left wall reached, no end
    wall reached, no paddle in reach, each test as the code computes it -
    puts the puck exactly on [x = wallLeft], plays the wall sound, and
    leaves the velocity that the code computes,
    [(-(vx * Math.pow(0.995, dt)) * 0.9, vy * Math.pow(0.995, dt))]:
    friction first, then reversed and scaled by 0.9.  In real arithmetic
    (second part): for a puck one pixel beyond the left wall at mid
    height with velocity [(-3, 0)], paddles out of reach, and
    [0 <= dt <= 2], the tick takes these branches and that velocity is
    [(2.7 * 0.995^dt, 0)]; it is exactly [(2.7, 0)] for [dt = 0] only.
    On binary64 numbers the computed velocity agrees with
    [2.7 * 0.995^dt] up to rounding only. *)
Theorem left_wall_bounce_reverses_scales_and_applies_friction :
  (forall (num : Type) (A : Arith num) (M : MathFns num)
          (w : World num) (p pp op : Body.t num) (dt : num) (now : Z),
      Game.puck (game w) = Some p ->
      Game.playerPaddle (game w) = Some pp ->
      Game.opponentPaddle (game w) = Some op ->
      let g := game w in
      let k := Math_pow friction dt in
      let flown :=
        Body.set_vy (Body.vy p * k)%num
          (Body.set_vx (Body.vx p * k)%num
             (Body.set_y (Body.y p + Body.vy p * dt)%num
                (Body.set_x (Body.x p + Body.vx p * dt)%num p))) in
      let atWall :=
        Body.set_vx (- Body.vx flown * lit 0.9)%num
          (Body.set_x (wallLeft g p) flown) in
      (speed flown >? maxPuckSpeed)%num = false ->
      (Body.x flown <? wallLeft g p)%num = true ->
      (Body.y atWall <? wallTop g p)%num = false ->
      (Body.y atWall >? wallBottom g p)%num = false ->
      ((centreDistance atWall pp <? Body.radius p + Body.radius pp)
         && (centreDistance atWall pp >? lit 0))%num = false ->
      ((centreDistance atWall op <? Body.radius p + Body.radius op)
         && (centreDistance atWall op >? lit 0))%num = false ->
      exists w' out p',
        updatePhysics dt now w = Done tt w' out
        /\ Game.puck (game w') = Some p'
        /\ Body.x p' = wallLeft g p
        /\ Body.y p' = (Body.y p + Body.vy p * dt)%num
        /\ Body.vx p' = (- (Body.vx p * Math_pow friction dt) * lit 0.9)%num
        /\ Body.vy p' = (Body.vy p * Math_pow friction dt)%num
        /\ Body.radius p' = Body.radius p
        /\ In (Audio_play Sound.wall) out)
  /\ (forall (w : World R) (p pp op : Body.t R) (dt : R) (now : Z),
      Game.puck (game w) = Some p ->
      Game.playerPaddle (game w) = Some pp ->
      Game.opponentPaddle (game w) = Some op ->
      let g := game w in
      let mid := (Game.height g / 2)%R in
      Body.x p = (wallLeft g p - 1)%R -> Body.y p = mid ->
      Body.vx p = (-3)%R -> Body.vy p = 0%R ->
      (0 <= dt <= 2)%R ->
      (wallTop g p <= mid <= wallBottom g p)%R ->
      let atWall := Body.set_y mid (Body.set_x (wallLeft g p) p) in
      (Body.radius p + Body.radius pp <= centreDistance atWall pp)%R ->
      (Body.radius p + Body.radius op <= centreDistance atWall op)%R ->
      exists w' out p',
        updatePhysics dt now w = Done tt w' out
        /\ Game.puck (game w') = Some p'
        /\ Body.x p' = wallLeft g p /\ Body.y p' = mid
        /\ Body.vx p' = (- (Body.vx p * Math_pow friction dt) * lit 0.9)%num
        /\ Body.vx p' = (27/10 * Math_pow friction dt)%R /\ Body.vy p' = 0%R
        /\ In (Audio_play Sound.wall) out
        /\ (dt = 0%R -> Body.vx p' = (27/10)%R)
        /\ (0 < dt -> Body.vx p' < 27/10)%R).
Proof.
  split.
  - intros num A M w p pp op dt now Hp Hpp Hop g k flown atWall
           Hslow Hleft Htop Hbot Hmp Hmo.
    destruct (left_wall_bounce_as_computed w p pp op dt now Hp Hpp Hop
                Hslow Hleft Htop Hbot Hmp Hmo) as (w' & out & Hrun & Hp' & Hin).
    exists w', out, atWall. split; [exact Hrun|]. split; [exact Hp'|].
    repeat split. exact Hin.
  - intros w p pp op dt now Hp Hpp Hop g mid Hx Hy Hvx Hvy Hdt Hmid atWall Hcp Hco.
    destruct (wall_bounce_general w p pp op dt now Hp Hpp Hop Hx Hy Hvx Hvy Hdt
                Hmid Hcp Hco)
      as (w' & out & p' & Hrun & Hp' & Hx' & Hy' & Hvx' & Hvy' & Hin).
    exists w', out, p'. repeat split; try assumption.
    + rewrite Hvx', Hvx. cbn [lit Real.arith nneg nmul].
      destruct Q2R_lits as (_ & _ & _ & -> & _). lra.
    + intros ->. rewrite Hvx', friction_factor_0. lra.
    + intros Hpos. rewrite Hvx'.
      assert (Hk : (Math_pow friction dt < 1)%R).
      { cbn. destruct Q2R_lits as (_ & _ & _ & _ & _ & _ & _ & _ & ->).
        unfold Rpower. rewrite <- exp_0. apply exp_increasing.
        assert (Hln : (ln (995 / 1000) < 0)%R).
        { rewrite <- ln_1. apply ln_increasing; lra. }
        nra. }
      lra.
Qed.

(** The scenario in the 400 x 600 arena with [dt = 0]: both parts. *)
Lemma left_wall_bounce_reverses_scales_and_applies_friction_witness :
  (exists w' out p',
      updatePhysics 0%R 0 (RealExamples.host RealExamples.atLeftWall (Score.mk 0 0))
      = Done tt w' out
      /\ Game.puck (game w') = Some p'
      /\ Body.x p' = wallLeft (game (RealExamples.host RealExamples.atLeftWall
                                       (Score.mk 0 0))) RealExamples.atLeftWall
      /\ Body.vx p' = (- (Body.vx RealExamples.atLeftWall * Math_pow friction 0%R)
                       * lit 0.9)%num)
  /\ exists w' out p',
      updatePhysics 0%R 0 (RealExamples.host RealExamples.atLeftWall (Score.mk 0 0))
      = Done tt w' out
      /\ Game.puck (game w') = Some p'
      /\ Body.x p' = 28%R
      /\ Body.vx p' = (27 / 10)%R
      /\ In (Audio_play Sound.wall) out.
Proof.
  destruct atLeftWall_clear_of_paddles as [Hpp Hop].
  split.
  - destruct (proj1 left_wall_bounce_reverses_scales_and_applies_friction
                R _ _ (RealExamples.host RealExamples.atLeftWall (Score.mk 0 0))
                RealExamples.atLeftWall _ _ 0%R 0%Z eq_refl eq_refl eq_refl)
      as (w' & out & p' & Hrun & Hp' & Hx & _ & Hvx & _).
    + apply ngt_false. unfold speed, maxPuckSpeed.
      cbn [Body.vx Body.vy Body.set_vx Body.set_vy Body.set_x Body.set_y
           RealExamples.atLeftWall RealExamples.body nsqrt nadd nmul lit Real.arith].
      rewrite friction_factor_0. destruct Q2R_lits as (_ & _ & _ & _ & -> & _).
      apply sqrt_le; lra.
    + apply nlt_true. unfold wallLeft. cbn. lra.
    + apply nlt_false. unfold wallTop. cbn. lra.
    + apply ngt_false. unfold wallBottom. cbn. lra.
    + apply andb_false_iff. left. apply nlt_false.
      unfold centreDistance, wallLeft. cbn. apply le_sqrt; lra.
    + apply andb_false_iff. left. apply nlt_false.
      unfold centreDistance, wallLeft. cbn. apply le_sqrt; lra.
    + exists w', out, p'. repeat split; assumption.
  - destruct (proj2 left_wall_bounce_reverses_scales_and_applies_friction
                (RealExamples.host RealExamples.atLeftWall (Score.mk 0 0))
                RealExamples.atLeftWall _ _ 0%R 0%Z eq_refl eq_refl eq_refl)
      as (w' & out & p' & Hrun & Hp' & Hx & _ & _ & _ & _ & Hin & H0 & _);
      try (unfold wallLeft, wallTop, wallBottom; cbn; lra);
      try assumption.
    exists w', out, p'. unfold wallLeft in Hx. cbn in Hx.
    repeat split; try assumption; [lra|now apply H0].
Defined.

(** On binary64 numbers the velocity that the tick computes and
    [2.7 * Math.pow(0.995, dt)] differ in the last place: with
    [dt = 1.5] and [k = 0.9925093828271851] for [Math.pow(0.995, 1.5)],
    the code computes [-(-3 * k) * 0.9]. *)
Lemma the_bounce_velocity_is_rounded_in_binary64 :
  let k := 0.9925093828271851%float in
  (- ((-3)%float * k) * lit 0.9)%num = 2.6797753336333998%float
  /\ (lit 2.7 * k)%num = 2.6797753336334003%float
  /\ (- ((-3)%float * k) * lit 0.9)%num <> (lit 2.7 * k)%num.
Proof.
  cbv zeta. split; [vm_compute; reflexivity|]. split; [vm_compute; reflexivity|].
  vm_compute. discriminate.
Qed.

(** C6, as the spec states it, fails on binary64 numbers: a puck with
    velocity [(20, 20)] is above the cap, and after "Clamp speed" its
    speed, computed as the code computes it, is [24.999999999999996];
    the exact sum of the squares of its components is below 625. *)
Lemma clamped_speed_is_not_maxPuckSpeed_in_binary64 :
  (speed Examples.fast >? maxPuckSpeed)%num = true
  /\ exists p',
      clampSpeed (Examples.host Examples.fast (Score.mk 0 0))
      = Done tt (setPuck p' (Examples.host Examples.fast (Score.mk 0 0))) []
      /\ speed p' = 24.999999999999996%float
      /\ speed p' <> maxPuckSpeed
      /\ exists q, Examples.exactSquaredSpeed p' = Some q /\ (q < 625)%Q.
Proof.
  split; [vm_compute; reflexivity|].
  eexists. split; [vm_compute; reflexivity|].
  split; [vm_compute; reflexivity|].
  split; [vm_compute; discriminate|].
  eexists. split; [vm_compute; reflexivity|]. vm_compute. reflexivity.
Qed.

(** C6, amended.  In real arithmetic: for [0 <= dt <= 2] the friction
    step scales both components by [0.995^dt] and so never raises the
    speed; and when the speed is above [maxPuckSpeed], "Clamp speed"
    scales the velocity by the positive factor [maxPuckSpeed / speed], so
    that the direction is kept and the speed is [maxPuckSpeed]. *)
Theorem friction_never_speeds_up_and_clamp_hits_maxPuckSpeed
    (w : World R) (p : Body.t R) (dt : R) :
  Game.puck (game w) = Some p ->
  (0 <= dt <= 2)%R ->
  (exists p',
      applyFriction dt w = Done tt (setPuck p' w) []
      /\ Body.vx p' = (Body.vx p * Math_pow friction dt)%R
      /\ Body.vy p' = (Body.vy p * Math_pow friction dt)%R
      /\ (speed p' <= speed p)%R)
  /\ ((maxPuckSpeed < speed p)%R ->
      exists p' c,
        clampSpeed w = Done tt (setPuck p' w) []
        /\ speed p' = maxPuckSpeed
        /\ (0 < c)%R
        /\ Body.vx p' = (c * Body.vx p)%R /\ Body.vy p' = (c * Body.vy p)%R).
Proof.
  intros Hp [Hdt _]. split; [now apply friction_slows|].
  destruct Q2R_lits as (_ & _ & _ & _ & L25 & _).
  unfold maxPuckSpeed. cbn [lit Real.arith]. rewrite L25. intros Hs.
  destruct (clamp_exact w p Hp Hs) as (p' & Hrun & Hsp & Hvx & Hvy).
  exists p', (25 / speed p)%R. repeat split; try assumption.
  apply Rdiv_lt_0_compat; lra.
Qed.

Lemma friction_never_speeds_up_and_clamp_hits_maxPuckSpeed_witness :
  exists p',
    clampSpeed (RealExamples.host RealExamples.fast (Score.mk 0 0))
    = Done tt (setPuck p' (RealExamples.host RealExamples.fast (Score.mk 0 0))) []
    /\ speed p' = maxPuckSpeed.
Proof.
  destruct (friction_never_speeds_up_and_clamp_hits_maxPuckSpeed
              (RealExamples.host RealExamples.fast (Score.mk 0 0))
              RealExamples.fast 1%R eq_refl) as [_ Hclamp]; [lra|].
  destruct Hclamp as (p' & c & Hrun & Hsp & _).
  - unfold maxPuckSpeed, speed. cbn.
    destruct Q2R_lits as (_ & _ & _ & _ & -> & _). apply lt_sqrt; lra.
  - exists p'. split; assumption.
Defined.

(** *** Mirroring (C1) and the score (C4) *)

Lemma mirrorTwice_run {num : Type} {A : Arith num}
    (state : State.t num) (w : World num) (p : Body.t num) :
  Game.isHost (game w) = false -> Game.puck (game w) = Some p ->
  mirrorTwice state w
  = Some (State.mk
            (Game.width (game w) - (Game.width (game w) - State.x state))%num
            (Game.height (game w) - (Game.height (game w) - State.y state))%num
            (- - State.vx state)%num (- - State.vy state)%num
            (State.score state)).
Proof.
  intros Hh Hp.
  destruct (updateFromHost_run state w p Hh Hp)
    as (w1 & out1 & Hrun1 & Hp1 & Hs1 & Hw1 & Hh1 & Hhost1 & _).
  set (st1 := snapshot (mirrored (game w) state p) (game w1)).
  destruct (updateFromHost_run st1 w1 _ Hhost1 Hp1)
    as (w2 & out2 & Hrun2 & Hp2 & Hs2 & _).
  unfold mirrorTwice. rewrite Hrun1. cbn [world]. rewrite Hp1. fold st1.
  rewrite Hrun2. cbn [world]. rewrite Hp2. cbn [option_map].
  unfold snapshot, mirrored. rewrite Hs2, Hw1, Hh1. subst st1.
  unfold snapshot, mirrored. cbn. rewrite Hs1.
  destruct state as [? ? ? ? [? ?]]. reflexivity.
Qed.

(** C1, as the spec states it, fails on binary64 numbers: a guest in a
    375 x 667 arena that is sent a puck at [x = 100.1] holds, after two
    applications of the transform, a puck at [x = 100.10000000000002]. *)
Lemma mirror_twice_moves_the_puck_in_binary64 :
  option_map State.x
    (mirrorTwice Examples.broadcast (Examples.guest (Score.mk 0 0)))
  = Some 100.10000000000002%float
  /\ State.x Examples.broadcast = 100.1%float
  /\ mirrorTwice Examples.broadcast (Examples.guest (Score.mk 0 0))
     <> Some Examples.broadcast.
Proof.
  split; [vm_compute; reflexivity|]. split; [reflexivity|].
  vm_compute. discriminate.
Qed.

(** C1, amended.  In real arithmetic the transform is an involution on
    position, velocity and score, for every arena; so is the position
    mirror of a paddle message.  On binary64 numbers it is an involution
    on velocity and score, and the position comes back as
    [w - (w - x)], which rounds twice. *)
Theorem mirror_is_involutive_in_exact_arithmetic :
  (forall (w : World R) (p : Body.t R) (state : State.t R),
      Game.isHost (game w) = false -> Game.puck (game w) = Some p ->
      mirrorTwice state w = Some state)
  /\ (forall (w : World R) (paddle : Body.t R) (x y : R),
      Game.opponentPaddle (game w) = Some paddle ->
      exists paddle',
        updateOpponentPaddle x y w = Done tt (setOpponentPaddle paddle' w) []
        /\ (Game.width (game w) - Body.x paddle' = x)%R
        /\ (Game.height (game w) - Body.y paddle' = y)%R)
  /\ (forall (w : World float) (p : Body.t float) (state : State.t float),
      Game.isHost (game w) = false -> Game.puck (game w) = Some p ->
      exists state',
        mirrorTwice state w = Some state'
        /\ State.x state'
           = (Game.width (game w) - (Game.width (game w) - State.x state))%float
        /\ State.y state'
           = (Game.height (game w) - (Game.height (game w) - State.y state))%float
        /\ State.vx state' = State.vx state
        /\ State.vy state' = State.vy state
        /\ State.score state' = State.score state).
Proof.
  split; [|split].
  - intros w p state Hh Hp. rewrite (mirrorTwice_run state w p Hh Hp).
    destruct state as [x y vx vy sc]. cbn. f_equal. f_equal; lra.
  - intros w paddle x y Hp.
    destruct (updateOpponentPaddle_run w paddle x y Hp) as (paddle' & _ & Hrun & Hx & Hy).
    exists paddle'. split; [exact Hrun|]. rewrite Hx, Hy. cbn. split; lra.
  - intros w p state Hh Hp. eexists. split; [apply (mirrorTwice_run state w p Hh Hp)|].
    cbn. rewrite !opp_involutive. repeat split.
Qed.

Lemma mirror_is_involutive_in_exact_arithmetic_witness :
  mirrorTwice RealExamples.broadcast
    (RealExamples.guest RealExamples.shot (Score.mk 0 0))
  = Some RealExamples.broadcast
  /\ exists state',
      mirrorTwice Examples.broadcast (Examples.guest (Score.mk 0 0)) = Some state'
      /\ State.vx state' = 3.3%float /\ State.vy state' = (-4.1)%float
      /\ State.score state' = Score.mk 2 1.
Proof.
  destruct mirror_is_involutive_in_exact_arithmetic as (Hreal & _ & Hfloat).
  split.
  - exact (Hreal (RealExamples.guest RealExamples.shot (Score.mk 0 0)) _ _
                 eq_refl eq_refl).
  - destruct (Hfloat (Examples.guest (Score.mk 0 0)) _ Examples.broadcast
                     eq_refl eq_refl) as (state' & Hrun & _ & _ & Hvx & Hvy & Hsc).
    exists state'. repeat split; assumption.
Defined.

(** C4, as stated, fails for the guest: [updateFromHost] overwrites the
    score with whatever the message carries.  A guest at 2 : 1 that
    receives the first broadcast of a new match (0 : 0) is at 0 : 0. *)
Lemma guest_score_goes_down_with_the_message :
  Game.score (game (Examples.guest (Score.mk 2 1))) = Score.mk 2 1
  /\ Game.score (game (world (updateFromHost Examples.kickoff
                                (Examples.guest (Score.mk 2 1)))))
     = Score.mk 0 0
  /\ (Score.player
        (Game.score (game (world (updateFromHost Examples.kickoff
                                    (Examples.guest (Score.mk 2 1)))))) <
      Score.player (Game.score (game (Examples.guest (Score.mk 2 1)))))%Z.
Proof. repeat split. Qed.

(** C4, amended.  On the host, [goalScored] adds exactly one to the score
    of the scorer and leaves the other score alone, so no score goes
    down; on the guest, [updateFromHost] replaces the score by the
    swapped score of the message, so no score goes down exactly when the
    message carries scores that are not below the guest's.  In both, the
    match-over is announced if and only if a score is at least 11
    afterwards - for the host, when both scores were below 11 before,
    exactly when the scorer reaches 11 - and it stops the loop. *)
Theorem score_changes_and_match_over
    {num : Type} {A : Arith num} (w : World num) :
  (forall scorer : Side,
      exists w' out,
        goalScored scorer w = Done tt w' out
        /\ Game.score (game w') = Score.incr scorer (Game.score (game w))
        /\ (Score.player (Game.score (game w))
            <= Score.player (Game.score (game w')))%Z
        /\ (Score.opponent (Game.score (game w))
            <= Score.opponent (Game.score (game w')))%Z
        /\ (matchOver out
            <-> (Score.get scorer (Game.score (game w')) >= winningScore)%Z)
        /\ ((Score.player (Game.score (game w)) < winningScore)%Z ->
            (Score.opponent (Game.score (game w)) < winningScore)%Z ->
            (matchOver out
             <-> (Score.player (Game.score (game w')) = winningScore
                  \/ Score.opponent (Game.score (game w')) = winningScore)))
        /\ (matchOver out -> halted w')
        /\ (~ matchOver out -> Game.isRunning (game w') = Game.isRunning (game w)))
  /\ (forall (state : State.t num) (p : Body.t num),
      Game.isHost (game w) = false -> Game.puck (game w) = Some p ->
      exists w' out,
        updateFromHost state w = Done tt w' out
        /\ Game.score (game w') = swapped (State.score state)
        /\ ((Score.player (Game.score (game w))
             <= Score.player (Game.score (game w'))
             /\ Score.opponent (Game.score (game w))
                <= Score.opponent (Game.score (game w')))%Z
            <-> (Score.player (Game.score (game w))
                 <= Score.opponent (State.score state)
                 /\ Score.opponent (Game.score (game w))
                    <= Score.player (State.score state))%Z)
        /\ (matchOver out
            <-> (Score.player (Game.score (game w')) >= winningScore
                 \/ Score.opponent (Game.score (game w')) >= winningScore)%Z)
        /\ (matchOver out -> halted w')
        /\ (~ matchOver out -> Game.isRunning (game w') = Game.isRunning (game w))).
Proof.
  split.
  - intros scorer.
    destruct (goalScored_run scorer w) as (w' & out & Hrun & Hs & Hover & Hhalt & Hkeep).
    exists w', out. rewrite Hs in *. clear Hs.
    destruct (Game.score (game w)) as [a b].
    unfold winningScore in *.
    split; [exact Hrun|]. split; [reflexivity|].
    destruct scorer; cbn [Score.get Score.incr Score.player Score.opponent] in *;
      (split; [lia|]; split; [lia|]; split; [exact Hover|];
       split; [intros; rewrite Hover; lia|]; split; assumption).
  - intros state p Hh Hp.
    destruct (updateFromHost_run state w p Hh Hp)
      as (w' & out & Hrun & _ & Hs & _ & _ & _ & Hover & Hhalt & Hkeep).
    exists w', out. rewrite Hs. clear Hs.
    split; [exact Hrun|]. split; [reflexivity|].
    split; [cbn; tauto|]. split; [exact Hover|]. split; assumption.
Qed.

Lemma score_changes_and_match_over_witness :
  (exists w' out,
     goalScored Opponent (Examples.host Examples.centre (Score.mk 10 10))
     = Done tt w' out
     /\ Game.score (game w') = Score.mk 10 11 /\ matchOver out /\ halted w')
  /\ exists w' out,
      updateFromHost Examples.broadcast (Examples.guest (Score.mk 0 0))
      = Done tt w' out
      /\ Game.score (game w') = Score.mk 1 2 /\ ~ matchOver out.
Proof.
  split.
  - destruct (proj1 (score_changes_and_match_over
                       (Examples.host Examples.centre (Score.mk 10 10))) Opponent)
      as (w' & out & Hrun & Hs & _ & _ & Hover & _ & Hhalt & _).
    exists w', out. split; [exact Hrun|]. split; [exact Hs|].
    assert (Hm : matchOver out) by (apply Hover; rewrite Hs; cbn; unfold winningScore; lia).
    split; [exact Hm|now apply Hhalt].
  - destruct (proj2 (score_changes_and_match_over (Examples.guest (Score.mk 0 0)))
                Examples.broadcast Examples.centre eq_refl eq_refl)
      as (w' & out & Hrun & Hs & _ & Hover & _).
    exists w', out. split; [exact Hrun|]. split; [exact Hs|].
    intros Hm. apply Hover in Hm. rewrite Hs in Hm. cbn in Hm.
    unfold winningScore in Hm. lia.
Defined.

(** *** The promise of [createGame] (C7) *)

(** C7, as the spec states it, fails: the promise of [createGame] is
    fulfilled, with the room code, by the ['open'] event of the host's own
    peer.  At that moment no guest has connected ([connection] is [null],
    [isConnected] is false); and the 60 s timer, firing with still no
    guest, finds the promise settled and rejects nothing. *)
Lemma createGame_is_fulfilled_before_any_guest_connects :
  statusOf 0 hosting = Some Promise.pending
  /\ statusOf 0 (handleAll [peer_open 0] hosting)
     = Some (Promise.fulfilled (Some "4821"%string))
  /\ Network.connection (network (handleAll [peer_open 0] hosting)) = None
  /\ Network.isConnected (network (handleAll [peer_open 0] hosting)) = false
  /\ statusOf 0 (handleAll [peer_open 0; timeout_60000 0] hosting)
     = Some (Promise.fulfilled (Some "4821"%string)).
Proof. vm_compute. repeat split. Qed.

(** [generateRoomCode] rounds as the code does: [0.4444444444444444 * 9000]
    is 4000 in binary64, not 3999.99... *)
Lemma generateRoomCode_rounds_as_binary64 :
  generateRoomCode (mkRandom 0.4444444444444444%float eq_refl) = "5000"%string
  /\ generateRoomCode (mkRandom 0%float eq_refl) = "1000"%string
  /\ generateRoomCode (mkRandom 0.9999999999999999%float eq_refl) = "9999"%string.
Proof. vm_compute. repeat split. Qed.

Lemma handleAll_keeps_settled (es : list SessionEvent) (s : Session) (k : nat)
    (st : Promise.state) :
  statusOf k s = Some st -> st <> Promise.pending ->
  statusOf k (handleAll es s) = Some st.
Proof.
  revert s. induction es as [|e es IH]; intros s Hk Hst; cbn [handleAll];
    [exact Hk|].
  apply IH; [|exact Hst]. now apply handle_keeps_settled.
Qed.

(** C7, amended.  The promise of [createGame] is fulfilled, with the
    room code, by the ['open'] event of the host's own peer, whether or
    not a guest has connected: the caller waits for it to show the code.
    A guest that connects, and its channel that opens, do not settle the
    promise; the opening marks the session connected ([isConnected]).
    While the promise is pending, the 60 s timer rejects it with the
    timeout error if the session is not connected, and leaves it alone
    if it is. *)
Theorem createGame_promise_settles_on_the_hosts_own_open
    (s : Session) (k : nat) :
  statusOf k s = Some Promise.pending ->
  statusOf k (fst (handle (peer_open k) s))
  = Some (Promise.fulfilled (Network.roomCode (network s)))
  /\ (forall j conn,
        statusOf k (fst (handle (peer_connection j conn) s))
        = Some Promise.pending)
  /\ (forall j,
        statusOf k (fst (handle (conn_open j) s)) = Some Promise.pending
        /\ Network.isConnected (network (fst (handle (conn_open j) s))) = true)
  /\ (Network.isConnected (network s) = false ->
      statusOf k (fst (handle (timeout_60000 k) s))
      = Some (Promise.rejected Promise.Timeout_waiting_for_connection))
  /\ (Network.isConnected (network s) = true ->
      statusOf k (fst (handle (timeout_60000 k) s)) = Some Promise.pending).
Proof.
  intros Hk. split; [now apply handle_peer_open|].
  split; [intros j conn; exact Hk|].
  split; [intros j; split; [exact Hk|reflexivity]|].
  pose proof (handle_timeout s k Hk) as Ht.
  split; [intros Hc; now rewrite Hc in Ht|].
  intros Hc; now rewrite Hc in Ht.
Qed.

Lemma createGame_promise_settles_on_the_hosts_own_open_witness :
  statusOf 0 hosting = Some Promise.pending
  /\ statusOf 0 (fst (handle (peer_open 0) hosting))
     = Some (Promise.fulfilled (Some "4821"%string))
  /\ statusOf 0 (fst (handle (timeout_60000 0) hosting))
     = Some (Promise.rejected Promise.Timeout_waiting_for_connection).
Proof.
  split; [reflexivity|].
  destruct (createGame_promise_settles_on_the_hosts_own_open hosting 0 eq_refl)
    as (Hopen & _ & _ & Htimeout & _).
  split; [exact Hopen|exact (Htimeout eq_refl)].
Defined.

(** *** The throttle (C8) *)

(** C8.  An attempt less than 33 ms after the last one that passed is
    dropped: nothing is sent and nothing is kept for later (the world is
    as before).  In every run of attempts, each message on the wire is at
    least 33 ms after the one before it (and after the last attempt that
    passed before the run).  Hence 41 attempts 5 ms apart, which span
    200 ms, put at most 7 = ceil(200 / 33) messages on the wire, whatever
    the states, the connection and the time of the last send. *)
Theorem gameState_broadcasts_are_throttled {num : Type} {A : Arith num} :
  (forall (now : Z) (state : State.t num) (w : World num),
      (now - Network.lastStateSend (net w) < stateSendInterval)%Z ->
      sendGameState now state w = Done tt w [])
  /\ (forall (attempts : list (Attempt num)) (w : World num),
      gapped 33 (Network.lastStateSend (net w)) (broadcasts attempts w))
  /\ (forall (t0 : Z) (xs : list (State.t num * option Connection * bool))
             (w : World num),
      (List.length xs <= 41)%nat ->
      (List.length (broadcasts (cadence t0 5 xs) w) <= 7)%nat).
Proof.
  split; [exact sendGameState_dropped|]. split; [exact broadcasts_gapped|].
  intros t0 xs w Hlen.
  pose proof (broadcasts_in_window (cadence t0 5 xs) w t0 200 ltac:(lia)) as H.
  unfold stateSendInterval in H.
  assert (Hwin : forall e, In e (map at_now (cadence t0 5 xs)) ->
                           (t0 <= e <= t0 + 200)%Z).
  { intros e He. apply cadence_times in He; lia. }
  specialize (H Hwin). lia.
Qed.

(** A host that last sent at 1000 ms: an attempt at 1020 ms is dropped,
    and 41 attempts from 1020 ms on, 5 ms apart, send at most 7 times. *)
Lemma gameState_broadcasts_are_throttled_witness :
  sendGameState 1020 Examples.kickoff
    (mkWorld (Examples.arena Examples.centre true (Score.mk 0 0))
             (Examples.online true 1000))
  = Done tt (mkWorld (Examples.arena Examples.centre true (Score.mk 0 0))
                     (Examples.online true 1000)) []
  /\ (List.length
        (broadcasts
           (cadence 1020 5
              (repeat (Examples.kickoff, Some {| sendThrows := false |}, true) 41))
           (mkWorld (Examples.arena Examples.centre true (Score.mk 0 0))
                    (Examples.online true 1000))) <= 7)%nat.
Proof.
  destruct (@gameState_broadcasts_are_throttled float _) as (Hdrop & _ & Hcount).
  split.
  - apply Hdrop. vm_compute. reflexivity.
  - apply Hcount. vm_compute. repeat constructor.
Defined.

(** They send six times, 35 ms apart. *)
Lemma forty_one_attempts_example :
  broadcasts
    (cadence 1020 5
       (repeat (Examples.kickoff, Some {| sendThrows := false |}, true) 41))
    (mkWorld (Examples.arena Examples.centre true (Score.mk 0 0))
             (Examples.online true 1000))
  = [1035; 1070; 1105; 1140; 1175; 1210]%Z.
Proof. vm_compute. reflexivity. Qed.

(** A send that throws has passed the throttle all the same: the interval
    starts again although nothing went out. *)
Lemma failed_send_restarts_the_interval :
  broadcasts
    (cadence 1040 5
       [(Examples.kickoff, Some {| sendThrows := true |}, true);
        (Examples.kickoff, Some {| sendThrows := false |}, true)])
    (mkWorld (Examples.arena Examples.centre true (Score.mk 0 0))
             (Examples.online true 1000))
  = [].
Proof. vm_compute. reflexivity. Qed.

(* ================================================================= *)
(** ** Layout, start, input: proof tools *)

(** Symbolic execution that also unfolds layout, start and input. *)
Ltac exec_all :=
  cbv beta iota zeta delta
    [bind ret throw emit getGame getNet modifyGame modifyNet deref thisPuck
     modifyPuck when world trace completed game net
     send sendPaddlePosition sendGameState gameOver stop goalScored snapshot
     resetPuck fire checkPaddleCollision addToTrail updatePuckPosition
     applyFriction clampSpeed leftRightWalls topWall bottomWall
     paddleCollisions sendPuckState flight finishTick updatePhysics gameLoop
     orElse updateOpponentPaddle updateFromHost handleMessage dispatch
     setPuck setOpponentPaddle setPlayerPaddle
     resetPositions resize newMatch start handleMove deliver
     Game.width Game.height Game.puck Game.playerPaddle Game.opponentPaddle
     Game.isRunning Game.isHost Game.score Game.paddleRadius Game.puckRadius
     Game.goalWidth Game.wallThickness Game.puckTrail Game.lastTime
     Game.animationId
     Game.set_puck Game.set_opponentPaddle Game.set_isRunning Game.set_score
     Game.set_puckTrail Game.set_lastTime Game.set_animationId
     Assign.width Assign.height Assign.playerPaddle Assign.isHost
     Assign.paddleRadius Assign.puckRadius Assign.goalWidth
     Assign.wallThickness
     Network.peer Network.connection Network.isConnected Network.isHost
     Network.roomCode Network.lastStateSend
     Network.set_lastStateSend Network.set_isConnected Network.set_connection
     Network.set_peer Network.set_isHost Network.set_roomCode
     app];
  cbn [Body.x Body.y Body.vx Body.vy Body.radius Body.lastX Body.lastY
       Body.set_x Body.set_y Body.set_vx Body.set_vy Body.set_lastX
       Body.set_lastY State.x State.y State.vx State.vy State.score
       Score.player Score.opponent].

Section MoreRealNumbers.
Local Open Scope R_scope.

(** More literals of the source, as real numbers. *)
Lemma Q2R_more_lits :
  Q2R 4 = 4 /\ Q2R 8 = 8 /\ Q2R 10 = 10 /\ Q2R 20 = 20
  /\ Q2R 0.08 = 8/100 /\ Q2R 0.05 = 5/100 /\ Q2R 0.4 = 4/10
  /\ Q2R 0.02 = 2/100 /\ Q2R 16.67 = 1667/100.
Proof. unfold Q2R; cbn; repeat split; lra. Qed.

Lemma sqrt_64 : R_sqrt.sqrt 64 = 8.
Proof. replace 64 with (8 * 8) by lra. apply sqrt_square. lra. Qed.

(** On [[-PI/4, PI/4]] the cosine dominates the sine. *)
Lemma abs_sin_le_cos (a : R) : - (PI / 4) <= a <= PI / 4 -> Rabs (sin a) <= cos a.
Proof.
  intros [Hlo Hhi]. pose proof PI_RGT_0 as Hpi.
  destruct (Rle_dec 0 a) as [Hpos|Hneg].
  - assert (Hs : 0 <= sin a) by (apply sin_ge_0; lra).
    rewrite Rabs_right by lra. rewrite <- (sin_shift a).
    apply sin_incr_1; lra.
  - assert (Hs : sin a <= 0) by (left; apply sin_lt_0_var; lra).
    rewrite Rabs_left1 by exact Hs. rewrite <- sin_neg.
    rewrite <- (cos_neg a), <- (sin_shift (- a)).
    apply sin_incr_1; lra.
Qed.

(** On [[PI/4, PI/2)] the sine dominates the cosine, which is positive. *)
Lemma cos_le_sin (b : R) : PI / 4 <= b < PI / 2 -> 0 < cos b <= sin b.
Proof.
  intros [Hlo Hhi]. pose proof PI_RGT_0 as Hpi. split.
  - apply cos_gt_0; lra.
  - rewrite <- (sin_shift b). apply sin_incr_1; lra.
Qed.

Lemma sin_cos_square (a : R) : sin a * sin a + cos a * cos a = 1.
Proof. pose proof (sin2_cos2 a) as H. unfold Rsqr in H. exact H. Qed.

End MoreRealNumbers.

(* ================================================================= *)
(** ** The trail *)

Section Trail.
Context {num : Type} {A : Arith num} {X : ArithMax num} {M : MathFns num}.

Lemma length_removelast {T} (l : list T) :
  List.length (removelast l) = pred (List.length l).
Proof.
  induction l as [|a l IH]; [reflexivity|].
  destruct l as [|b l]; [reflexivity|].
  change (removelast (a :: b :: l)) with (a :: removelast (b :: l)).
  cbn [List.length] in *. now rewrite IH.
Qed.

(** [unshift], then [pop] above the cap. *)
Lemma unshift_pop_bounded {T} (a : T) (l : list T) :
  (List.length l <= maxTrailLength)%nat ->
  (List.length (if (maxTrailLength <? List.length (a :: l))%nat
                then removelast (a :: l) else a :: l) <= maxTrailLength)%nat.
Proof.
  intros Hl. destruct (Nat.ltb_spec maxTrailLength (List.length (a :: l))) as [H|H].
  - rewrite length_removelast. cbn [List.length pred]. exact Hl.
  - exact H.
Qed.

Ltac trail_done :=
  unfold trailBounded in *;
  cbn [game net world Game.puckTrail Game.set_puck Game.set_opponentPaddle
       Game.set_isRunning Game.set_score Game.set_puckTrail Game.set_lastTime
       Game.set_animationId Assign.width Assign.height Assign.playerPaddle
       Assign.isHost Assign.paddleRadius Assign.puckRadius Assign.goalWidth
       Assign.wallThickness] in *;
  repeat match goal with
  | H : (_ <? _)%nat = true |- _ => apply Nat.ltb_lt in H
  | H : (_ <? _)%nat = false |- _ => apply Nat.ltb_ge in H
  end;
  rewrite ?length_removelast; cbn [List.length pred] in *;
  unfold maxTrailLength in *; try lia; auto.

Lemma addToTrail_bounded : preserves trailBounded (@addToTrail num).
Proof.
  intros w Hw. destruct w as [[] n]. destruct puck as [p|]; [|exact Hw].
  exec. branch; trail_done.
Qed.

Lemma updateFromHost_bounded (state : State.t num) :
  preserves trailBounded (updateFromHost state).
Proof.
  intros w Hw. destruct w as [[] n]. destruct state as [sx sy svx svy [sp so]].
  destruct puck as [p|]; exec; repeat branch; trail_done.
Qed.

Ltac bounded_step :=
  lazymatch goal with
  | |- preserves _ addToTrail => apply addToTrail_bounded
  | |- preserves _ (updateFromHost _) => apply updateFromHost_bounded
  | |- preserves _ _ => preserves_step
  end.
Ltac bounded := repeat bounded_step; trail_done.

Lemma updatePhysics_bounded (dt : num) (now : Z) :
  preserves trailBounded (updatePhysics dt now).
Proof.
  unfold updatePhysics, flight, finishTick, updatePuckPosition, applyFriction,
    clampSpeed, leftRightWalls, topWall, bottomWall, paddleCollisions,
    sendPuckState, checkPaddleCollision, goalScored, gameOver, sendGameState, send.
  bounded.
Qed.

Ltac bounded' :=
  repeat lazymatch goal with
         | |- preserves _ (updatePhysics _ _) => apply updatePhysics_bounded
         | _ => bounded_step
         end;
  trail_done.

Lemma dispatch_bounded (c : Callback) : preserves trailBounded (dispatch c).
Proof.
  destruct c as [t now id|[tp] rnd now|data]; cbn [dispatch].
  - unfold gameLoop. bounded'.
  - unfold fire, resetPuck, sendGameState, send. bounded.
  - unfold handleMessage. destruct data;
      unfold updateOpponentPaddle, send; bounded.
Qed.

Lemma resize_bounded (dpr : option num) (rw rh : num) :
  preserves trailBounded (resize dpr rw rh).
Proof. unfold resize, resetPositions. bounded. Qed.

(** A new match starts with an empty trail, whatever the trail was. *)
Lemma newMatch_empties (isHost : bool) (r1 r2 r3 : num) (w : World num) :
  exists g, world (newMatch isHost r1 r2 r3 w) = mkWorld g (net w)
            /\ Game.puckTrail g = [] /\ completed (newMatch isHost r1 r2 r3 w) = true.
Proof.
  destruct w as [[] n]. destruct isHost; exec_all; eexists; repeat split.
Qed.

Lemma start_bounded (isHost : bool) (r1 r2 r3 t1 t2 : num) (now id : Z)
    (w : World num) :
  trailBounded (world (start isHost r1 r2 r3 t1 t2 now id w)).
Proof.
  unfold start. rewrite world_bind.
  destruct (newMatch_empties isHost r1 r2 r3 w) as (g & Hw & Htr & Hc).
  destruct (newMatch isHost r1 r2 r3 w) as [[] w1 o1|w1 o1]; [|discriminate].
  cbn [world] in Hw. subst w1.
  assert (H0 : trailBounded (mkWorld g (net w))).
  { unfold trailBounded. cbn. rewrite Htr. cbn. unfold maxTrailLength. lia. }
  revert H0. generalize (mkWorld g (net w)). clear.
  change (preserves trailBounded
            (g <- getGame ;;
             emit (UI_updateScore (Score.player (Game.score g))
                                  (Score.opponent (Game.score g))) ;;
             modifyGame (Game.set_lastTime t1) ;; gameLoop t2 now id)).
  repeat lazymatch goal with
         | |- preserves _ (gameLoop _ _ _) =>
             apply (dispatch_bounded (Frame t2 now id))
         | _ => bounded_step
         end;
    trail_done.
Qed.

(** [resize] runs to completion and leaves the network alone. *)
Lemma resize_done (dpr : option num) (rw rh : num) (w : World num) :
  exists c g, resize dpr rw rh w = Done c (mkWorld g (net w)) [].
Proof.
  destruct w as [[] n].
  destruct puck, playerPaddle, opponentPaddle; exec_all; eexists _, _; reflexivity.
Qed.

Lemma deliver_bounded (e : Event) : preserves trailBounded (deliver e).
Proof.
  destruct e; cbn [deliver].
  - apply dispatch_bounded.
  - unfold handleMove, sendPaddlePosition, send. bounded.
  - apply preserves_bind; [apply resize_bounded|intros; apply preserves_ret].
  - intros w _. rewrite world_bind.
    destruct (resize_done devicePixelRatio rectWidth rectHeight w) as (c & g & ->).
    apply start_bounded.
Qed.

Lemma deliverAll_bounded (es : list Event) (w : World num) :
  trailBounded w -> trailBounded (fst (deliverAll es w)).
Proof.
  revert w. induction es as [|e es IH]; intros w Hw; cbn [deliverAll]; [exact Hw|].
  specialize (IH _ (deliver_bounded e w Hw)).
  destruct (deliverAll es (world (deliver e w))). exact IH.
Qed.

End Trail.

(** X1.  The trail of the puck never grows beyond [maxTrailLength] = 15
    entries: whatever the browser delivers (frames, reset timers,
    messages, pointer moves, resizes, starts of a match), a trail that is
    within the cap stays within it; and the frame that starts a match
    leaves a trail within the cap whatever it was before. *)
Theorem trail_never_exceeds_its_cap
    {num : Type} {A : Arith num} {X : ArithMax num} {M : MathFns num} :
  (forall (es : list Event) (w : World num),
      trailBounded w -> trailBounded (fst (deliverAll es w)))
  /\ (forall (isHost : bool) (dpr : option num) (rw rh r1 r2 r3 t1 t2 : num)
             (now id : Z) (w : World num),
      trailBounded
        (world (deliver (startGame_frame isHost dpr rw rh r1 r2 r3 t1 t2 now id) w))).
Proof.
  split; [exact deliverAll_bounded|].
  intros isHost dpr rw rh r1 r2 r3 t1 t2 now id w. cbn [deliver].
  rewrite world_bind. destruct (resize_done dpr rw rh w) as (c & g & ->).
  apply start_bounded.
Qed.

(** Twenty frames of a host whose trail holds 15 entries already. *)
Lemma trail_never_exceeds_its_cap_witness :
  let w := mkWorld
             (Game.set_puckTrail (repeat (0, 0)%R 15)
                (game (RealExamples.host RealExamples.fast (Score.mk 0 0))))
             (net (RealExamples.host RealExamples.fast (Score.mk 0 0))) in
  trailBounded w
  /\ trailBounded
       (fst (deliverAll (repeat (during_match (Frame 16.67%R 1000 1)) 20) w)).
Proof.
  assert (H0 : trailBounded
                 (mkWorld
                    (Game.set_puckTrail (repeat (0, 0)%R 15)
                       (game (RealExamples.host RealExamples.fast (Score.mk 0 0))))
                    (net (RealExamples.host RealExamples.fast (Score.mk 0 0))))).
  { unfold trailBounded. cbn. unfold maxTrailLength. lia. }
  split; [exact H0|].
  exact (proj1 (@trail_never_exceeds_its_cap R _ _ _) _ _ H0).
Defined.

(* ================================================================= *)
(** ** The flight of the puck in real arithmetic *)

Section RealFlight.
Local Open Scope R_scope.

Lemma friction_factor_pos (dt : R) : 0 < Math_pow friction dt.
Proof. cbn. unfold Rpower. apply exp_pos. Qed.

Lemma speed_nonneg (p : Body.t R) : 0 <= speed p.
Proof. unfold speed. cbn. apply sqrt_pos. Qed.

(** A bounce off a side wall does not raise the speed. *)
Lemma bounce_slows (p : Body.t R) (bound : R) :
  speed (Body.set_vx (- Body.vx p * (9 / 10)) (Body.set_x bound p)) <= speed p.
Proof.
  unfold speed. cbn. apply sqrt_le_1_alt.
  assert (0 <= Body.vx p * Body.vx p) by nra. nra.
Qed.

(** What [flight] leaves: the speed is within the cap, the puck is
    between the side walls, and a puck that reaches no side wall keeps
    its direction. *)
Lemma flight_bounds (w : World R) (p : Body.t R) (dt : R) :
  Game.puck (game w) = Some p ->
  exists tr q out,
    flight dt w
    = Done tt (mkWorld (Game.set_puckTrail tr (Game.set_puck (Some q) (game w)))
                       (net w)) out
    /\ Body.radius q = Body.radius p
    /\ speed q <= 25
    /\ Body.y q = Body.y p + Body.vy p * dt
    /\ (wallLeft (game w) p <= wallRight (game w) p ->
        wallLeft (game w) p <= Body.x q <= wallRight (game w) p)
    /\ (wallLeft (game w) p <= Body.x p + Body.vx p * dt <= wallRight (game w) p ->
        Body.x q = Body.x p + Body.vx p * dt /\ out = []
        /\ exists c, 0 < c /\ Body.vx q = c * Body.vx p /\ Body.vy q = c * Body.vy p).
Proof.
  intros Hp.
  pose proof (friction_factor_pos dt) as Hk0.
  destruct Q2R_lits as (L0 & L1 & L2 & L09 & L25 & _).
  destruct (addToTrail_run w p Hp) as [tr H1]. exists tr.
  set (w0 := mkWorld (Game.set_puckTrail tr (game w)) (net w)) in *.
  assert (Hp0 : Game.puck (game w0) = Some p) by (destruct w as [[] ?]; exact Hp).
  pose proof (updatePuckPosition_run dt w0 p Hp0) as H2.
  set (p1 := Body.set_y _ _) in *.
  pose proof (applyFriction_run dt (setPuck p1 w0) p1 eq_refl) as H3.
  rewrite setPuck_setPuck in H3.
  set (k := Math_pow friction dt) in *.
  set (p2 := Body.set_vy _ (Body.set_vx _ p1)) in *.
  (* the clamp *)
  assert (Hclamp : exists p3 c,
             clampSpeed (setPuck p2 w0) = Done tt (setPuck p3 w0) []
             /\ speed p3 <= 25 /\ 0 < c
             /\ Body.vx p3 = c * Body.vx p /\ Body.vy p3 = c * Body.vy p
             /\ Body.x p3 = Body.x p + Body.vx p * dt
             /\ Body.y p3 = Body.y p + Body.vy p * dt
             /\ Body.radius p3 = Body.radius p).
  { destruct (Rlt_dec 25 (speed p2)) as [Hfast|Hslow].
    - destruct (clamp_exact (setPuck p2 w0) p2 eq_refl Hfast)
        as (p3 & Hrun & Hsp & Hvx & Hvy).
      rewrite setPuck_setPuck in Hrun.
      exists p3, (25 / speed p2 * k). split; [exact Hrun|].
      assert (Hpos : 0 < 25 / speed p2) by (apply Rdiv_lt_0_compat; lra).
      split; [lra|]. split; [nra|].
      pose proof (clampSpeed_run (setPuck p2 w0) p2 eq_refl) as Hc.
      rewrite Hrun in Hc.
      destruct (speed p2 >? maxPuckSpeed)%num; injection Hc as E;
        [|exfalso; rewrite E in Hsp; lra].
      rewrite Hvx, Hvy. rewrite E. cbn. repeat split; ring.
    - pose proof (clampSpeed_run (setPuck p2 w0) p2 eq_refl) as Hc.
      assert (Hno : (speed p2 >? maxPuckSpeed)%num = false).
      { apply ngt_false. unfold maxPuckSpeed. cbn [lit Real.arith]. rewrite L25. lra. }
      rewrite Hno in Hc. exists p2, k. split; [exact Hc|].
      split; [lra|]. split; [exact Hk0|]. cbn. repeat split; ring. }
  destruct Hclamp as (p3 & c & H4 & Hs3 & Hc0 & Hvx3 & Hvy3 & Hx3 & Hy3 & Hr3).
  pose proof (leftRightWalls_run (setPuck p3 w0) p3 eq_refl) as H5.
  assert (Hwl : wallLeft (game (setPuck p3 w0)) p3 = wallLeft (game w) p)
    by (destruct w as [[] ?]; unfold wallLeft; cbn; now rewrite Hr3).
  assert (Hwr : wallRight (game (setPuck p3 w0)) p3 = wallRight (game w) p)
    by (destruct w as [[] ?]; unfold wallRight; cbn; now rewrite Hr3).
  rewrite Hwl, Hwr, !setPuck_setPuck in H5.
  assert (Hflight : forall w5 out5,
             leftRightWalls (setPuck p3 w0) = Done tt w5 out5 ->
             flight dt w = Done tt w5 out5).
  { intros w5 out5 H. unfold flight.
    eapply (run_seq _ _ _ _ _ _ _ _ _ H1).
    eapply (run_seq _ _ _ _ _ _ _ _ _ H2).
    eapply (run_seq _ _ _ _ _ _ _ _ _ H3).
    eapply (run_seq _ _ _ _ _ _ _ _ _ H4).
    exact H. }
  assert (Hw : forall q, setPuck q w0
                = mkWorld (Game.set_puckTrail tr (Game.set_puck (Some q) (game w)))
                          (net w))
    by (intros q; destruct w as [[] ?]; reflexivity).
  destruct (Rlt_dec (Body.x p3) (wallLeft (game w) p)) as [Hleft|Hnl].
  - assert (E : (Body.x p3 <? wallLeft (game w) p)%num = true) by now apply nlt_true.
    rewrite E in H5. eexists _, _. split; [rewrite <- Hw; apply Hflight, H5|].
    cbn [Body.radius Body.set_vx Body.set_x Body.y Body.x]. cbn [lit Real.arith nneg nmul].
    rewrite L09. split; [exact Hr3|].
    split; [eapply Rle_trans; [apply bounce_slows|exact Hs3]|].
    split; [exact Hy3|]. split; [intros; lra|]. intros; lra.
  - assert (E : (Body.x p3 <? wallLeft (game w) p)%num = false)
      by (apply nlt_false; lra).
    rewrite E in H5.
    destruct (Rlt_dec (wallRight (game w) p) (Body.x p3)) as [Hright|Hnr].
    + assert (E' : (Body.x p3 >? wallRight (game w) p)%num = true) by now apply ngt_true.
      rewrite E' in H5. eexists _, _. split; [rewrite <- Hw; apply Hflight, H5|].
      cbn [Body.radius Body.set_vx Body.set_x Body.y Body.x].
      cbn [lit Real.arith nneg nmul]. rewrite L09. split; [exact Hr3|].
      split; [eapply Rle_trans; [apply bounce_slows|exact Hs3]|].
      split; [exact Hy3|]. split; [intros; lra|]. intros; lra.
    + assert (E' : (Body.x p3 >? wallRight (game w) p)%num = false)
        by (apply ngt_false; lra).
      rewrite E' in H5. exists p3, []. split; [rewrite <- Hw; apply Hflight, H5|].
      split; [exact Hr3|]. split; [exact Hs3|]. split; [exact Hy3|].
      split; [intros; lra|]. intros _. split; [exact Hx3|]. split; [reflexivity|].
      exists c. repeat split; assumption.
Qed.

End RealFlight.

(** X3.  In real arithmetic, whatever the puck and the time step: after
    the first half of a tick (position, friction, clamp, side walls) the
    speed of the puck is at most [maxPuckSpeed], also after a bounce off a
    side wall; and if the side walls are not crossed over
    ([wallLeft <= wallRight]) the puck is between them. *)
Theorem after_the_flight_the_puck_is_slow_and_between_the_side_walls
    (w : World R) (p : Body.t R) (dt : R) :
  Game.puck (game w) = Some p ->
  exists w1 out q,
    flight dt w = Done tt w1 out
    /\ Game.puck (game w1) = Some q
    /\ Body.radius q = Body.radius p
    /\ (speed q <= maxPuckSpeed)%R
    /\ ((wallLeft (game w) p <= wallRight (game w) p)%R ->
        (wallLeft (game w1) q <= Body.x q <= wallRight (game w1) q)%R).
Proof.
  intros Hp.
  destruct (flight_bounds w p dt Hp) as (tr & q & out & Hf & Hr & Hs & _ & Hx & _).
  eexists _, out, q. split; [exact Hf|].
  destruct w as [[] n]. cbn [game Game.puck Game.set_puckTrail Game.set_puck].
  split; [reflexivity|]. split; [exact Hr|]. split.
  - unfold maxPuckSpeed. cbn [lit Real.arith].
    destruct Q2R_lits as (_ & _ & _ & _ & -> & _). exact Hs.
  - unfold wallLeft, wallRight in *. cbn in *. rewrite Hr. exact Hx.
Qed.

(** The puck at speed 50: it is slowed to the cap. *)
Lemma after_the_flight_the_puck_is_slow_and_between_the_side_walls_witness :
  exists w1 out q,
    flight 1%R (RealExamples.host RealExamples.fast (Score.mk 0 0)) = Done tt w1 out
    /\ Game.puck (game w1) = Some q
    /\ (speed q <= maxPuckSpeed)%R
    /\ (28 <= Body.x q <= 372)%R.
Proof.
  destruct (after_the_flight_the_puck_is_slow_and_between_the_side_walls
              (RealExamples.host RealExamples.fast (Score.mk 0 0))
              RealExamples.fast 1%R eq_refl)
    as (w1 & out & q & Hf & Hq & Hr & Hs & Hx).
  exists w1, out, q. split; [exact Hf|]. split; [exact Hq|]. split; [exact Hs|].
  assert (Hw : Game.wallThickness (game w1) = 8%R /\ Game.width (game w1) = 400%R).
  { destruct (flight_done 1%R (RealExamples.host RealExamples.fast (Score.mk 0 0))
                RealExamples.fast eq_refl) as (q' & tr & out' & Hf').
    rewrite Hf' in Hf. injection Hf as <- _. split; reflexivity. }
  destruct Hw as [Hwt Hww].
  unfold wallLeft, wallRight in Hx. cbn in Hx. rewrite Hr, Hwt, Hww in Hx.
  cbn in Hx. assert (H : (8 + 20 <= 400 - 8 - 20)%R) by lra.
  specialize (Hx H). lra.
Defined.

(* ================================================================= *)
(** ** Goals, frame after frame *)

Section GoalWorld.
Context {num : Type} {A : Arith num}.

(** The world that [goalScored] leaves. *)
Lemma goalScored_world (s : Side) (w : World num) :
  let sc := Score.incr s (Game.score (game w)) in
  let g := Game.set_score sc (game w) in
  exists out,
    goalScored s w
    = Done tt (mkWorld (if (Score.get s sc >=? winningScore)%Z
                        then Game.set_isRunning false g else g) (net w)) out
    /\ goals out = 1%nat
    /\ ((Score.get s sc >=? winningScore)%Z = false ->
        In (setTimeout (ResetPuck (match s with Opponent => true | Player => false end))
                       1500) out).
Proof.
  destruct w as [[] n]. exec. repeat branch; eexists;
    (split; [reflexivity|]); cbn; split; auto; intros; try discriminate; auto 10.
Qed.

Lemma goals_app (a b : list (Effect num)) : goals (a ++ b) = (goals a + goals b)%nat.
Proof. unfold goals. now rewrite filter_app, length_app. Qed.

(** A tick whose flight ends beyond the top wall inside the mouth hands
    over to [goalScored]. *)
Lemma finishTick_top_goal (now : Z) (w : World num) (q : Body.t num) :
  Game.puck (game w) = Some q ->
  nlt (Body.y q) (wallTop (game w) q) = true -> inGoalMouth (game w) q = true ->
  finishTick now w = goalScored Player w.
Proof.
  intros Hq Htop Hmouth. pose proof (topWall_cases w q Hq) as Ht.
  rewrite Htop, Hmouth in Ht.
  destruct (goalScored_done Player w) as (w' & out & Hg & _).
  rewrite (bind_Done _ _ _ _ _ _ Hg) in Ht. cbn [ret] in Ht.
  unfold finishTick. rewrite (bind_Done _ _ _ _ _ _ Ht), Hg. cbn [ret].
  now rewrite !app_nil_r.
Qed.

End GoalWorld.

Section Frames.
Context {num : Type} {A : Arith num} {M : MathFns num}.

(** [deltaTime], as [gameLoop] computes it. *)
Lemma gameLoop_running (t : num) (now id : Z) (w : World num) :
  Game.isRunning (game w) = true ->
  let dt := nmin ((t - Game.lastTime (game w)) / lit 16.67)%num (lit 2) in
  gameLoop t now id w
  = match when (Game.isHost (game w)) (updatePhysics dt now)
            (mkWorld (Game.set_lastTime t (game w)) (net w)) with
    | Done _ w1 o1 =>
        Done tt (mkWorld (Game.set_animationId (Some id) (game w1)) (net w1))
             (o1 ++ [render; requestAnimationFrame])
    | Threw w1 o1 => Threw w1 o1
    end.
Proof.
  intros Hrun dt. destruct w as [[] n]. cbn in Hrun. subst.
  unfold gameLoop, bind, getGame, modifyGame, emit.
  cbn [game net Game.isRunning negb Game.lastTime Game.isHost Game.set_lastTime].
  subst dt. cbn [game net Game.lastTime].
  match goal with |- context [when ?c ?m ?w] => destruct (when c m w) as [[] ? ?|? ?] end;
    cbn [app]; reflexivity.
Qed.

End Frames.

Section RepeatedGoals.
Local Open Scope R_scope.

(** A tick with the puck in the goal counts a goal and leaves the puck in
    the goal. *)
Lemma tick_in_goal (w : World R) (p : Body.t R) (dt : R) (now : Z) :
  Game.puck (game w) = Some p -> inTopGoal (game w) p -> 0 <= dt ->
  exists q tr out,
    let sc := Score.incr Player (Game.score (game w)) in
    let g := Game.set_score sc
               (Game.set_puckTrail tr (Game.set_puck (Some q) (game w))) in
    updatePhysics dt now w
    = Done tt (mkWorld (if (Score.player sc >=? winningScore)%Z
                        then Game.set_isRunning false g else g) (net w)) out
    /\ goals out = 1%nat
    /\ inTopGoal (game w) q
    /\ Body.radius q = Body.radius p.
Proof.
  intros Hp (Hy & Hx & Hwall & Hvx & Hvy) Hdt.
  destruct (flight_bounds w p dt Hp)
    as (tr & q & out1 & Hf & Hr & _ & Hyq & _ & Hfree).
  destruct Hfree as (Hxq & -> & c & Hc & Hvxq & Hvyq); [rewrite Hvx; lra|].
  rewrite Hvx in Hxq, Hvxq.
  set (w1 := mkWorld _ _) in Hf.
  assert (Hq1 : Game.puck (game w1) = Some q) by (destruct w as [[] ?]; reflexivity).
  assert (Hgeo : wallTop (game w1) q = wallTop (game w) p
                 /\ goalLeft (game w1) = goalLeft (game w)
                 /\ goalRight (game w1) = goalRight (game w)).
  { destruct w as [[] ?]. unfold wallTop, goalLeft, goalRight. cbn. now rewrite Hr. }
  destruct Hgeo as (Hwt & Hgl & Hgr).
  assert (Hin : inTopGoal (game w) q).
  { unfold inTopGoal, wallTop, wallLeft, wallRight in *. rewrite Hr.
    repeat split; try nra; lra. }
  assert (Htop : (Body.y q <? wallTop (game w1) q)%num = true).
  { apply nlt_true. rewrite Hwt. nra. }
  assert (Hmouth : inGoalMouth (game w1) q = true).
  { unfold inGoalMouth. rewrite Hgl, Hgr. apply andb_true_iff.
    split; [apply ngt_true|apply nlt_true]; lra. }
  pose proof (finishTick_top_goal now w1 q Hq1 Htop Hmouth) as Hfin.
  destruct (goalScored_world Player w1) as (out & Hg & Hgoal & _). cbv zeta in Hg.
  exists q, tr, out. cbv zeta. split.
  - unfold updatePhysics. rewrite (bind_Done _ _ _ _ _ _ Hf), Hfin, Hg.
    destruct w as [[] ?]. reflexivity.
  - repeat split; assumption || apply Hin.
Qed.

(** One frame with the puck in the goal. *)
Lemma frame_in_goal (t : R) (now id : Z) (w : World R) (p : Body.t R) :
  Game.isRunning (game w) = true -> Game.isHost (game w) = true ->
  Game.puck (game w) = Some p -> inTopGoal (game w) p ->
  Game.lastTime (game w) <= t ->
  exists w' q out,
    gameLoop t now id w = Done tt w' out
    /\ goals out = 1%nat
    /\ Game.score (game w') = Score.incr Player (Game.score (game w))
    /\ Game.isRunning (game w')
       = negb (Score.player (Game.score (game w')) >=? winningScore)%Z
    /\ Game.isHost (game w') = true
    /\ Game.puck (game w') = Some q /\ inTopGoal (game w') q
    /\ Game.lastTime (game w') = t.
Proof.
  intros Hrun Hhost Hp Hin Ht.
  destruct Q2R_lits as (L0 & L1 & L2 & _).
  destruct Q2R_more_lits as (_ & _ & _ & _ & _ & _ & _ & _ & L1667).
  set (dt := nmin ((t - Game.lastTime (game w)) / lit 16.67)%num (lit 2)).
  assert (Hdt : 0 <= dt).
  { subst dt. cbn. rewrite L2, L1667. apply Rmin_glb; [|lra].
    apply Rmult_le_pos; [lra|]. left. apply Rinv_0_lt_compat. lra. }
  set (w0 := mkWorld (Game.set_lastTime t (game w)) (net w)).
  assert (Hp0 : Game.puck (game w0) = Some p) by (destruct w as [[] ?]; exact Hp).
  assert (Hin0 : inTopGoal (game w0) p) by (destruct w as [[] ?]; exact Hin).
  destruct (tick_in_goal w0 p dt now Hp0 Hin0 Hdt)
    as (q & tr & out & Htick & Hgoals & Hinq & Hr). cbv zeta in Htick.
  pose proof (gameLoop_running t now id w Hrun) as Hloop. cbv zeta in Hloop.
  fold dt w0 in Hloop. rewrite Hhost in Hloop. cbn [when] in Hloop.
  rewrite Htick in Hloop. rewrite Hloop.
  eexists _, q, _. split; [reflexivity|].
  split; [rewrite goals_app, Hgoals; reflexivity|].
  destruct w as [[] n]. cbn in Hrun, Hhost |- *. subst.
  destruct score as [a b]. cbn [Score.incr Score.player].
  destruct (a + 1 >=? winningScore)%Z eqn:E; cbn; rewrite ?E; repeat split;
    apply Hinq.
Qed.

(** Frame after frame. *)
Lemma frames_in_goal (ts : list (R * Z * Z)) (w : World R) (p : Body.t R) :
  Game.isRunning (game w) = true -> Game.isHost (game w) = true ->
  Game.puck (game w) = Some p -> inTopGoal (game w) p ->
  ascending (Game.lastTime (game w)) ts ->
  (Score.player (Game.score (game w)) + Z.of_nat (List.length ts) <= winningScore)%Z ->
  Game.score (game (fst (run (frames ts) w)))
  = Score.mk (Score.player (Game.score (game w)) + Z.of_nat (List.length ts))
             (Score.opponent (Game.score (game w)))
  /\ goals (snd (run (frames ts) w)) = List.length ts
  /\ ((Score.player (Game.score (game w)) + Z.of_nat (List.length ts) < winningScore)%Z ->
      Game.isRunning (game (fst (run (frames ts) w))) = true)
  /\ (ts <> [] ->
      (Score.player (Game.score (game w)) + Z.of_nat (List.length ts) = winningScore)%Z ->
      halted (fst (run (frames ts) w))).
Proof.
  revert w p. induction ts as [|[[t now] id] ts IH]; intros w p Hrun Hhost Hp Hin Hasc Hsc.
  - cbn. destruct (Game.score (game w)) as [a b]. cbn.
    rewrite Z.add_0_r. repeat split; auto. congruence.
  - destruct Hasc as [Ht Hasc].
    destruct (frame_in_goal t now id w p Hrun Hhost Hp Hin Ht)
      as (w1 & q & out & Hloop & Hgoals & Hs1 & Hrun1 & Hhost1 & Hq1 & Hin1 & Hlast1).
    cbn [frames map run dispatch]. rewrite Hloop. cbn [world trace].
    change (map _ ts) with (frames ts).
    cbn [List.length] in *. rewrite Nat2Z.inj_succ in *.
    rewrite Hs1 in Hrun1.
    destruct (Game.score (game w)) as [a b] eqn:Esc.
    cbn [Score.incr Score.player Score.opponent] in *.
    destruct ts as [|t2 ts'].
    + cbn [frames map run fst snd List.length] in *. rewrite app_nil_r.
      rewrite Hs1. cbn [Score.player]. change (Z.of_nat 0) with 0%Z in *.
      split; [f_equal; lia|]. split; [exact Hgoals|].
      unfold halted. rewrite Hrun1. unfold winningScore in *. split.
      * intros Hlt. apply negb_true_iff. rewrite Z.geb_leb. apply Z.leb_gt. lia.
      * intros _ Heq. apply negb_false_iff. rewrite Z.geb_leb. apply Z.leb_le. lia.
    + assert (Hrun1' : Game.isRunning (game w1) = true).
      { rewrite Hrun1. apply negb_true_iff. rewrite Z.geb_leb. apply Z.leb_gt.
        cbn [List.length] in Hsc. unfold winningScore in *. lia. }
      rewrite <- Hlast1 in Hasc.
      specialize (IH w1 q Hrun1' Hhost1 Hq1 Hin1 Hasc).
      rewrite Hs1 in IH. cbn [Score.player Score.opponent] in IH.
      destruct IH as (IHs & IHg & IHr & IHh); [lia|].
      destruct (run (frames (t2 :: ts')) w1) as [w' out'] eqn:Er.
      cbn [fst snd] in *. rewrite goals_app, Hgoals, IHg.
      split; [rewrite IHs; f_equal; lia|]. split; [reflexivity|].
      split.
      * intros Hlt. apply IHr. lia.
      * intros _ Heq. apply IHh; [discriminate|lia].
Qed.

End RepeatedGoals.

(** X2.  A goal does not stop the loop and does not move the puck (the
    reset comes 1500 ms later).  While the puck is beyond the top wall,
    inside the goal mouth and between the side walls, moving straight on,
    every further frame of the host (with frame times that do not go
    back) counts one more goal for the player: [n] frames add [n] to the
    player's score and play the goal sound [n] times, until the score
    reaches 11 and the match is over. *)
Theorem a_puck_left_in_the_goal_scores_on_every_frame
    (ts : list (R * Z * Z)) (w : World R) (p : Body.t R) :
  Game.isRunning (game w) = true -> Game.isHost (game w) = true ->
  Game.puck (game w) = Some p -> inTopGoal (game w) p ->
  ascending (Game.lastTime (game w)) ts ->
  (Score.player (Game.score (game w)) + Z.of_nat (List.length ts) <= winningScore)%Z ->
  Game.score (game (fst (run (frames ts) w)))
  = Score.mk (Score.player (Game.score (game w)) + Z.of_nat (List.length ts))
             (Score.opponent (Game.score (game w)))
  /\ goals (snd (run (frames ts) w)) = List.length ts
  /\ ((Score.player (Game.score (game w)) + Z.of_nat (List.length ts) < winningScore)%Z ->
      Game.isRunning (game (fst (run (frames ts) w))) = true)
  /\ (ts <> [] ->
      (Score.player (Game.score (game w)) + Z.of_nat (List.length ts) = winningScore)%Z ->
      halted (fst (run (frames ts) w))).
Proof. apply frames_in_goal. Qed.

(** From 0 : 0, eleven frames end the match at 11 : 0. *)
Lemma a_puck_left_in_the_goal_scores_on_every_frame_witness :
  Game.score
    (game (fst (run (frames MoreExamples.elevenFrames)
                    (RealExamples.host MoreExamples.inTheGoal (Score.mk 0 0)))))
  = Score.mk 11 0
  /\ halted (fst (run (frames MoreExamples.elevenFrames)
                      (RealExamples.host MoreExamples.inTheGoal (Score.mk 0 0)))).
Proof.
  destruct (a_puck_left_in_the_goal_scores_on_every_frame
              MoreExamples.elevenFrames
              (RealExamples.host MoreExamples.inTheGoal (Score.mk 0 0))
              MoreExamples.inTheGoal eq_refl eq_refl eq_refl)
    as (Hscore & _ & _ & Hhalt).
  - unfold inTopGoal, wallTop, goalLeft, goalRight, wallLeft, wallRight. cbn.
    destruct Q2R_lits as (_ & _ & -> & _). lra.
  - cbn. lra.
  - cbn. unfold winningScore. lia.
  - split; [exact Hscore|]. apply Hhalt; [discriminate|reflexivity].
Defined.

(* ================================================================= *)
(** ** Serving the puck *)

Section Serve.
Local Open Scope R_scope.

(** The puck that [resetPuck] leaves. *)
Lemma resetPuck_run (towardPlayer : bool) (rnd : R) (now : Z) (w : World R)
    (p : Body.t R) :
  Game.puck (game w) = Some p ->
  let angle := (rnd - 1 / 2) * PI / 2 in
  let q := Body.mk (Game.width (game w) / 2) (Game.height (game w) / 2)
                   (sin angle * 8)
                   (cos angle * 8 * (if towardPlayer then 1 else - 1))
                   (Body.radius p) (Body.lastX p) (Body.lastY p) in
  exists n' out,
    resetPuck towardPlayer rnd now w
    = Done tt (mkWorld (Game.set_puck (Some q) (Game.set_puckTrail [] (game w))) n')
           out
    /\ (forall e, In e out -> ~ isBroadcast e -> e = console_error)
    /\ (Network.isConnected (net w) = false -> out = [] /\ n' = net w).
Proof.
  intros Hp angle q. subst angle q.
  destruct Q2R_lits as (L0 & L1 & L2 & _ & _ & L05 & _).
  destruct Q2R_more_lits as (_ & L8 & _).
  destruct w as [[] [? [[?]|] [] ? ? ?]]; cbn in Hp; subst; destruct p;
    exec; cbn [lit Real.arith nmul nsub ndiv nneg Math_PI Math_sin Math_cos Real.math];
    rewrite ?L1, ?L2, ?L05, ?L8;
    repeat branch;
    eexists _, _; (split; [reflexivity|]); cbn;
    (split; [intros e He Hb; intuition (subst; cbn in *; tauto)
            |intros; try discriminate; auto]).
Qed.

Lemma serve_angle (rnd : R) :
  0 <= rnd < 1 -> - (PI / 4) <= (rnd - 1 / 2) * PI / 2 <= PI / 4.
Proof. intros H. pose proof PI_RGT_0. split; nra. Qed.

Lemma speed_of_serve (a s : R) (b : Body.t R) :
  s * s = 1 -> Body.vx b = sin a * 8 -> Body.vy b = cos a * 8 * s -> speed b = 8.
Proof.
  intros Hs Hx Hy. unfold speed. cbn. rewrite Hx, Hy.
  replace (sin a * 8 * (sin a * 8) + cos a * 8 * s * (cos a * 8 * s))
    with (64 * (sin a * sin a + cos a * cos a * (s * s))) by ring.
  rewrite Hs, Rmult_1_r, sin_cos_square, Rmult_1_r. apply sqrt_64.
Qed.

End Serve.



(* ================================================================= *)
(** ** The start of a match *)

Section Start.
Local Open Scope R_scope.

(** The world that [newMatch] leaves. *)
Lemma newMatch_run (isHost : bool) (r1 r2 r3 : R) (w : World R) :
  let g := game w in
  let b := PI / 4 + r2 * PI / 4 in
  exists s1 s3 : R,
    (s1 = 1 \/ s1 = - (1)) /\ (s3 = 1 \/ s3 = - (1))
    /\ newMatch isHost r1 r2 r3 w
       = Done tt
           (mkWorld
              (Game.mk (Game.width g) (Game.height g)
                 (Some (Body.mk (Game.width g / 2) (Game.height g / 2)
                          (if isHost then sin (s1 * b) * 8 else 0)
                          (if isHost then cos (s1 * b) * 8 * s3 else 0)
                          (Game.puckRadius g) None None))
                 (Some (Body.mk (Game.width g / 2)
                          (Game.height g - Game.paddleRadius g
                           - Game.wallThickness g - 20)
                          0 0 (Game.paddleRadius g) None None))
                 (Some (Body.mk (Game.width g / 2)
                          (Game.paddleRadius g + Game.wallThickness g + 20)
                          0 0 (Game.paddleRadius g) None None))
                 true isHost (Score.mk 0 0)
                 (Game.paddleRadius g) (Game.puckRadius g) (Game.goalWidth g)
                 (Game.wallThickness g) [] (Game.lastTime g) (Game.animationId g))
              (net w)) [].
Proof.
  intros g b. subst g b.
  destruct Q2R_lits as (L0 & L1 & L2 & _ & _ & L05 & _).
  destruct Q2R_more_lits as (L4 & L8 & _ & L20 & _).
  destruct w as [[] n].
  exists (if ngt r1 (lit 0.5) then 1 else - (1)),
         (if ngt r3 (lit 0.5) then 1 else - (1)).
  split; [destruct (ngt r1 _); auto|]. split; [destruct (ngt r3 _); auto|].
  destruct isHost; exec_all;
    cbn [lit Real.arith nmul nsub nadd ndiv nneg Math_PI Math_sin Math_cos Real.math];
    rewrite ?L0, ?L1, ?L2, ?L4, ?L8, ?L20; reflexivity.
Qed.

Lemma kickoff_angle (r2 : R) : 0 <= r2 < 1 -> PI / 4 <= PI / 4 + r2 * PI / 4 < PI / 2.
Proof. intros H. pose proof PI_RGT_0. split; nra. Qed.

End Start.



(* ================================================================= *)
(** ** The layout of the arena *)

Section LayoutFacts.
Local Open Scope R_scope.

(** The world and the canvas that [resize] leaves. *)
Lemma resize_run (dpr : option R) (rw rh : R) (w : World R) :
  let m := Rmin rw rh in
  let d := orElse dpr 1 in
  exists puck pp op,
    resize dpr rw rh w
    = Done (mkCanvas (rw * d) (rh * d) d d)
        (mkWorld
           (Game.mk rw rh puck pp op
              (Game.isRunning (game w)) (Game.isHost (game w)) (Game.score (game w))
              (m * (8 / 100)) (m * (5 / 100)) (rw * (4 / 10)) (m * (2 / 100))
              (Game.puckTrail (game w)) (Game.lastTime (game w))
              (Game.animationId (game w)))
           (net w)) []
    /\ (forall p, Game.puck (game w) = Some p ->
        puck = Some (Body.set_y (rh / 2) (Body.set_x (rw / 2) p)))
    /\ (Game.puck (game w) = None ->
        puck = None /\ pp = Game.playerPaddle (game w)
        /\ op = Game.opponentPaddle (game w)).
Proof.
  intros m d. subst m d.
  destruct Q2R_lits as (L0 & L1 & L2 & _).
  destruct Q2R_more_lits as (_ & _ & _ & L20 & L08 & L05 & L04 & L02 & _).
  destruct w as [[] n].
  destruct puck as [p|], playerPaddle as [pp|], opponentPaddle as [op|]; exec_all;
    cbn [lit Real.arith nmul nsub nadd ndiv nmin];
    rewrite ?L1, ?L2, ?L20, ?L08, ?L05, ?L04, ?L02;
    eexists _, _, _; (split; [reflexivity|]);
    (split; [intros ? [=]; subst; reflexivity|intros; try discriminate; auto]).
Qed.

End LayoutFacts.



(* ================================================================= *)
(** ** The paddles: pointer input and relay *)

Section Pointer.
Local Open Scope R_scope.

(** The paddle and the message that [handleMove] leaves. *)
Lemma handleMove_run (cx cy l t : R) (w : World R) (pd : Body.t R) :
  Game.isRunning (game w) = true -> Game.playerPaddle (game w) = Some pd ->
  let g := game w in
  let pd' := Body.mk (Rmax (paddleMinX g) (Rmin (paddleMaxX g) (cx - l)))
                     (Rmax (paddleMinY g) (Rmin (paddleMaxY g) (cy - t)))
                     ((cx - l - Body.x pd) * (3 / 10))
                     ((cy - t - Body.y pd) * (3 / 10))
                     (Body.radius pd) (Body.lastX pd) (Body.lastY pd) in
  exists out,
    handleMove cx cy l t w = Done tt (setPlayerPaddle pd' w) out
    /\ (forall m, In m (sent out) -> m = Message.paddle (Body.x pd') (Body.y pd'))
    /\ (Network.isConnected (net w) = false -> out = [])
    /\ (Network.isConnected (net w) = true ->
        Network.connection (net w) = Some {| sendThrows := false |} ->
        out = [connection_send (Message.paddle (Body.x pd') (Body.y pd'))]).
Proof.
  intros Hrun Hpd g pd'. subst g pd'.
  destruct Q2R_lits as (_ & _ & _ & _ & _ & _ & _ & L03 & _).
  destruct w as [[] [? [[[]]|] [] ? ? ?]]; cbn in Hrun, Hpd; subst; destruct pd;
    exec_all; cbn [lit Real.arith nmul nsub nadd ndiv nmax nmin Real_max];
    rewrite ?L03; eexists; (split; [reflexivity|]); cbn;
    (split; [intros m Hm; intuition (subst; auto)|]);
    split; intros; try discriminate; auto.
Qed.

Lemma clamp_between (lo hi v : R) :
  lo <= Rmax lo (Rmin hi v)
  /\ (lo <= hi -> Rmax lo (Rmin hi v) <= hi)
  /\ (lo <= v <= hi -> Rmax lo (Rmin hi v) = v).
Proof.
  split; [apply Rmax_l|]. split.
  - intros H. apply Rmax_lub; [exact H|apply Rmin_l].
  - intros [H1 H2]. rewrite Rmin_right by exact H2. now apply Rmax_right.
Qed.

(** The paddle after a pointer event, inside its box. *)
Lemma handleMove_clamped (cx cy l t : R) (w : World R) (pd : Body.t R) :
  Game.isRunning (game w) = true -> Game.playerPaddle (game w) = Some pd ->
  exists pd' out,
    handleMove cx cy l t w = Done tt (setPlayerPaddle pd' w) out
    /\ paddleMinX (game w) <= Body.x pd'
    /\ paddleMinY (game w) <= Body.y pd'
    /\ (paddleMinX (game w) <= paddleMaxX (game w) ->
        Body.x pd' <= paddleMaxX (game w))
    /\ (paddleMinY (game w) <= paddleMaxY (game w) ->
        Body.y pd' <= paddleMaxY (game w))
    /\ (paddleMinX (game w) <= cx - l <= paddleMaxX (game w) ->
        Body.x pd' = cx - l)
    /\ (paddleMinY (game w) <= cy - t <= paddleMaxY (game w) ->
        Body.y pd' = cy - t)
    /\ Body.vx pd' = (cx - l - Body.x pd) * (3 / 10)
    /\ Body.vy pd' = (cy - t - Body.y pd) * (3 / 10)
    /\ Body.radius pd' = Body.radius pd
    /\ (forall m, In m (sent out) -> m = Message.paddle (Body.x pd') (Body.y pd'))
    /\ (Network.isConnected (net w) = false -> out = [])
    /\ (Network.isConnected (net w) = true ->
        Network.connection (net w) = Some {| sendThrows := false |} ->
        sent out = [Message.paddle (Body.x pd') (Body.y pd')]).
Proof.
  intros Hrun Hpd.
  destruct (handleMove_run cx cy l t w pd Hrun Hpd) as (out & Hmove & Hsent & Hoff & Hon).
  cbv zeta in *. eexists _, out. split; [exact Hmove|].
  cbn [Body.x Body.y Body.vx Body.vy Body.radius] in *.
  destruct (clamp_between (paddleMinX (game w)) (paddleMaxX (game w)) (cx - l))
    as (X1 & X2 & X3).
  destruct (clamp_between (paddleMinY (game w)) (paddleMaxY (game w)) (cy - t))
    as (Y1 & Y2 & Y3).
  repeat split; try assumption; try reflexivity.
  intros Hc Hconn. rewrite (Hon Hc Hconn). reflexivity.
Qed.

End Pointer.

(** X7.  While a match is running, a pointer event moves the player's
    paddle to the pointer, clamped (in real arithmetic) into the box that
    keeps it inside the walls and in the player's half, at least
    [paddleRadius + 10] below the centre line; a pointer inside the box
    is followed exactly.  The velocity of the paddle is 0.3 times the
    distance from the paddle to the pointer itself, not to the clamped
    position.  The position sent to the opponent is the clamped one, and
    nothing is sent while the peer is not connected.  While no match is
    running, the pointer does nothing. *)
Theorem the_pointer_moves_the_paddle_inside_its_half
    (cx cy l t : R) (w : World R) :
  (forall pd : Body.t R,
      Game.isRunning (game w) = true -> Game.playerPaddle (game w) = Some pd ->
      exists pd' out,
        handleMove cx cy l t w = Done tt (setPlayerPaddle pd' w) out
        /\ (paddleMinX (game w) <= Body.x pd')%R
        /\ (paddleMinY (game w) <= Body.y pd')%R
        /\ ((paddleMinX (game w) <= paddleMaxX (game w))%R ->
            (Body.x pd' <= paddleMaxX (game w))%R)
        /\ ((paddleMinY (game w) <= paddleMaxY (game w))%R ->
            (Body.y pd' <= paddleMaxY (game w))%R)
        /\ ((paddleMinX (game w) <= cx - l <= paddleMaxX (game w))%R ->
            Body.x pd' = (cx - l)%R)
        /\ ((paddleMinY (game w) <= cy - t <= paddleMaxY (game w))%R ->
            Body.y pd' = (cy - t)%R)
        /\ Body.vx pd' = ((cx - l - Body.x pd) * (3 / 10))%R
        /\ Body.vy pd' = ((cy - t - Body.y pd) * (3 / 10))%R
        /\ Body.radius pd' = Body.radius pd
        /\ (forall m, In m (sent out) -> m = Message.paddle (Body.x pd') (Body.y pd'))
        /\ (Network.isConnected (net w) = false -> out = [])
        /\ (Network.isConnected (net w) = true ->
            Network.connection (net w) = Some {| sendThrows := false |} ->
            sent out = [Message.paddle (Body.x pd') (Body.y pd')]))
  /\ (Game.isRunning (game w) = false -> handleMove cx cy l t w = Done tt w []).
Proof.
  split.
  - intros pd. apply handleMove_clamped.
  - intros Hrun. destruct w as [[] n]. cbn in Hrun. subst. reflexivity.
Qed.

(** A pointer below the canvas of the 400 x 600 arena: the paddle is held
    at the lowest row it may take, y = 560. *)
Lemma the_pointer_moves_the_paddle_inside_its_half_witness :
  exists pd' out,
    handleMove 250%R 900%R 10%R 10%R
      (RealExamples.host MoreExamples.inTheGoal (Score.mk 0 0))
    = Done tt (setPlayerPaddle pd'
                 (RealExamples.host MoreExamples.inTheGoal (Score.mk 0 0))) out
    /\ Body.x pd' = (250 - 10)%R
    /\ (Body.y pd' <= 600 - 32 - 8)%R
    /\ sent out = [Message.paddle (Body.x pd') (Body.y pd')].
Proof.
  destruct (proj1 (the_pointer_moves_the_paddle_inside_its_half 250%R 900%R 10%R 10%R
                     (RealExamples.host MoreExamples.inTheGoal (Score.mk 0 0)))
                  _ eq_refl eq_refl)
    as (pd' & out & Hmove & _ & _ & _ & Hy & Hx & _ & _ & _ & _ & _ & _ & Hsent).
  exists pd', out. split; [exact Hmove|]. split; [|split].
  - apply Hx. unfold paddleMinX, paddleMaxX. cbn. lra.
  - apply Hy. unfold paddleMinY, paddleMaxY. cbn.
    destruct Q2R_lits as (_ & _ & -> & _).
    destruct Q2R_more_lits as (_ & _ & -> & _). lra.
  - now apply Hsent.
Defined.

(** X8.  The receiver of a [paddle] message does not clamp, but the
    sender does: between two peers with arenas of the same size, every
    position that a pointer event of one peer puts on the wire moves the
    opponent paddle of the other (in real arithmetic, when the box of the
    paddle is not empty) to a place inside the side walls and in the
    upper half, at least [paddleRadius + 10] above the centre line and
    not into the top wall. *)
Theorem a_relayed_paddle_stays_in_the_upper_half
    (cx cy l t : R) (sender receiver : World R) (pd op : Body.t R) :
  Game.isRunning (game sender) = true ->
  Game.playerPaddle (game sender) = Some pd ->
  Game.opponentPaddle (game receiver) = Some op ->
  Game.width (game receiver) = Game.width (game sender) ->
  Game.height (game receiver) = Game.height (game sender) ->
  (paddleMinX (game sender) <= paddleMaxX (game sender))%R ->
  (paddleMinY (game sender) <= paddleMaxY (game sender))%R ->
  forall m, In m (sent (trace (handleMove cx cy l t sender))) ->
  exists op',
    handleMessage m receiver = Done tt (setOpponentPaddle op' receiver) []
    /\ (paddleMinX (game sender) <= Body.x op' <= paddleMaxX (game sender))%R
    /\ (Game.paddleRadius (game sender) + Game.wallThickness (game sender)
        <= Body.y op')%R
    /\ (Body.y op'
        <= Game.height (game sender) / 2 - Game.paddleRadius (game sender) - 10)%R.
Proof.
  intros Hrun Hpd Hop Hw Hh Hx Hy m Hm.
  destruct (handleMove_clamped cx cy l t sender pd Hrun Hpd)
    as (pd' & out & Hmove & X1 & Y1 & X2 & Y2 & _ & _ & _ & _ & _ & Hsent & _).
  rewrite Hmove in Hm. cbn [trace] in Hm. rewrite (Hsent m Hm).
  destruct (updateOpponentPaddle_run receiver op (Body.x pd') (Body.y pd') Hop)
    as (op' & Hmsg & _ & Hox & Hoy).
  exists op'. split; [exact Hmsg|]. rewrite Hox, Hoy, Hw, Hh.
  specialize (X2 Hx). specialize (Y2 Hy).
  destruct Q2R_lits as (_ & _ & L2 & _).
  destruct Q2R_more_lits as (_ & _ & L10 & _).
  unfold paddleMinX, paddleMaxX, paddleMinY, paddleMaxY in *.
  cbn [lit Real.arith nadd nsub nmul ndiv] in *. rewrite ?L2, ?L10 in *.
  repeat split; lra.
Qed.

(** The pointer below the canvas of the host of the 400 x 600 arena: the
    guest shows the paddle of its opponent at y = 40, the highest row. *)
Lemma a_relayed_paddle_stays_in_the_upper_half_witness :
  exists m op',
    In m (sent (trace (handleMove 250%R 900%R 10%R 10%R
                         (RealExamples.host MoreExamples.inTheGoal (Score.mk 0 0)))))
    /\ handleMessage m (RealExamples.guest MoreExamples.inTheGoal (Score.mk 0 0))
       = Done tt (setOpponentPaddle op'
                    (RealExamples.guest MoreExamples.inTheGoal (Score.mk 0 0))) []
    /\ (32 + 8 <= Body.y op' <= 600 / 2 - 32 - 10)%R.
Proof.
  destruct (handleMove_clamped 250%R 900%R 10%R 10%R
              (RealExamples.host MoreExamples.inTheGoal (Score.mk 0 0)) _
              eq_refl eq_refl)
    as (pd' & out & Hmove & _ & _ & _ & _ & _ & _ & _ & _ & _ & _ & _ & Hsent).
  specialize (Hsent eq_refl eq_refl).
  assert (Hin : In (Message.paddle (Body.x pd') (Body.y pd'))
                   (sent (trace (handleMove 250%R 900%R 10%R 10%R
                      (RealExamples.host MoreExamples.inTheGoal (Score.mk 0 0)))))).
  { rewrite Hmove. cbn [trace]. rewrite Hsent. now left. }
  destruct Q2R_lits as (_ & _ & L2 & _).
  destruct Q2R_more_lits as (_ & _ & L10 & _).
  destruct (a_relayed_paddle_stays_in_the_upper_half 250%R 900%R 10%R 10%R
              (RealExamples.host MoreExamples.inTheGoal (Score.mk 0 0))
              (RealExamples.guest MoreExamples.inTheGoal (Score.mk 0 0))
              _ _ eq_refl eq_refl eq_refl eq_refl eq_refl)
    with (m := Message.paddle (Body.x pd') (Body.y pd'))
    as (op' & Hmsg & _ & Hlo & Hhi).
  - unfold paddleMinX, paddleMaxX. cbn. lra.
  - unfold paddleMinY, paddleMaxY. cbn. rewrite L2, L10. lra.
  - exact Hin.
  - exists (Message.paddle (Body.x pd') (Body.y pd')), op'.
    split; [exact Hin|]. split; [exact Hmsg|]. cbn in Hlo, Hhi. lra.
Defined.

(* ================================================================= *)
(** ** The velocity of the opponent paddle *)

Section PaddleVelocity.
Local Open Scope R_scope.

(** [a || b] on real numbers. *)
Lemma orElse_real (a : option R) (b : R) :
  orElse a b = match a with
               | Some v => if Req_dec_T v 0 then b else v
               | None => b
               end.
Proof. destruct a as [v|]; [|reflexivity]. cbn. now destruct (Req_dec_T v 0). Qed.

(** The paddle that a [paddle] message leaves. *)
Lemma updateOpponentPaddle_velocity (w : World R) (op : Body.t R) (x y : R) :
  Game.opponentPaddle (game w) = Some op ->
  let X := Game.width (game w) - x in
  let Y := Game.height (game w) - y in
  handleMessage (Message.paddle x y) w
  = Done tt
      (setOpponentPaddle
         (Body.mk X Y ((X - orElse (Body.lastX op) X) * (3 / 10))
                      ((Y - orElse (Body.lastY op) Y) * (3 / 10))
                  (Body.radius op) (Some X) (Some Y)) w) [].
Proof.
  intros Hop X Y. subst X Y.
  destruct Q2R_lits as (_ & _ & _ & _ & _ & _ & _ & L03 & _).
  destruct w as [[] n]. cbn in Hop. subst. destruct op.
  unfold handleMessage, updateOpponentPaddle, bind, getNet, getGame, modifyGame,
    setOpponentPaddle.
  cbn [game net Game.opponentPaddle Game.width Game.height Body.x Body.y
       Body.set_x Body.set_y Body.set_vx Body.set_vy Body.set_lastX Body.set_lastY
       Body.lastX Body.lastY Body.vx Body.vy Body.radius
       lit Real.arith nsub nmul app].
  rewrite L03. reflexivity.
Qed.

End PaddleVelocity.

(** X9.  The opponent paddle takes its velocity, which the physics of the
    host uses in collisions, from consecutive [paddle] messages: in real
    arithmetic 0.3 times the difference of the last two mirrored
    positions.  The first message after a start (the paddle has no last
    position yet) gives velocity zero; and so does, per coordinate, a
    message that follows a mirrored coordinate of exactly 0, because
    [lastX || x] takes a last position of 0 for a missing one. *)
Theorem the_opponent_paddle_moves_with_the_last_two_messages
    (w : World R) (op : Body.t R) (x1 y1 x2 y2 : R) :
  Game.opponentPaddle (game w) = Some op ->
  Body.lastX op = None -> Body.lastY op = None ->
  let w1 := world (handleMessage (Message.paddle x1 y1) w) in
  let w2 := world (handleMessage (Message.paddle x2 y2) w1) in
  exists p1 p2,
    Game.opponentPaddle (game w1) = Some p1
    /\ Body.vx p1 = 0%R /\ Body.vy p1 = 0%R
    /\ Game.opponentPaddle (game w2) = Some p2
    /\ Body.x p2 = (Game.width (game w) - x2)%R
    /\ Body.y p2 = (Game.height (game w) - y2)%R
    /\ ((Game.width (game w) - x1)%R <> 0%R ->
        Body.vx p2 = ((x1 - x2) * (3 / 10))%R)
    /\ ((Game.width (game w) - x1)%R = 0%R -> Body.vx p2 = 0%R)
    /\ ((Game.height (game w) - y1)%R <> 0%R ->
        Body.vy p2 = ((y1 - y2) * (3 / 10))%R)
    /\ ((Game.height (game w) - y1)%R = 0%R -> Body.vy p2 = 0%R).
Proof.
  intros Hop HlastX HlastY w1 w2. subst w1 w2.
  rewrite (updateOpponentPaddle_velocity w op x1 y1 Hop). cbn [world].
  set (p1 := Body.mk _ _ _ _ _ _ _).
  rewrite (updateOpponentPaddle_velocity (setOpponentPaddle p1 w) p1 x2 y2)
    by (destruct w as [[] ?]; reflexivity).
  cbn [world]. eexists p1, _.
  assert (Hdim : Game.width (game (setOpponentPaddle p1 w)) = Game.width (game w)
                 /\ Game.height (game (setOpponentPaddle p1 w)) = Game.height (game w))
    by (destruct w as [[] ?]; split; reflexivity).
  destruct Hdim as [-> ->].
  split; [destruct w as [[] ?]; reflexivity|].
  subst p1. cbn [Body.vx Body.vy Body.lastX Body.lastY Body.x Body.y].
  rewrite HlastX, HlastY, !orElse_real.
  split; [ring|]. split; [ring|].
  split; [destruct w as [[] ?]; reflexivity|].
  split; [reflexivity|]. split; [reflexivity|].
  destruct (Req_dec_T (Game.width (game w) - x1) 0) as [Ex|Ex],
           (Req_dec_T (Game.height (game w) - y1) 0) as [Ey|Ey];
    cbn [Body.vx Body.vy]; repeat split; intros; try contradiction; ring.
Qed.

(** In the 400 x 600 arena: from x = 100 to x = 110 the mirrored paddle
    moves 10 to the left, with velocity -3. *)
Lemma the_opponent_paddle_moves_with_the_last_two_messages_witness :
  exists p1 p2,
    Game.opponentPaddle
      (game (world (handleMessage (Message.paddle 100%R 50%R)
                      (RealExamples.host MoreExamples.inTheGoal (Score.mk 0 0)))))
    = Some p1
    /\ Body.vx p1 = 0%R
    /\ Game.opponentPaddle
         (game (world (handleMessage (Message.paddle 110%R 50%R)
                  (world (handleMessage (Message.paddle 100%R 50%R)
                      (RealExamples.host MoreExamples.inTheGoal (Score.mk 0 0)))))))
       = Some p2
    /\ Body.vx p2 = ((100 - 110) * (3 / 10))%R.
Proof.
  destruct (the_opponent_paddle_moves_with_the_last_two_messages
              (RealExamples.host MoreExamples.inTheGoal (Score.mk 0 0))
              _ 100%R 50%R 110%R 50%R eq_refl eq_refl eq_refl)
    as (p1 & p2 & H1 & Hvx1 & _ & H2 & _ & _ & Hvx2 & _).
  exists p1, p2. repeat split; try assumption. apply Hvx2. cbn. lra.
Defined.

(* ================================================================= *)
(** ** Frames *)

(** X10.  A frame of a running host is one tick of the physics with the
    time step [min((currentTime - lastTime) / 16.67, 2)], followed by a
    render and the request for the next frame; a tick that throws ends
    the frame before the next one is requested.  In real arithmetic the
    time step is at most 2 (and exactly 2 from 33.34 ms on); it is
    non-negative exactly when the frame time is not before [lastTime],
    and there is no lower cap. *)
Theorem a_frame_of_the_host_is_one_tick_of_at_most_two_units
    (t : R) (now id : Z) (w : World R) :
  Game.isRunning (game w) = true -> Game.isHost (game w) = true ->
  exists dt : R,
    gameLoop t now id w
    = match updatePhysics dt now
              (mkWorld (Game.set_lastTime t (game w)) (net w)) with
      | Done _ w1 o1 =>
          Done tt (mkWorld (Game.set_animationId (Some id) (game w1)) (net w1))
               (o1 ++ [render; requestAnimationFrame])
      | Threw w1 o1 => Threw w1 o1
      end
    /\ dt = Rmin ((t - Game.lastTime (game w)) / (1667 / 100)) 2
    /\ (dt <= 2)%R
    /\ ((3334 / 100 <= t - Game.lastTime (game w))%R -> dt = 2%R)
    /\ ((0 <= dt)%R <-> (Game.lastTime (game w) <= t)%R).
Proof.
  intros Hrun Hhost.
  pose proof (gameLoop_running t now id w Hrun) as Hloop. cbv zeta in Hloop.
  rewrite Hhost in Hloop. cbn [when] in Hloop.
  destruct Q2R_lits as (_ & _ & L2 & _).
  destruct Q2R_more_lits as (_ & _ & _ & _ & _ & _ & _ & _ & L1667).
  cbn [lit Real.arith nmin nsub ndiv] in Hloop. rewrite L2, L1667 in Hloop.
  eexists. split; [exact Hloop|]. split; [reflexivity|].
  set (d := (t - Game.lastTime (game w))%R).
  assert (Hq : (d / (1667 / 100) = d * (100 / 1667))%R) by (field; lra).
  rewrite Hq. split; [apply Rmin_r|]. split; [|split].
  - intros Hd. apply Rmin_right. lra.
  - intros H0. apply Rnot_lt_le. intros Hlt.
    assert (Hm : (Rmin (d * (100 / 1667)) 2 <= d * (100 / 1667))%R) by apply Rmin_l.
    subst d. lra.
  - intros Hle. apply Rmin_glb; subst d; lra.
Qed.

(** A frame 16.67 ms after the last one: one time unit. *)
Lemma a_frame_of_the_host_is_one_tick_of_at_most_two_units_witness :
  exists dt : R,
    gameLoop (1667 / 100)%R 0 1 (RealExamples.host RealExamples.shot (Score.mk 0 0))
    = match updatePhysics dt 0
              (mkWorld (Game.set_lastTime (1667 / 100)%R
                          (game (RealExamples.host RealExamples.shot (Score.mk 0 0))))
                       (net (RealExamples.host RealExamples.shot (Score.mk 0 0)))) with
      | Done _ w1 o1 =>
          Done tt (mkWorld (Game.set_animationId (Some 1%Z) (game w1)) (net w1))
               (o1 ++ [render; requestAnimationFrame])
      | Threw w1 o1 => Threw w1 o1
      end
    /\ dt = 1%R.
Proof.
  destruct (a_frame_of_the_host_is_one_tick_of_at_most_two_units
              (1667 / 100)%R 0 1 (RealExamples.host RealExamples.shot (Score.mk 0 0))
              eq_refl eq_refl) as (dt & Hloop & Hdt & _).
  exists dt. split; [exact Hloop|]. rewrite Hdt. cbn.
  replace ((1667 / 100 - 0) / (1667 / 100))%R with 1%R by (field; lra).
  apply Rmin_left. lra.
Defined.

(* ================================================================= *)
(** ** The guest *)

Section GuestEvents.
Context {num : Type} {A : Arith num} {X : ArithMax num} {M : MathFns num}.

Ltac guest_done :=
  unfold asGuest, holds, noSimulation in *; cbn in *;
  try tauto; try (split; [tauto|intros; discriminate]); auto.

Lemma handleMessage_asGuest (data : Message.t num) :
  preserves asGuest (handleMessage data).
Proof.
  unfold handleMessage, updateFromHost, updateOpponentPaddle, gameOver, send.
  destruct data; preserving; guest_done.
Qed.

Lemma handleMessage_noSimulation (data : Message.t num) :
  emits_only noSimulation (handleMessage data).
Proof.
  unfold handleMessage, updateFromHost, updateOpponentPaddle, gameOver, send.
  destruct data; emits; guest_done.
Qed.

Lemma handleMove_asGuest (cx cy l t : num) : preserves asGuest (handleMove cx cy l t).
Proof. unfold handleMove, sendPaddlePosition, send. preserving; guest_done. Qed.

Lemma handleMove_noSimulation (cx cy l t : num) :
  emits_only noSimulation (handleMove cx cy l t).
Proof. unfold handleMove, sendPaddlePosition, send. emits; guest_done. Qed.

Lemma resize_asGuest (dpr : option num) (rw rh : num) :
  preserves asGuest (resize dpr rw rh).
Proof. unfold resize, resetPositions. preserving; guest_done. Qed.

Lemma resize_silent (dpr : option num) (rw rh : num) (w : World num) :
  trace (resize dpr rw rh w) = [].
Proof. destruct (resize_done dpr rw rh w) as (c & g & ->). reflexivity. Qed.

(** A frame of a guest: no physics. *)
Lemma gameLoop_guest (t : num) (now id : Z) (w : World num) :
  asGuest w ->
  gameLoop t now id w
  = if Game.isRunning (game w) then
      Done tt (mkWorld (Game.set_animationId (Some id)
                          (Game.set_lastTime t (game w))) (net w))
           [render; requestAnimationFrame]
    else Done tt w [].
Proof.
  intros Hg. destruct w as [[] n]. unfold asGuest in Hg. cbn in Hg. subst.
  destruct isRunning; reflexivity.
Qed.

Lemma deliver_guest (e : Event) (w : World num) :
  asGuest w -> guestEvent e = true ->
  asGuest (world (deliver e w)) /\ Forall noSimulation (trace (deliver e w)).
Proof.
  intros Hg He. destruct e as [[t now id|tm r now|data]|cx cy l t|dpr rw rh|];
    try discriminate; cbn [deliver dispatch].
  - rewrite (gameLoop_guest t now id w Hg).
    destruct (Game.isRunning (game w)); cbn [world trace].
    + split; [destruct w as [[] ?]; exact Hg|].
      repeat constructor; try (intros []); discriminate.
    + split; [exact Hg|constructor].
  - split; [now apply handleMessage_asGuest|apply handleMessage_noSimulation].
  - split; [now apply handleMove_asGuest|apply handleMove_noSimulation].
  - split.
    + apply (preserves_bind asGuest); [apply resize_asGuest| |exact Hg].
      intros; apply preserves_ret.
    + rewrite trace_bind, resize_silent.
      destruct (resize dpr rw rh w); constructor.
Qed.

Lemma handleMessage_holds (data : Message.t num) puck score :
  (match data with Message.gameState _ => false | _ => true end) = true ->
  preserves (holds puck score) (handleMessage data).
Proof.
  unfold handleMessage, updateOpponentPaddle, send.
  destruct data; try discriminate; intros _; preserving; guest_done.
Qed.

Lemma handleMove_holds (cx cy l t : num) puck score :
  preserves (holds puck score) (handleMove cx cy l t).
Proof. unfold handleMove, sendPaddlePosition, send. preserving; guest_done. Qed.

Lemma deliver_holds (e : Event) (w : World num) puck score :
  asGuest w -> besidesState e = true ->
  holds puck score w -> holds puck score (world (deliver e w)).
Proof.
  intros Hg He Hw. destruct e as [[t now id|tm r now|data]|cx cy l t|dpr rw rh|];
    try discriminate; cbn [deliver dispatch].
  - rewrite (gameLoop_guest t now id w Hg).
    destruct (Game.isRunning (game w)); cbn [world]; [|exact Hw].
    destruct w as [[] ?]. exact Hw.
  - apply handleMessage_holds; [|exact Hw]. destruct data; try reflexivity.
    discriminate.
  - now apply handleMove_holds.
Qed.

Lemma deliverAll_guest (es : list Event) (w : World num) :
  asGuest w -> forallb guestEvent es = true ->
  asGuest (fst (deliverAll es w)) /\ Forall noSimulation (snd (deliverAll es w)).
Proof.
  revert w. induction es as [|e es IH]; intros w Hg Hes; cbn [deliverAll].
  - split; [exact Hg|constructor].
  - cbn [forallb] in Hes. apply andb_true_iff in Hes. destruct Hes as [He Hes].
    destruct (deliver_guest e w Hg He) as [Hg1 Hq1].
    specialize (IH _ Hg1 Hes).
    destruct (deliverAll es (world (deliver e w))) as [w' out].
    cbn [fst snd] in *. split; [apply IH|]. apply Forall_app. split; [exact Hq1|apply IH].
Qed.

Lemma besidesState_guestEvent (e : @Event num) : besidesState e = true -> guestEvent e = true.
Proof. destruct e as [[| |[]]| | |]; cbn; auto; discriminate. Qed.

Lemma deliverAll_holds (es : list Event) (w : World num) puck score :
  asGuest w -> forallb besidesState es = true ->
  holds puck score w -> holds puck score (fst (deliverAll es w)).
Proof.
  revert w. induction es as [|e es IH]; intros w Hg Hes Hw; cbn [deliverAll].
  - exact Hw.
  - cbn [forallb] in Hes. apply andb_true_iff in Hes. destruct Hes as [He Hes].
    pose proof (deliver_holds e w puck score Hg He Hw) as Hw1.
    destruct (deliver_guest e w Hg (besidesState_guestEvent e He)) as [Hg1 _].
    specialize (IH _ Hg1 Hes Hw1).
    destruct (deliverAll es (world (deliver e w))) as [w' out]. exact IH.
Qed.

End GuestEvents.

(** X11.  A guest never simulates.  Whatever a guest is delivered in a
    match (frames, messages of any kind, pointer events, resizes), it
    stays a guest, puts no [gameState] on the wire and arms no timer; and
    apart from [gameState] messages (and resizes, which put the puck at
    the centre) nothing it is delivered changes the puck or the score:
    a frame of a guest only renders. *)
Theorem a_guest_never_simulates
    {num : Type} {A : Arith num} {X : ArithMax num} {M : MathFns num}
    (es : list Event) (w : World num) :
  Game.isHost (game w) = false ->
  (forallb guestEvent es = true ->
   Game.isHost (game (fst (deliverAll es w))) = false
   /\ Forall noSimulation (snd (deliverAll es w)))
  /\ (forallb besidesState es = true ->
      Game.puck (game (fst (deliverAll es w))) = Game.puck (game w)
      /\ Game.score (game (fst (deliverAll es w))) = Game.score (game w)).
Proof.
  intros Hg. split; intros Hes.
  - exact (deliverAll_guest es w Hg Hes).
  - exact (deliverAll_holds es w (Game.puck (game w)) (Game.score (game w)) Hg Hes
             (conj eq_refl eq_refl)).
Qed.

(** A guest at 2 : 1 that is delivered a frame, a pointer event, a
    [paddle] and a [ready] message. *)
Lemma a_guest_never_simulates_witness :
  let es := [during_match (Frame 16.67 1000 1); pointer 100 500 0 0;
             during_match (Data (Message.paddle 150 60));
             during_match (Data Message.ready)]%R in
  let w := RealExamples.guest RealExamples.fast (Score.mk 2 1) in
  Forall noSimulation (snd (deliverAll es w))
  /\ Game.score (game (fst (deliverAll es w))) = Score.mk 2 1.
Proof.
  destruct (@a_guest_never_simulates R _ _ _
              [during_match (Frame 16.67 1000 1); pointer 100 500 0 0;
               during_match (Data (Message.paddle 150 60));
               during_match (Data Message.ready)]%R
              (RealExamples.guest RealExamples.fast (Score.mk 2 1)) eq_refl)
    as [H1 H2].
  split; [exact (proj2 (H1 eq_refl))|exact (proj2 (H2 eq_refl))].
Defined.

(* ================================================================= *)
(** ** Joining a room *)

Section JoinGame.
Local Open Scope string_scope.

Lemma joinGame_joining (code : string) (b : bool) (n : Network.t) :
  joining code (fst (Join.joinGame code b n)).
Proof. repeat split; cbn in *; discriminate. Qed.

Lemma settle_settled (st : Join.state) (s : Join.session) :
  Join.promise s <> Join.pending -> Join.settle st s = s.
Proof. unfold Join.settle. destruct (Join.promise s); congruence. Qed.

Lemma settle_promise (st : Join.state) (s : Join.session) :
  Join.promise (Join.settle st s)
  = match Join.promise s with Join.pending => st | p => p end.
Proof. unfold Join.settle. destruct (Join.promise s) eqn:E; cbn; congruence. Qed.

Lemma settle_network (st : Join.state) (s : Join.session) :
  Join.network (Join.settle st s) = Join.network s
  /\ Join.roomCode (Join.settle st s) = Join.roomCode s
  /\ Join.dialled (Join.settle st s) = Join.dialled s.
Proof. unfold Join.settle. destruct (Join.promise s); repeat split. Qed.

Lemma handle_settled (e : Join.event) (s : Join.session) :
  Join.promise s <> Join.pending ->
  Join.promise (fst (Join.handle e s)) = Join.promise s.
Proof.
  intros H. destruct e; cbn [Join.handle setupConnectionOf setupConnection];
    repeat match goal with
           | |- context [if ?c then _ else _] => destruct c
           end;
    cbn [fst]; rewrite ?settle_promise; cbn [Join.promise];
    try reflexivity; destruct (Join.promise s); congruence.
Qed.

Ltac join_simpl :=
  cbn [fst snd dialledIn flat_map app map Join.network Join.promise
       Join.roomCode Join.dialled Join.onConnected_is_set
       Network.isHost Network.roomCode Network.isConnected
       Network.set_connection Network.set_isConnected
       Network.peer Network.connection Network.lastStateSend network
       promises onConnected_is_set] in *.

Lemma handle_joining (code : string) (e : Join.event) (s : Join.session) :
  joining code s ->
  joining code (fst (Join.handle e s))
  /\ Forall (eq ("airhockey-" ++ code)) (dialledIn (snd (Join.handle e s)))
  /\ (Join.promise (fst (Join.handle e s)) = Join.fulfilled ->
      Join.promise s = Join.fulfilled
      \/ (In (Join.setup connection_on_handlers) (snd (Join.handle e s))
          /\ In (Join.setup setTimeout_ready_500) (snd (Join.handle e s))))
  /\ (Join.dialled (fst (Join.handle e s)) = true ->
      Join.dialled s = true \/ exists conn, e = Join.peer_open conn).
Proof.
  unfold joining. intros (Hh & Hc & Hr & Hf).
  assert (Hf1 : Join.promise s = Join.fulfilled ->
                Network.isConnected (Join.network s) = true)
    by (intros E; now destruct (Hf E)).
  assert (Hf2 : Join.promise s = Join.fulfilled -> Join.dialled s = true)
    by (intros E; now destruct (Hf E)).
  set (hostId := "airhockey-" ++ code).
  destruct e as [conn| |type|type|];
    cbn [Join.handle setupConnectionOf setupConnection].
  - join_simpl. rewrite Hr. fold hostId. repeat split; auto.
    right. now exists conn.
  - destruct (Join.dialled s) eqn:Hd; cbn [fst snd].
    + cbn [network promises onConnected_is_set].
      destruct (settle_network Join.fulfilled
                  (Join.mk (Network.set_isConnected true (Join.network s))
                     (Join.promise s) (Join.roomCode s) true
                     (Join.onConnected_is_set s))) as (En & Er & Ed).
      rewrite En, Er, Ed, settle_promise. join_simpl. rewrite Hh.
      repeat split; auto.
      * destruct (Join.onConnected_is_set s); cbn; constructor.
      * intros _. right. split; [now left|].
        destruct (Join.onConnected_is_set s); cbn; auto.
    + repeat split; auto; try constructor; try solve [intuition congruence].
  - destruct (Join.dialled s) eqn:Hd; cbn [fst snd];
      [|repeat split; auto; try constructor; try solve [intuition congruence]].
    destruct (settle_network (Join.rejected (Join.ConnectionError type)) s)
      as (En & Er & Ed).
    rewrite En, Er, Ed, settle_promise. join_simpl.
    repeat split; auto; try constructor;
      destruct (Join.promise s); try discriminate; auto.
  - cbn [fst snd].
    destruct (settle_network (Join.rejected (Join.PeerError type)) s)
      as (En & Er & Ed).
    rewrite En, Er, Ed, settle_promise. join_simpl.
    repeat split; auto; try constructor;
      destruct (Join.promise s); try discriminate; auto.
  - destruct (negb (Network.isConnected (Join.network s))); cbn [fst snd];
      [|repeat split; auto; try constructor; try solve [intuition congruence]].
    destruct (settle_network (Join.rejected Join.Could_not_connect_to_room) s)
      as (En & Er & Ed).
    rewrite En, Er, Ed, settle_promise. join_simpl.
    repeat split; auto; try constructor;
      destruct (Join.promise s); try discriminate; auto.
Qed.

Lemma dialledIn_app (a b : list Join.effect) :
  dialledIn (a ++ b)%list = (dialledIn a ++ dialledIn b)%list.
Proof. unfold dialledIn. apply flat_map_app. Qed.

Lemma handleAll_joining (code : string) (es : list Join.event) (s : Join.session) :
  joining code s ->
  joining code (fst (Join.handleAll es s))
  /\ Forall (eq ("airhockey-" ++ code)) (dialledIn (snd (Join.handleAll es s)))
  /\ (Join.promise (fst (Join.handleAll es s)) = Join.fulfilled ->
      Join.promise s = Join.fulfilled
      \/ (In (Join.setup connection_on_handlers) (snd (Join.handleAll es s))
          /\ In (Join.setup setTimeout_ready_500) (snd (Join.handleAll es s))))
  /\ (Join.dialled (fst (Join.handleAll es s)) = true ->
      Join.dialled s = true \/ exists conn, In (Join.peer_open conn) es).
Proof.
  revert s. induction es as [|e es IH]; intros s Hs; cbn [Join.handleAll].
  - cbn [fst snd dialledIn flat_map]. split; [exact Hs|].
    split; [constructor|]. split; auto.
  - destruct (handle_joining code e s Hs) as (H1 & Hd1 & Hf1 & Hp1).
    destruct (Join.handle e s) as [s1 out1]. cbn [fst snd] in *.
    destruct (IH s1 H1) as (H2 & Hd2 & Hf2 & Hp2).
    destruct (Join.handleAll es s1) as [s2 out2]. cbn [fst snd] in *.
    split; [exact H2|]. split; [|split].
    + rewrite dialledIn_app. apply Forall_app. now split.
    + intros E. destruct (Hf2 E) as [E1|[Ha Hb]].
      * destruct (Hf1 E1) as [E0|[Ha Hb]]; [now left|right].
        split; apply in_or_app; now left.
      * right. split; apply in_or_app; now right.
    + intros E. destruct (Hp2 E) as [E1|[conn Hin]].
      * destruct (Hp1 E1) as [E0|[conn ->]]; [now left|right].
        exists conn. now left.
      * right. exists conn. now right.
Qed.

End JoinGame.



(* ================================================================= *)
(** ** The room code, from the host's screen to the guest's dial *)

Section RoomCode.
Local Open Scope string_scope.

Lemma substring_nil (n : nat) : substring 0 n EmptyString = EmptyString.
Proof. destruct n; reflexivity. Qed.

Lemma length_substring (n : nat) (s : string) :
  String.length (substring 0 n s) = Nat.min n (String.length s).
Proof.
  revert n. induction s as [|c s IH]; intros [|n]; cbn [substring String.length];
    try reflexivity.
  rewrite IH. reflexivity.
Qed.

Lemma substring_all (n : nat) (s : string) :
  (String.length s <= n)%nat -> substring 0 n s = s.
Proof.
  revert n. induction s as [|c s IH]; intros [|n] H; cbn [substring String.length] in *;
    try reflexivity; try lia.
  rewrite IH by lia. reflexivity.
Qed.

(** A prefix of a filtered string passes the filter unchanged. *)
Lemma digitsOnly_prefix (n : nat) (s : string) :
  digitsOnly (substring 0 n (digitsOnly s)) = substring 0 n (digitsOnly s).
Proof.
  revert n. induction s as [|c s IH]; intros n; cbn [digitsOnly].
  - now rewrite substring_nil.
  - destruct (isDigit c) eqn:Hc; [|apply IH].
    destruct n as [|n]; cbn [substring digitsOnly]; [reflexivity|].
    rewrite Hc, IH. reflexivity.
Qed.

Lemma codeInput_value (typed : string) :
  fst (codeInput_onInput typed) = substring 0 4 (digitsOnly typed).
Proof. reflexivity. Qed.

Lemma codeInput_submit (typed : string) :
  snd (codeInput_onInput typed) = (4 <=? String.length (digitsOnly typed))%nat.
Proof.
  unfold codeInput_onInput. cbn [snd]. rewrite length_substring.
  destruct (Nat.leb_spec 4 (String.length (digitsOnly typed))) as [H|H].
  - rewrite Nat.min_l by exact H. reflexivity.
  - rewrite Nat.min_r by lia. apply Nat.eqb_neq. lia.
Qed.

Lemma UI_joinGame_four (code : string) :
  String.length code = 4%nat -> UI_joinGame code = Network_joinGame code.
Proof. intros H. unfold UI_joinGame. rewrite H. reflexivity. Qed.

Lemma dial_of_joinGame (code : string) (b : bool) (n : Network.t) (conn : Connection) :
  dialledIn (snd (Join.handle (Join.peer_open conn) (fst (Join.joinGame code b n))))
  = ["airhockey-" ++ code].
Proof. reflexivity. Qed.

End RoomCode.



(** X14.  From the host's screen to the guest's dial.  [createGame] draws
    the code, stores it as [roomCode] (which [UI.createGame] displays once
    the promise resolves) and listens on the peer id ['airhockey-' + code].
    A guest who types text whose digits are that code, a code of four
    digits, is submitted without pressing a button, and when the guest's
    peer opens it dials exactly the peer id the host listens on. *)
Theorem a_guest_who_types_the_hosts_code_dials_the_hosts_peer
    (rnd : Random) (s : Session) (typed : string)
    (onConnected_is_set : bool) (n : Network.t) (conn : Connection) :
  let code := generateRoomCode rnd in
  let host := snd (fst (createGame rnd s)) in
  digitsOnly typed = code -> String.length code = 4%nat ->
  Network.roomCode (network host) = Some code
  /\ codeInput_onInput typed = (code, true)
  /\ UI_joinGame code = Network_joinGame code
  /\ map Some
       (dialledIn (snd (Join.handle (Join.peer_open conn)
                          (fst (Join.joinGame code onConnected_is_set n)))))
     = [peerIdOf host].
Proof.
  intros code host Hd Hl. split; [reflexivity|]. split; [|split].
  - unfold codeInput_onInput. rewrite Hd, substring_all by lia.
    rewrite Hl. reflexivity.
  - now apply UI_joinGame_four.
  - rewrite dial_of_joinGame. reflexivity.
Qed.

(** The host of room 4821 and a guest who types ["48 21"]. *)
Lemma a_guest_who_types_the_hosts_code_dials_the_hosts_peer_witness :
  let rnd := mkRandom 0.4246%float eq_refl in
  generateRoomCode rnd = "4821"%string
  /\ codeInput_onInput "48 21" = ("4821"%string, true)
  /\ peerIdOf hosting = Some "airhockey-4821"%string.
Proof.
  cbv zeta.
  assert (Hc : generateRoomCode (mkRandom 0.4246%float eq_refl) = "4821"%string)
    by (vm_compute; reflexivity).
  pose proof (a_guest_who_types_the_hosts_code_dials_the_hosts_peer
                (mkRandom 0.4246%float eq_refl) (mkSession Network_initial [] true)
                "48 21" true Network_initial {| sendThrows := false |}) as H.
  cbv zeta in H. rewrite Hc in H.
  destruct (H eq_refl eq_refl) as (_ & H2 & _ & _).
  split; [exact Hc|]. split; [exact H2|]. vm_compute. reflexivity.
Defined.

(* ================================================================= *)
(** ** A peer that is not connected *)

Section Offline.
Context {num : Type} {A : Arith num} {X : ArithMax num} {M : MathFns num}.

Lemma staysOffline_bind {Y Z} (m : JS num Y) (k : Y -> JS num Z) :
  staysOffline m -> (forall a, staysOffline (k a)) -> staysOffline (bind m k).
Proof.
  intros Hm Hk w Hw. rewrite world_bind, trace_bind.
  destruct (Hm w Hw) as [H1 H2]. destruct (m w) as [a w1 o1|w1 o1]; cbn in *.
  - destruct (Hk a w1 H1) as [H3 H4]. split; [exact H3|].
    apply Forall_app. now split.
  - split; [exact H1|]. apply Forall_app. split; [exact H2|constructor].
Qed.

Lemma staysOffline_ret {Y} (a : Y) : staysOffline (@ret num Y a).
Proof. intros w H. split; [exact H|constructor]. Qed.
Lemma staysOffline_throw {Y} : staysOffline (@throw num Y).
Proof. intros w H. split; [exact H|constructor]. Qed.
Lemma staysOffline_emit (e : Effect num) : offWire e -> staysOffline (emit e).
Proof. intros He w H. split; [exact H|]. cbn. auto. Qed.
Lemma staysOffline_getGame : staysOffline (@getGame num).
Proof. intros w H. split; [exact H|constructor]. Qed.
Lemma staysOffline_getNet : staysOffline (@getNet num).
Proof. intros w H. split; [exact H|constructor]. Qed.
Lemma staysOffline_deref {Y} (o : option Y) : staysOffline (@deref num Y o).
Proof. intros w H. destruct o; (split; [exact H|constructor]). Qed.
Lemma staysOffline_modifyGame f : staysOffline (@modifyGame num f).
Proof. intros w H. split; [exact H|constructor]. Qed.
Lemma staysOffline_set_lastStateSend (now : Z) :
  staysOffline (@modifyNet num (Network.set_lastStateSend now)).
Proof. intros [g []] H. split; [exact H|constructor]. Qed.
Lemma staysOffline_thisPuck : staysOffline (@thisPuck num).
Proof.
  apply staysOffline_bind; [apply staysOffline_getGame|intros; apply staysOffline_deref].
Qed.
Lemma staysOffline_modifyPuck f : staysOffline (@modifyPuck num f).
Proof.
  apply staysOffline_bind; [apply staysOffline_thisPuck|].
  intros; apply staysOffline_modifyGame.
Qed.
Lemma staysOffline_when c (m : JS num unit) :
  staysOffline m -> staysOffline (when c m).
Proof. intros H. destruct c; [exact H|apply staysOffline_ret]. Qed.

(** [send] tests [isConnected] itself. *)
Lemma staysOffline_send (data : Message.t num) : staysOffline (send data).
Proof.
  intros [g [? [c|] ? ? ? ?]] H; unfold offline in H; cbn in H; subst;
    (split; [reflexivity|constructor]).
Qed.

Ltac offline_step :=
  lazymatch goal with
  | |- staysOffline (send _) => apply staysOffline_send
  | |- staysOffline (bind _ _) => apply staysOffline_bind; [|intros ?]
  | |- staysOffline (ret _) => apply staysOffline_ret
  | |- staysOffline throw => apply staysOffline_throw
  | |- staysOffline getGame => apply staysOffline_getGame
  | |- staysOffline getNet => apply staysOffline_getNet
  | |- staysOffline (deref _) => apply staysOffline_deref
  | |- staysOffline thisPuck => apply staysOffline_thisPuck
  | |- staysOffline (emit _) => apply staysOffline_emit; exact I
  | |- staysOffline (when _ _) => apply staysOffline_when
  | |- staysOffline (modifyPuck _) => apply staysOffline_modifyPuck
  | |- staysOffline (modifyGame _) => apply staysOffline_modifyGame
  | |- staysOffline (modifyNet (Network.set_lastStateSend _)) =>
      apply staysOffline_set_lastStateSend
  | |- staysOffline (if ?c then _ else _) => destruct c
  | |- staysOffline (match ?x with _ => _ end) => destruct x
  end.
Ltac stays_offline := repeat offline_step.

Lemma updatePhysics_offline (dt : num) (now : Z) : staysOffline (updatePhysics dt now).
Proof.
  unfold updatePhysics, flight, finishTick, addToTrail, updatePuckPosition,
    applyFriction, clampSpeed, leftRightWalls, topWall, bottomWall,
    paddleCollisions, sendPuckState, checkPaddleCollision, goalScored, gameOver,
    sendGameState.
  stays_offline.
Qed.

Lemma dispatch_offline (c : Callback) : staysOffline (dispatch c).
Proof.
  destruct c as [t now id|[tp] rnd now|data]; cbn [dispatch].
  - unfold gameLoop.
    repeat lazymatch goal with
           | |- staysOffline (updatePhysics _ _) => apply updatePhysics_offline
           | _ => offline_step
           end.
  - unfold fire, resetPuck, sendGameState. stays_offline.
  - unfold handleMessage. destruct data;
      unfold updateOpponentPaddle, updateFromHost, addToTrail, gameOver;
      stays_offline.
Qed.

Lemma deliver_offline (e : Event) : staysOffline (deliver e).
Proof.
  destruct e; cbn [deliver].
  - apply dispatch_offline.
  - unfold handleMove, sendPaddlePosition. stays_offline.
  - unfold resize, resetPositions. stays_offline.
  - unfold resize, resetPositions, start, newMatch.
    repeat lazymatch goal with
           | |- staysOffline (gameLoop ?t ?now ?id) =>
               apply (dispatch_offline (Frame t now id))
           | _ => offline_step
           end.
Qed.

Lemma deliverAll_offline (es : list Event) (w : World num) :
  offline w ->
  offline (fst (deliverAll es w)) /\ Forall offWire (snd (deliverAll es w)).
Proof.
  revert w. induction es as [|e es IH]; intros w Hw; cbn [deliverAll].
  - split; [exact Hw|constructor].
  - destruct (deliver_offline e w Hw) as [H1 H2].
    specialize (IH _ H1). destruct (deliverAll es (world (deliver e w))).
    cbn [fst snd] in *. split; [apply IH|]. apply Forall_app. split; [exact H2|apply IH].
Qed.

End Offline.

(** X15.  [Network.disconnect] closes the connection and destroys the
    peer if there are any, forgets the room code and keeps the role; a
    second [disconnect] does nothing.  From then on, as for every peer
    whose session is not connected, nothing that the browser delivers
    (frames, timers, messages, pointer moves, resizes, new matches) uses
    the connection: no message is put on the wire and no send fails,
    although a host goes on simulating. *)
Theorem after_disconnect_nothing_is_put_on_the_wire
    {num : Type} {A : Arith num} {X : ArithMax num} {M : MathFns num}
    (n : Network.t) (g : Game.t num) (es : list Event) (w : World num) :
  (fst (disconnect n)
   = Network.mk None None false (Network.isHost n) None (Network.lastStateSend n)
   /\ snd (disconnect n)
      = match Network.connection n with
        | Some _ => [connection_close]
        | None => []
        end
        ++ match Network.peer n with Some _ => [peer_destroyed] | None => [] end
   /\ disconnect (fst (disconnect n)) = (fst (disconnect n), [])
   /\ Forall offWire (snd (deliverAll es (mkWorld g (fst (disconnect n))))))
  /\ (Network.isConnected (net w) = false ->
      Network.isConnected (net (fst (deliverAll es w))) = false
      /\ Forall offWire (snd (deliverAll es w))).
Proof.
  assert (E : fst (disconnect n)
              = Network.mk None None false (Network.isHost n) None
                           (Network.lastStateSend n)).
  { destruct n as [[p|] [c|] ? ? ? ?]; reflexivity. }
  split; [|exact (deliverAll_offline es w)].
  split; [exact E|]. split; [destruct n as [[p|] [c|] ? ? ? ?]; reflexivity|].
  split; [rewrite E; reflexivity|].
  apply deliverAll_offline. rewrite E. reflexivity.
Qed.

(** A host in a match leaves: the connection is closed, the peer
    destroyed, and twenty more frames send nothing. *)
Lemma after_disconnect_nothing_is_put_on_the_wire_witness :
  let w := RealExamples.host RealExamples.fast (Score.mk 0 0) in
  let es := repeat (during_match (Frame 16.67%R 1000 1)) 20 in
  snd (disconnect (net w)) = [connection_close; peer_destroyed]
  /\ Forall offWire (snd (deliverAll es (mkWorld (game w) (fst (disconnect (net w)))))).
Proof.
  cbv zeta.
  destruct (@after_disconnect_nothing_is_put_on_the_wire R _ _ _
              (net (RealExamples.host RealExamples.fast (Score.mk 0 0)))
              (game (RealExamples.host RealExamples.fast (Score.mk 0 0)))
              (repeat (during_match (Frame 16.67%R 1000 1)) 20)
              (RealExamples.host RealExamples.fast (Score.mk 0 0)))
    as [(_ & H2 & _ & H4) _].
  split; [exact H2|exact H4].
Defined.

(* ================================================================= *)
(** ** A room code that is taken *)

Section Retry.
Local Open Scope string_scope.

(** Settling a promise settles the pending promise it is chained to. *)
Lemma settle_chained (fuel j k : nat) (st : Promise.state) (ps : list Promise.t) :
  nth_error ps j = Some (Promise.mk Promise.pending (Some k)) ->
  statusIn ps k = Some Promise.pending -> j <> k -> st <> Promise.pending ->
  statusIn (settle (S (S fuel)) j st ps) j = Some st
  /\ statusIn (settle (S (S fuel)) j st ps) k = Some st.
Proof.
  intros Hj Hk Hjk Hst. split.
  - apply settle_pending; [|exact Hst]. unfold statusIn. now rewrite Hj.
  - change (settle (S (S fuel)) j st ps)
      with (match nth_error ps j with
            | Some p =>
                match Promise.status p with
                | Promise.pending =>
                    match Promise.chained p with
                    | Some k' => settle (S fuel) k' st (setStatus j st ps)
                    | None => setStatus j st ps
                    end
                | _ => ps
                end
            | None => ps
            end).
    rewrite Hj. cbn [Promise.status Promise.chained].
    apply settle_pending; [|exact Hst].
    rewrite statusIn_setStatus.
    destruct (Nat.eqb_spec k j) as [E|E]; [congruence|exact Hk].
Qed.

Lemma nth_error_new (ps : list Promise.t) (p : Promise.t) :
  nth_error (ps ++ [p]) (List.length ps) = Some p.
Proof. rewrite nth_error_app2 by lia. now rewrite Nat.sub_diag. Qed.

Lemma statusIn_lt (ps : list Promise.t) (k : nat) (st : Promise.state) :
  statusIn ps k = Some st -> (k < List.length ps)%nat.
Proof.
  unfold statusIn. intros H. apply nth_error_Some.
  destruct (nth_error ps k); [discriminate|discriminate].
Qed.

End Retry.

(** X16.  A room code that is taken.  When the broker refuses the peer id
    (['unavailable-id']) while the promise of [createGame] is pending, the
    host destroys the peer and calls [createGame] again; the code that
    the handler draws first is overwritten by the one that the new call
    draws, which is the code of the new peer id; the promise of the first
    call stays pending and follows the new one: when the new peer opens,
    both are fulfilled with the new code, and when the new call's timer
    finds the session not connected while they are pending, both are
    rejected.  Any other error of the peer rejects the promise at once. *)
Theorem a_taken_room_code_is_drawn_again_and_the_promise_follows_the_new_call
    (s : Session) (k : nat) (rnd1 rnd2 : Random) (type : string) :
  statusOf k s = Some Promise.pending ->
  let j := List.length (promises s) in
  let code := generateRoomCode rnd2 in
  let retry := handle (peer_error k "unavailable-id" rnd1 rnd2) s in
  let opened := fst (handle (peer_open j) (fst retry)) in
  let timedOut := fst (handle (timeout_60000 j) (fst retry)) in
  snd retry
  = [peer_destroy; new_Peer ("airhockey-" ++ code)%string; setTimeout_60000 j]
  /\ Network.roomCode (network (fst retry)) = Some code
  /\ Network.peer (network (fst retry)) = Some ("airhockey-" ++ code)%string
  /\ statusOf k (fst retry) = Some Promise.pending
  /\ statusOf j (fst retry) = Some Promise.pending
  /\ statusOf j opened = Some (Promise.fulfilled (Some code))
  /\ statusOf k opened = Some (Promise.fulfilled (Some code))
  /\ (Network.isConnected (network s) = false ->
      statusOf k timedOut
      = Some (Promise.rejected Promise.Timeout_waiting_for_connection))
  /\ (String.eqb type "unavailable-id" = false ->
      handle (peer_error k type rnd1 rnd2) s
      = (reject k (Promise.PeerError type) s, [])
      /\ statusOf k (reject k (Promise.PeerError type) s)
         = Some (Promise.rejected (Promise.PeerError type))).
Proof.
  intros Hk j code retry opened timedOut.
  pose proof (statusIn_lt _ _ _ Hk) as Hlt. fold j in Hlt.
  set (ps1 := update j (fun p => Promise.mk (Promise.status p) (Some k))
                (promises s ++ [Promise.mk Promise.pending None])).
  assert (Hj1 : nth_error ps1 j = Some (Promise.mk Promise.pending (Some k))).
  { unfold ps1. rewrite nth_error_update, Nat.eqb_refl. unfold j.
    now rewrite nth_error_new. }
  assert (Hk1 : statusIn ps1 k = Some Promise.pending).
  { unfold ps1. rewrite statusIn_chain. now apply statusIn_app. }
  assert (Hlen : List.length ps1 = S (S (pred j))).
  { assert (H : forall i f qs, List.length (update i f qs) = List.length qs).
    { intros i f qs. revert i. induction qs as [|q qs IH]; intros [|i]; cbn;
        try reflexivity. now rewrite IH. }
    unfold ps1. rewrite H, length_app. cbn. fold j. lia. }
  assert (Hr : fst retry
               = mkSession
                   (Network.set_peer (Some ("airhockey-" ++ code)%string)
                      (Network.set_isHost true
                         (Network.set_roomCode (Some code)
                            (Network.set_roomCode (Some (generateRoomCode rnd1))
                               (network s)))))
                   ps1 (onConnected_is_set s)) by reflexivity.
  split; [reflexivity|]. split; [reflexivity|]. split; [reflexivity|].
  split; [rewrite Hr; exact Hk1|].
  split; [rewrite Hr; unfold statusOf, statusIn; cbn [promises]; now rewrite Hj1|].
  assert (Hopen : statusOf j opened = Some (Promise.fulfilled (Some code))
                  /\ statusOf k opened = Some (Promise.fulfilled (Some code))).
  { unfold opened. rewrite Hr. unfold statusOf. cbn [handle fst resolve promises network].
    rewrite Hlen. apply settle_chained; auto; [lia|discriminate]. }
  split; [apply Hopen|]. split; [apply Hopen|]. split.
  - intros Hc. unfold timedOut. rewrite Hr. unfold statusOf.
    cbn [handle network Network.isConnected Network.set_peer Network.set_isHost
         Network.set_roomCode].
    rewrite Hc. cbn [negb fst reject promises]. rewrite Hlen.
    apply settle_chained; auto; [lia|discriminate].
  - intros Ht. cbn [handle]. rewrite Ht. split; [reflexivity|].
    unfold statusOf, reject. cbn [promises].
    destruct (statusIn_length _ _ _ Hk) as [m Hm]. rewrite Hm.
    apply settle_pending; [exact Hk|discriminate].
Qed.

(** The host of room 4821 whose id is taken draws 5000 next. *)
Lemma a_taken_room_code_is_drawn_again_and_the_promise_follows_the_new_call_witness :
  let rnd1 := mkRandom 0.9999999999999999%float eq_refl in
  let rnd2 := mkRandom 0.4444444444444444%float eq_refl in
  let retry := fst (handle (peer_error 0 "unavailable-id" rnd1 rnd2) hosting) in
  statusOf 0 hosting = Some Promise.pending
  /\ Network.roomCode (network retry) = Some "5000"%string
  /\ statusOf 0 (fst (handle (peer_open 1) retry))
     = Some (Promise.fulfilled (Some "5000"%string)).
Proof.
  cbv zeta.
  assert (Hc : generateRoomCode (mkRandom 0.4444444444444444%float eq_refl)
               = "5000"%string) by (vm_compute; reflexivity).
  pose proof (a_taken_room_code_is_drawn_again_and_the_promise_follows_the_new_call
                hosting 0 (mkRandom 0.9999999999999999%float eq_refl)
                (mkRandom 0.4444444444444444%float eq_refl) "network"
                eq_refl) as H.
  cbv zeta in H. rewrite Hc in H.
  destruct H as (_ & H2 & _ & _ & _ & _ & H7 & _).
  split; [reflexivity|]. split; [exact H2|exact H7].
Defined.

(* ================================================================= *)
(** ** The handshake that starts a match *)

Section Handshake.
Context {num : Type} {A : Arith num} {X : ArithMax num} {M : MathFns num}.

Ltac role_done := unfold inRole in *; cbn in *; auto.

Lemma updatePhysics_inRole (b : bool) (dt : num) (now : Z) :
  preserves (inRole b) (updatePhysics dt now).
Proof.
  unfold updatePhysics, flight, finishTick, addToTrail, updatePuckPosition,
    applyFriction, clampSpeed, leftRightWalls, topWall, bottomWall,
    paddleCollisions, sendPuckState, checkPaddleCollision, goalScored, gameOver,
    sendGameState, send.
  repeat lazymatch goal with
         | |- preserves _ _ => preserves_step
         end; role_done.
Qed.

Lemma gameLoop_inRole (b : bool) (t : num) (now id : Z) :
  preserves (inRole b) (gameLoop t now id).
Proof.
  unfold gameLoop.
  repeat lazymatch goal with
         | |- preserves _ (updatePhysics _ _) => apply updatePhysics_inRole
         | |- preserves _ _ => preserves_step
         end; role_done.
Qed.

Lemma establishes_bind {Y Z} (I : World num -> Prop) (m : JS num Y)
    (k : Y -> JS num Z) :
  (forall w, I (world (m w))) -> (forall a, preserves I (k a)) ->
  forall w, I (world (bind m k w)).
Proof.
  intros Hm Hk w. rewrite world_bind. specialize (Hm w).
  destruct (m w); cbn in Hm; [now apply Hk|exact Hm].
Qed.

(** [start] plays in the role it is given, whatever the role was. *)
Lemma start_inRole (b : bool) (r1 r2 r3 t1 t2 : num) (now id : Z) (w : World num) :
  inRole b (world (start b r1 r2 r3 t1 t2 now id w)).
Proof.
  unfold start. apply establishes_bind.
  - unfold newMatch. apply establishes_bind; [intros [g n]; reflexivity|].
    intros _. preserving; role_done.
  - intros _.
    repeat lazymatch goal with
           | |- preserves _ (gameLoop _ _ _) => apply gameLoop_inRole
           | |- preserves _ _ => preserves_step
           end; role_done.
Qed.

Lemma startGame_frame_inRole (b : bool) (dpr : option num)
    (rw rh r1 r2 r3 t1 t2 : num) (now id : Z) (w : World num) :
  inRole b (world (deliver (startGame_frame b dpr rw rh r1 r2 r3 t1 t2 now id) w)).
Proof.
  cbn [deliver]. rewrite world_bind.
  destruct (resize_done dpr rw rh w) as (c & g & ->). apply start_inRole.
Qed.

(** What a host whose connection works answers to [ready] and to
    [playAgain]. *)
Lemma host_answers_start (data : Message.t num) (w : World num) (c : Connection) :
  Network.isHost (net w) = true -> Network.connection (net w) = Some c ->
  sendThrows c = false -> Network.isConnected (net w) = true ->
  data = Message.ready \/ data = Message.playAgain ->
  handleMessage data w
  = Done tt w [connection_send Message.start; UI_startGame true].
Proof.
  destruct w as [g [? ? ? ? ? ?]], c as [[]]; cbn;
    intros -> -> Hc -> [->| ->]; try discriminate; reflexivity.
Qed.

Lemma guest_starts (data : Message.t num) (w : World num) :
  Network.isHost (net w) = false ->
  data = Message.start \/ data = Message.playAgain ->
  handleMessage data w = Done tt w [UI_startGame false].
Proof.
  destruct w as [g [? ? ? ? ? ?]]. cbn. intros -> [->| ->]; reflexivity.
Qed.

End Handshake.

(** X17.  The handshake that starts a match.  A host whose connection
    works answers [ready] (which the guest's 500 ms timer sends) and
    [playAgain] with exactly one [start] and starts its own game as host;
    a guest starts its game, as guest, on [start] and on [playAgain], and
    answers nothing; a guest ignores [ready] and a host takes [start] as
    its own start.  The frame that [UI.startGame(isHost)] requests makes
    [Game] play in the role [isHost], whatever role it played in before;
    so after the handshake [Game.isHost] agrees with [Network.isHost] on
    both sides. *)
Theorem the_handshake_starts_each_peer_in_its_own_role
    {num : Type} {A : Arith num} {X : ArithMax num} {M : MathFns num}
    (host guest : World num) (c : Connection) :
  Network.isHost (net host) = true -> Network.connection (net host) = Some c ->
  sendThrows c = false -> Network.isConnected (net host) = true ->
  Network.isHost (net guest) = false ->
  (forall data, data = Message.ready \/ data = Message.playAgain ->
     handleMessage data host
     = Done tt host [connection_send Message.start; UI_startGame true])
  /\ (forall data, In (connection_send data)
                     (trace (handleMessage Message.ready host)) ->
      handleMessage data guest = Done tt guest [UI_startGame false])
  /\ handleMessage Message.playAgain guest = Done tt guest [UI_startGame false]
  /\ handleMessage Message.ready guest = Done tt guest []
  /\ handleMessage Message.start host = Done tt host [UI_startGame true]
  /\ (forall (w : World num) (isHost : bool) (dpr : option num)
             (rw rh r1 r2 r3 t1 t2 : num) (now id : Z),
        Game.isHost
          (game (world (deliver (startGame_frame isHost dpr rw rh r1 r2 r3 t1 t2
                                                 now id) w)))
        = isHost).
Proof.
  intros Hh Hc Ht Hi Hg.
  pose proof (host_answers_start Message.ready host c Hh Hc Ht Hi (or_introl eq_refl))
    as Hready.
  pose proof (host_answers_start Message.playAgain host c Hh Hc Ht Hi
                (or_intror eq_refl)) as Hagain.
  pose proof (guest_starts Message.start guest Hg (or_introl eq_refl)) as Hstart.
  pose proof (guest_starts Message.playAgain guest Hg (or_intror eq_refl)) as Hgagain.
  assert (Hhstart : handleMessage Message.start host = Done tt host [UI_startGame true]).
  { destruct host as [g [? ? ? ? ? ?]]. cbn in Hh. subst. reflexivity. }
  split; [intros data Hd; now apply (host_answers_start data host c)|].
  split.
  { intros data Hin. rewrite Hready in Hin. cbn in Hin.
    destruct Hin as [E|[E|[]]]; [|discriminate].
    injection E as <-. exact Hstart. }
  split; [exact Hgagain|].
  split; [destruct guest as [g [? ? ? ? ? ?]]; cbn in Hg; subst; reflexivity|].
  split; [exact Hhstart|].
  intros w isHost dpr rw rh r1 r2 r3 t1 t2 now id.
  apply startGame_frame_inRole.
Qed.

(** The host and the guest of the examples. *)
Lemma the_handshake_starts_each_peer_in_its_own_role_witness :
  let host := RealExamples.host RealExamples.fast (Score.mk 0 0) in
  let guest := RealExamples.guest RealExamples.fast (Score.mk 0 0) in
  handleMessage Message.ready host
  = Done tt host [connection_send Message.start; UI_startGame true]
  /\ handleMessage Message.start guest = Done tt guest [UI_startGame false].
Proof.
  cbv zeta.
  destruct (@the_handshake_starts_each_peer_in_its_own_role R _ _ _
              (RealExamples.host RealExamples.fast (Score.mk 0 0))
              (RealExamples.guest RealExamples.fast (Score.mk 0 0))
              {| sendThrows := false |} eq_refl eq_refl eq_refl eq_refl eq_refl)
    as (H1 & H2 & _).
  split; [exact (H1 Message.ready (or_introl eq_refl))|].
  apply H2. rewrite (H1 Message.ready (or_introl eq_refl)). left. reflexivity.
Defined.

(* ================================================================= *)
(** ** A game that is stopped *)

Section Halted.
Context {num : Type} {A : Arith num} {X : ArithMax num} {M : MathFns num}.

Lemma deliver_halted (e : Event) (w : World num) :
  halted w -> guardedByIsRunning e = true -> deliver e w = Done tt w [].
Proof.
  unfold halted. intros Hw He. destruct w as [[] n]. cbn in Hw. subst.
  destruct e as [[t now id|[tp] rnd now|data]|cx cy l t|dpr rw rh|];
    try discriminate; reflexivity.
Qed.

Lemma deliverAll_halted (es : list Event) (w : World num) :
  halted w -> forallb guardedByIsRunning es = true -> deliverAll es w = (w, []).
Proof.
  intros Hw. induction es as [|e es IH]; intros Hes; cbn [deliverAll];
    [reflexivity|].
  cbn [forallb] in Hes. apply andb_true_iff in Hes. destruct Hes as [He Hes].
  rewrite (deliver_halted e w Hw He). cbn [world trace]. now rewrite (IH Hes).
Qed.

End Halted.

(** X18.  A game that is stopped ([isRunning] false: before the first
    match, after [gameOver]) ignores animation frames, the timers that
    [goalScored] armed and pointer events: they leave every property of
    [Game] and [Network] as it is and have no effect at all (nothing is
    drawn, sent or scheduled).  So a timer that an earlier goal armed and
    that fires after the match is over serves no puck. *)
Theorem a_stopped_game_ignores_frames_timers_and_the_pointer
    {num : Type} {A : Arith num} {X : ArithMax num} {M : MathFns num}
    (es : list Event) (w : World num) :
  Game.isRunning (game w) = false -> forallb guardedByIsRunning es = true ->
  deliverAll es w = (w, []).
Proof. exact (deliverAll_halted es w). Qed.

(** After the match is over at 11 : 3: the timer of an earlier goal, a
    frame and a pointer event. *)
Lemma a_stopped_game_ignores_frames_timers_and_the_pointer_witness :
  let w := mkWorld (Game.set_isRunning false
                      (game (RealExamples.host RealExamples.shot (Score.mk 11 3))))
                   (net (RealExamples.host RealExamples.shot (Score.mk 11 3))) in
  let es := [during_match (Timeout (ResetPuck false) 0.3 2000);
             during_match (Frame 16.67 2010 7); pointer 120 480 0 0]%R in
  deliverAll es w = (w, []).
Proof.
  cbv zeta.
  exact (@a_stopped_game_ignores_frames_timers_and_the_pointer R _ _ _
           [during_match (Timeout (ResetPuck false) 0.3 2000);
            during_match (Frame 16.67 2010 7); pointer 120 480 0 0]%R
           (mkWorld (Game.set_isRunning false
                       (game (RealExamples.host RealExamples.shot (Score.mk 11 3))))
                    (net (RealExamples.host RealExamples.shot (Score.mk 11 3))))
           eq_refl eq_refl).
Defined.
